(** * A web IDE's file synchronisation: routes, hub and client reconciler

    A shallow embedding of the file routes ([routes/files.js]), of the
    WebSocket hub with its file watcher ([websocket.js]) and of the
    browser-side file context ([context/FileContext.jsx]), with the
    properties of the design document stated over them.

    JavaScript strings are modelled as [string]; the code only inspects
    the ASCII characters [/], [\] and [.] and the line terminators, so a
    UTF-8 reading of a path behaves like its UTF-16 original.  An object
    used as a dictionary ([fileContents]) is the finite map of its own
    properties, read through [Object.prototype] as the language does. *)

From stdpp Require Import base list strings gmap.
From Stdlib Require Import Ascii ZArith Sorting.Sorted Sorting.Permutation.
From Stdlib Require OrderedTypeEx.

Local Open Scope string_scope.

#[local] Set Warnings "-register-all".

(* ===================================================================== *)
(** * JavaScript values the code relies on *)
(* ===================================================================== *)

Module JS.

(** [!s] on a string that may be [undefined]: the empty string and
    [undefined] are falsy, every other string is truthy. *)
Definition truthy (v : option string) : bool :=
  match v with
  | Some s => negb (String.eqb s "")
  | None => false
  end.

(** [a || b] on values that are strings, [undefined] or [null]. *)
Definition or_else (a b : option string) : option string :=
  if truthy a then a else b.

(** [arr[i]] for an integer index: [undefined] outside of the array,
    in particular at [-1]. *)
Definition index {A} (arr : list A) (i : Z) : option A :=
  if (i <? 0)%Z then None else arr !! Z.to_nat i.

(** [arr.indexOf(x)]: the first position of [x], or [-1]. *)
Fixpoint indexOf (arr : list string) (x : string) : Z :=
  match arr with
  | [] => (-1)%Z
  | y :: rest =>
      if String.eqb y x then 0%Z
      else let i := indexOf rest x in
           if (i <? 0)%Z then (-1)%Z else (i + 1)%Z
  end.

(** [arr.includes(x)]. *)
Definition includes (arr : list string) (x : string) : bool :=
  existsb (String.eqb x) arr.

(** [s.startsWith(p)]. *)
Definition startsWith (s p : string) : bool := String.prefix p s.

(** ** Plain objects used as dictionaries *)

(** What a property of such an object can hold: [undefined], a string,
    or a member of [Object.prototype] that was read through the object
    and stored in it ([__proto__] names the prototype itself).  The
    members are objects. *)
Inductive Value :=
| VUndefined
| VString (s : string)
| VMember (name : string).

#[global] Instance Value_eq_dec : EqDecision Value.
Proof. solve_decision. Defined.

(** [!!v]: [undefined] and the empty string are falsy, an object is
    truthy. *)
Definition toBoolean (v : Value) : bool :=
  match v with
  | VUndefined => false
  | VString s => negb (String.eqb s "")
  | VMember _ => true
  end.

(** The property names of [Object.prototype]. *)
Definition Object_prototype : list string :=
  [ "constructor"; "__defineGetter__"; "__defineSetter__"; "hasOwnProperty";
    "__lookupGetter__"; "__lookupSetter__"; "isPrototypeOf";
    "propertyIsEnumerable"; "toString"; "valueOf"; "__proto__";
    "toLocaleString" ].

(** [o[key]] on an object literal [o] with the own properties given:
    the own property, else the member of [Object.prototype] of that
    name, else [undefined]. *)
Definition get (o : gmap string Value) (key : string) : Value :=
  match o !! key with
  | Some v => v
  | None => if includes Object_prototype key then VMember key else VUndefined
  end.

(** [o[key] = v] on such an object: the own property is created or
    overwritten.  Under the key [__proto__], when [o] has no own
    property of that name, the assignment goes to the accessor of
    [Object.prototype] instead and creates no property: a string or
    [undefined] is ignored, an object becomes the prototype of [o].
    Only the own properties are kept here; a prototype so replaced is
    not. *)
Definition assign (o : gmap string Value) (key : string) (v : Value)
  : gmap string Value :=
  if String.eqb key "__proto__" && bool_decide (o !! key = None) then o
  else <[key := v]> o.

End JS.

(* ===================================================================== *)
(** * JSON values *)
(* ===================================================================== *)

Module JSON.

(** What [JSON.parse] yields and [JSON.stringify] takes; the fields of
    a request's query and body are such values. *)
Inductive Json :=
| JNull
| JBool (b : bool)
| JNumber (n : Z)
| JString (s : string)
| JArray (items : list Json)
| JObject (fields : list (string * Json)).

(** The value of a key among the fields of a parsed object; of two
    fields with one key the later one counts. *)
Fixpoint field (key : string) (fields : list (string * Json)) : option Json :=
  match fields with
  | [] => None
  | (k, v) :: rest =>
      match field key rest with
      | Some later => Some later
      | None => if String.eqb k key then Some v else None
      end
  end.

(** [data.key]: a [TypeError] on [null], the field of an object,
    [undefined] on every other value. *)
Definition property (key : string) (data : Json) : option (option Json) :=
  match data with
  | JNull => None
  | JObject fields => Some (field key fields)
  | _ => Some None
  end.

(** [v === s] for a string literal [s], as [switch] compares. *)
Definition strictEq (v : option Json) (s : string) : bool :=
  match v with
  | Some (JString t) => String.eqb t s
  | _ => false
  end.

(** [JSON.stringify] leaves out a property whose value is [undefined]. *)
Definition optional (key : string) (v : option Json) : list (string * Json) :=
  match v with
  | Some j => [(key, j)]
  | None => []
  end.

(** [!v] on a value read off a parsed request: [undefined], [null],
    [false], [0] and the empty string are falsy. *)
Definition truthy (v : option Json) : bool :=
  match v with
  | None | Some JNull | Some (JBool false) => false
  | Some (JNumber n) => negb (Z.eqb n 0)
  | Some (JString s) => negb (String.eqb s "")
  | Some _ => true
  end.

(** [Array.isArray(v)]. *)
Definition isArray (v : option Json) : bool :=
  match v with
  | Some (JArray _) => true
  | _ => false
  end.

End JSON.

(* ===================================================================== *)
(** * Node's POSIX [path] module *)
(* ===================================================================== *)

Module Path.

(** The components of a path between its [/] separators; an empty
    path has the single empty component. *)
Fixpoint split (p : string) : list string :=
  match p with
  | EmptyString => [EmptyString]
  | String c rest =>
      if Ascii.eqb c "/"%char then EmptyString :: split rest
      else match split rest with
           | [] => [String c EmptyString]
           | seg :: segs => String c seg :: segs
           end
  end.

(** [normalizeString]: empty and [.] components vanish, [..] removes
    the component before it; above the start it is kept for a
    relative path and dropped for an absolute one.  [res] holds the
    components kept so far, last one first. *)
Fixpoint normalizeSegs (allowAboveRoot : bool) (res segs : list string)
  : list string :=
  match segs with
  | [] => rev res
  | seg :: rest =>
      if String.eqb seg "" || String.eqb seg "." then
        normalizeSegs allowAboveRoot res rest
      else if String.eqb seg ".." then
        match res with
        | last :: res' =>
            if String.eqb last ".." then
              normalizeSegs allowAboveRoot
                (if allowAboveRoot then ".." :: res else res) rest
            else normalizeSegs allowAboveRoot res' rest
        | [] =>
            normalizeSegs allowAboveRoot
              (if allowAboveRoot then [".."] else []) rest
        end
      else normalizeSegs allowAboveRoot (seg :: res) rest
  end.

Definition isAbsolute (p : string) : bool :=
  match p with String "/"%char _ => true | _ => false end.

Fixpoint endsWithSep (p : string) : bool :=
  match p with
  | EmptyString => false
  | String c EmptyString => Ascii.eqb c "/"%char
  | String _ rest => endsWithSep rest
  end.

(** [path.normalize]. *)
Definition normalize (p : string) : string :=
  if String.eqb p "" then "." else
  let body := String.concat "/" (normalizeSegs (negb (isAbsolute p)) [] (split p)) in
  if String.eqb body "" then
    if isAbsolute p then "/" else if endsWithSep p then "./" else "."
  else
    let body := if endsWithSep p then body +:+ "/" else body in
    if isAbsolute p then "/" +:+ body else body.

(** [path.join(...parts)]: the non-empty parts, joined by [/] and
    normalized. *)
Definition join (parts : list string) : string :=
  match List.filter (fun s => negb (String.eqb s "")) parts with
  | [] => "."
  | nonempty => normalize (String.concat "/" nonempty)
  end.

(** The named components of a normalized path. *)
Definition components (p : string) : list string :=
  List.filter (fun s => negb (String.eqb s "")) (split p).

Fixpoint dropCommon (from to : list string) : list string * list string :=
  match from, to with
  | f :: from', t :: to' =>
      if String.eqb f t then dropCommon from' to' else (from, to)
  | _, _ => (from, to)
  end.

(** [path.relative(from, to)] on absolute paths: climb out of what is
    left of [from] after the common prefix, then descend into [to]. *)
Definition relative (from to : string) : string :=
  let '(up, down) := dropCommon (components (normalize from))
                                (components (normalize to)) in
  String.concat "/" (List.map (fun _ => "..") up ++ down)%list.

(** [inside root p]: the path [p] names the directory [root] or an
    entry below it, component by component. *)
Definition inside (root p : string) : bool :=
  bool_decide (components root `prefix_of` components p).

End Path.

(* ===================================================================== *)
(** * The file routes ([routes/files.js]) *)
(* ===================================================================== *)

Module FileRoutes.
Import JSON.

(** ** Storage calls and handler programs *)

Record Stats := { size : N; mtime : N; isDirectory : bool }.

(** The calls a handler makes on [fs/promises]; [writeFile] is handed
    the request's content as it came. *)
Inductive FsCall :=
| CReadFile (p : string)
| CStat (p : string)
| CMkdir (p : string)
| CWriteFile (p : string) (content : Json)
| CRm (p : string)
| CUnlink (p : string)
| CRename (oldp newp : string).

(** The body of an answer.  [BTypeError v] carries the message of the
    [TypeError] that [path.join] throws for the argument [v]. *)
Inductive Body :=
| BError (error : string)
| BTypeError (argument : option Json)
| BRead (content path : string) (size modified : N)
| BSaved (path : string)
| BCreated (path : string) (type : Json)
| BDeleted (path : string)
| BRenamed (oldPath newPath : string).

Record Response := { status : nat; body : Body }.

(** A promise settles with a rejection (the error's message) or with
    a value. *)
Definition settled (A : Type) : Type := string + A.

(** An [async] handler: it answers, or it awaits one storage call and
    goes on with what the call settled to. *)
Inductive Prog :=
| Respond (r : Response)
| ReadFile (p : string) (k : settled string -> Prog)
| Stat (p : string) (k : settled Stats -> Prog)
| Mkdir (p : string) (k : settled unit -> Prog)
| WriteFile (p : string) (content : Json) (k : settled unit -> Prog)
| Rm (p : string) (k : settled unit -> Prog)
| Unlink (p : string) (k : settled unit -> Prog)
| Rename (oldp newp : string) (k : settled unit -> Prog).

(** The first storage call of a handler, if it makes one. *)
Definition first_call (h : Prog) : option FsCall :=
  match h with
  | Respond _ => None
  | ReadFile p _ => Some (CReadFile p)
  | Stat p _ => Some (CStat p)
  | Mkdir p _ => Some (CMkdir p)
  | WriteFile p c _ => Some (CWriteFile p c)
  | Rm p _ => Some (CRm p)
  | Unlink p _ => Some (CUnlink p)
  | Rename a b _ => Some (CRename a b)
  end.

(** What the storage answers to each call. *)
Record Fs := {
  fs_readFile : string -> settled string;
  fs_stat : string -> settled Stats;
  fs_update : FsCall -> settled unit
}.

(** Running a handler against a storage: the calls made, in order,
    and the response. *)
Fixpoint run (fs : Fs) (h : Prog) : list FsCall * Response :=
  let after (c : FsCall) (next : Prog) :=
    let '(calls, r) := run fs next in (c :: calls, r) in
  match h with
  | Respond r => ([], r)
  | ReadFile p k => after (CReadFile p) (k (fs_readFile fs p))
  | Stat p k => after (CStat p) (k (fs_stat fs p))
  | Mkdir p k => after (CMkdir p) (k (fs_update fs (CMkdir p)))
  | WriteFile p c k => after (CWriteFile p c) (k (fs_update fs (CWriteFile p c)))
  | Rm p k => after (CRm p) (k (fs_update fs (CRm p)))
  | Unlink p k => after (CUnlink p) (k (fs_update fs (CUnlink p)))
  | Rename a b k => after (CRename a b) (k (fs_update fs (CRename a b)))
  end.

Definition bad_request (msg : string) : Response :=
  {| status := 400; body := BError msg |}.
Definition access_denied : Response :=
  {| status := 403; body := BError "Access denied" |}.
Definition server_error (msg : string) : Response :=
  {| status := 500; body := BError msg |}.
Definition type_error (argument : option Json) : Response :=
  {| status := 500; body := BTypeError argument |}.
Definition ok (b : Body) : Response := {| status := 200; body := b |}.

(** [await] inside [try { ... } catch (error) { res.status(500)... }]:
    a rejection ends the handler with the error's message. *)
Definition try_await {A} (k : A -> Prog) (r : settled A) : Prog :=
  match r with
  | inl msg => Respond (server_error msg)
  | inr v => k v
  end.

Local Notation "'await' x <- c ; rest" := (c (try_await (fun x => rest)))
  (at level 10, x binder, c at level 10, rest at level 200, only parsing).

(** [path.dirname] of a joined absolute path: the path without its
    last component. *)
Definition dirname (p : string) : string :=
  match rev (Path.components p) with
  | [] => "/"
  | _ :: parent =>
      match rev parent with
      | [] => if Path.isAbsolute p then "/" else "."
      | segs => (if Path.isAbsolute p then "/" else "") +:+ String.concat "/" segs
      end
  end.

Section Handlers.

(** [path.join(__dirname, '../../workspace')]. *)
Variable WORKSPACE_DIR : string.

(** [const fullPath = path.join(WORKSPACE_DIR, filePath)] inside the
    handler's [try]: [path.join] throws a [TypeError] for an argument
    that is not a string, and the [catch] answers 500 with its
    message; for a string the handler goes on with the joined path. *)
Definition try_join (filePath : option Json)
    (k : string -> string -> Prog) : Prog :=
  match filePath with
  | Some (JString path) => k path (Path.join [WORKSPACE_DIR; path])
  | _ => Respond (type_error filePath)
  end.

(** The handlers below take the fields they read off [req.query] and
    [req.body], which the parsers of [server/index.js] leave as objects:
    a field left out is [undefined] ([None]), a field given holds the
    value as parsed, of whatever type. *)

(** [router.get('/read')], on [req.query.path]. *)
Definition read (query_path : option Json) : Prog :=
  if negb (truthy query_path) then
    Respond (bad_request "File path is required")
  else
    try_join query_path (fun filePath fullPath =>
      if negb (JS.startsWith fullPath WORKSPACE_DIR) then
        Respond access_denied
      else
        await content <- ReadFile fullPath;
        await stats <- Stat fullPath;
        Respond (ok (BRead content filePath (size stats) (mtime stats)))).

(** [router.post('/write')], on [req.body.path] and [req.body.content];
    [content === undefined] is the field left out. *)
Definition write (body_path body_content : option Json) : Prog :=
  match body_content with
  | Some content =>
      if negb (truthy body_path) then
        Respond (bad_request "File path and content are required")
      else
        try_join body_path (fun filePath fullPath =>
          if negb (JS.startsWith fullPath WORKSPACE_DIR) then
            Respond access_denied
          else
            await _ <- Mkdir (dirname fullPath);
            await _ <- WriteFile fullPath content;
            Respond (ok (BSaved filePath)))
  | None => Respond (bad_request "File path and content are required")
  end.

(** [router.post('/create')]; [content] defaults to the empty string
    when it is left out. *)
Definition create (body_path body_type body_content : option Json) : Prog :=
  let content := default (JString "") body_content in
  match body_type with
  | Some type =>
      if negb (truthy body_path) || negb (truthy body_type) then
        Respond (bad_request "File path and type are required")
      else
        try_join body_path (fun filePath fullPath =>
          if negb (JS.startsWith fullPath WORKSPACE_DIR) then
            Respond access_denied
          else if strictEq body_type "directory" then
            await _ <- Mkdir fullPath;
            Respond (ok (BCreated filePath type))
          else
            await _ <- Mkdir (dirname fullPath);
            await _ <- WriteFile fullPath content;
            Respond (ok (BCreated filePath type)))
  | None => Respond (bad_request "File path and type are required")
  end.

(** [router.delete('/delete')], on [req.query.path]. *)
Definition delete (query_path : option Json) : Prog :=
  if negb (truthy query_path) then
    Respond (bad_request "File path is required")
  else
    try_join query_path (fun filePath fullPath =>
      if negb (JS.startsWith fullPath WORKSPACE_DIR) then
        Respond access_denied
      else
        await stats <- Stat fullPath;
        if isDirectory stats then
          await _ <- Rm fullPath;
          Respond (ok (BDeleted filePath))
        else
          await _ <- Unlink fullPath;
          Respond (ok (BDeleted filePath))).

(** [router.post('/rename')], on [req.body.oldPath] and
    [req.body.newPath]; the old path is joined first. *)
Definition rename (body_oldPath body_newPath : option Json) : Prog :=
  if negb (truthy body_oldPath) || negb (truthy body_newPath) then
    Respond (bad_request "Old path and new path are required")
  else
    try_join body_oldPath (fun oldPath fullOldPath =>
      try_join body_newPath (fun newPath fullNewPath =>
        if negb (JS.startsWith fullOldPath WORKSPACE_DIR)
           || negb (JS.startsWith fullNewPath WORKSPACE_DIR) then
          Respond access_denied
        else
          await _ <- Rename fullOldPath fullNewPath;
          Respond (ok (BRenamed oldPath newPath)))).

End Handlers.

(** A storage that holds a file next to the workspace. *)
Definition neighbour : Fs :=
  {| fs_readFile := fun p =>
       if String.eqb p "/app/workspace-evil/secret.txt" then inr "s3cret"
       else inl "ENOENT";
     fs_stat := fun p =>
       if String.eqb p "/app/workspace-evil/secret.txt"
       then inr {| size := 6; mtime := 1700000000; isDirectory := false |}
       else inl "ENOENT";
     fs_update := fun _ => inr tt |}.

End FileRoutes.

(* ===================================================================== *)
(** * The tree listing ([buildFileTree] in [routes/files.js]) *)
(* ===================================================================== *)

Module FileTree.

(** The storage below a directory: what [fs.readdir] lists, in the
    order the storage yields it, with what [fs.stat] says of each
    item. *)
Inductive Node :=
| FileNode (size mtime : N)
| DirNode (items : list (string * Node)).

Inductive EntryType := file | directory.

#[global] Instance EntryType_eq_dec : EqDecision EntryType.
Proof. solve_decision. Defined.

Inductive WorkspaceEntry :=
| FileEntry (name path : string) (size modified : N)
| DirEntry (name path : string) (children : list WorkspaceEntry).

Definition name (e : WorkspaceEntry) : string :=
  match e with FileEntry n _ _ _ | DirEntry n _ _ => n end.

Definition path (e : WorkspaceEntry) : string :=
  match e with FileEntry _ p _ _ | DirEntry _ p _ => p end.

Definition type (e : WorkspaceEntry) : EntryType :=
  match e with FileEntry _ _ _ _ => file | DirEntry _ _ _ => directory end.

Definition children (e : WorkspaceEntry) : list WorkspaceEntry :=
  match e with FileEntry _ _ _ _ => [] | DirEntry _ _ c => c end.

(** A comparison of names a host may provide: code unit by code unit. *)
Definition codeUnitCompare (a b : string) : Z :=
  match String.compare a b with
  | Lt => (-1)%Z
  | Eq => 0%Z
  | Gt => 1%Z
  end.

Section Listing.

(** [a.localeCompare(b)]: negative, zero or positive.  The collation
    is the host's; the listing only needs it to be a total order. *)
Variable localeCompare : string -> string -> Z.

(** The comparator handed to [tree.sort]. *)
Definition compareEntries (a b : WorkspaceEntry) : Z :=
  if decide (type a = type b) then localeCompare (name a) (name b)
  else if decide (type a = directory) then (-1)%Z else 1%Z.

(** [Array.prototype.sort] is stable: an element goes before the
    first one it does not compare greater than. *)
Fixpoint insert (x : WorkspaceEntry) (sorted : list WorkspaceEntry)
  : list WorkspaceEntry :=
  match sorted with
  | [] => [x]
  | y :: rest =>
      if (compareEntries x y <=? 0)%Z then x :: y :: rest
      else y :: insert x rest
  end.

Definition sort (tree : list WorkspaceEntry) : list WorkspaceEntry :=
  foldr insert [] tree.

(** One turn of the loop over [items], and the whole of
    [buildFileTree(dir, basePath)] on the items of [dir]. *)
Fixpoint buildEntry (basePath item : string) (stats : Node) : WorkspaceEntry :=
  let relativePath := Path.join [basePath; item] in
  match stats with
  | DirNode items =>
      DirEntry item relativePath
        (sort (List.map (fun i => buildEntry relativePath (fst i) (snd i)) items))
  | FileNode size mtime => FileEntry item relativePath size mtime
  end.

Definition buildFileTree (items : list (string * Node)) (basePath : string)
  : list WorkspaceEntry :=
  sort (List.map (fun i => buildEntry basePath (fst i) (snd i)) items).

(** [router.get('/tree')]: the listing of the workspace directory;
    the storage is read and handed on as it was. *)
Definition tree (workspace : list (string * Node))
  : list WorkspaceEntry * list (string * Node) :=
  (buildFileTree workspace "", workspace).

(** ** What it means for a listing to be ordered *)

(** [a] may stand before [b]: a directory before a file, and within
    one type the name that does not compare greater. *)
Definition before (a b : WorkspaceEntry) : Prop :=
  match type a, type b with
  | directory, file => True
  | file, directory => False
  | _, _ => (localeCompare (name a) (name b) <= 0)%Z
  end.

(** Every level of the listing is ordered by [before]. *)
Inductive ordered : list WorkspaceEntry -> Prop :=
| ordered_level (l : list WorkspaceEntry) :
    StronglySorted before l ->
    Forall (fun e => ordered (children e)) l ->
    ordered l.

End Listing.

(** Induction on the storage below a directory, with the hypothesis
    for every item of a directory. *)
Fixpoint Node_ind' (P : Node -> Prop)
    (Hfile : forall size mtime, P (FileNode size mtime))
    (Hdir : forall items, Forall (fun i => P (snd i)) items -> P (DirNode items))
    (n : Node) {struct n} : P n :=
  match n with
  | FileNode size mtime => Hfile size mtime
  | DirNode items =>
      Hdir items
        ((fix all (l : list (string * Node)) : Forall (fun i => P (snd i)) l :=
            match l with
            | [] => @List.Forall_nil _ _
            | i :: rest =>
                @List.Forall_cons _ _ i rest (Node_ind' P Hfile Hdir (snd i)) (all rest)
            end) items)
  end.

(** A workspace as the storage may yield it, unordered. *)
Definition sampleWorkspace : list (string * Node) :=
  [ ("package.json", FileNode 420 1700000300);
    ("src", DirNode [ ("index.js", FileNode 90 1700000200);
                      ("components", DirNode [ ("Editor.jsx", FileNode 2048 1700000100) ]);
                      ("App.jsx", FileNode 1500 1700000150) ]);
    (".env", FileNode 12 1700000000);
    ("README.md", FileNode 800 1700000250);
    ("docs", DirNode []) ].

End FileTree.

(* ===================================================================== *)
(** * The host's comparison of names *)
(* ===================================================================== *)

(** [a.localeCompare(b)] is not part of the repository: it is the
    collation of the host.  For names in ASCII it is modelled here from
    the Unicode collation algorithm with the root order of CLDR, which
    the hosts use for the locales of English: strings are compared by
    their characters' primary weights first, in which a letter weighs
    the same in both cases, and by case, lower before upper, only when
    those agree.  Code units beyond ASCII are given weights after the
    letters; that is not the host's order, and nothing below relies on
    it. *)
Module Collation.

(** White space, punctuation, symbols, digits and letters in the order
    of their primary weights. *)
Definition alphabet : list ascii :=
  [ "009"; "010"; "011"; "012"; "013"; " ";
    "_"; "-"; ","; ";"; ":"; "!"; "?"; "."; "'"; "034"; "("; ")"; "["; "]";
    "{"; "}"; "@"; "*"; "/"; "\"; "&"; "#"; "%"; "`"; "^"; "+"; "<"; "=";
    ">"; "|"; "~"; "$";
    "0"; "1"; "2"; "3"; "4"; "5"; "6"; "7"; "8"; "9";
    "a"; "b"; "c"; "d"; "e"; "f"; "g"; "h"; "i"; "j"; "k"; "l"; "m";
    "n"; "o"; "p"; "q"; "r"; "s"; "t"; "u"; "v"; "w"; "x"; "y"; "z" ]%char.

Definition isUpper (c : ascii) : bool :=
  Nat.leb 65 (nat_of_ascii c) && Nat.leb (nat_of_ascii c) 90.

Definition toLower (c : ascii) : ascii :=
  if isUpper c then ascii_of_nat (nat_of_ascii c + 32) else c.

(** The position of a character in a list, counted from [i]. *)
Fixpoint position (c : ascii) (l : list ascii) (i : nat) : option nat :=
  match l with
  | [] => None
  | d :: rest => if Ascii.eqb c d then Some i else position c rest (S i)
  end.

(** The primary weight of a code unit; the other control characters
    have none and are ignored by the comparison. *)
Definition primary (c : ascii) : option ascii :=
  match position (toLower c) alphabet 2 with
  | Some w => Some (ascii_of_nat w)
  | None => if Nat.leb 128 (nat_of_ascii c) then Some c else None
  end.

(** Its weight on the level of case. *)
Definition tertiary (c : ascii) : ascii :=
  if isUpper c then "003"%char else "002"%char.

Fixpoint primaries (s : string) : string :=
  match s with
  | EmptyString => EmptyString
  | String c rest =>
      match primary c with
      | Some w => String w (primaries rest)
      | None => primaries rest
      end
  end.

Fixpoint tertiaries (s : string) : string :=
  match s with
  | EmptyString => EmptyString
  | String c rest =>
      match primary c with
      | Some _ => String (tertiary c) (tertiaries rest)
      | None => tertiaries rest
      end
  end.

(** The sort key of a string: its primary weights, a separator below
    every weight, its case weights.  Strings compare as their keys do,
    code unit by code unit. *)
Definition sortKey (s : string) : string :=
  primaries s +:+ String "001"%char (tertiaries s).

Definition localeCompare (a b : string) : Z :=
  FileTree.codeUnitCompare (sortKey a) (sortKey b).

End Collation.

(* ===================================================================== *)
(** * The watcher and the WebSocket hub ([websocket.js]) *)
(* ===================================================================== *)

Module Hub.
Export JSON.

(** ** The watcher *)

(** The events [chokidar] has for entries. *)
Inductive WatcherEvent :=
| add (filePath : string)
| addDir (filePath : string)
| changeOf (filePath : string)
| unlink (filePath : string)
| unlinkDir (filePath : string).

Definition filePath (e : WatcherEvent) : string :=
  match e with
  | add p | addDir p | changeOf p | unlink p | unlinkDir p => p
  end.

Definition isSeparator (c : ascii) : bool :=
  Ascii.eqb c "/"%char || Ascii.eqb c "\"%char.

(** The regular expression's [.] matches one character that is not a
    line terminator: LF, CR, U+2028 or U+2029 (E2 80 A8 and E2 80 A9
    in UTF-8). *)
Definition matchesDot (s : string) : bool :=
  match s with
  | EmptyString => false
  | String c rest =>
      if Ascii.eqb c "010"%char || Ascii.eqb c "013"%char then false
      else match c, rest with
           | "226"%char, String "128"%char (String d _) =>
               negb (Ascii.eqb d "168"%char || Ascii.eqb d "169"%char)
           | _, _ => true
           end
  end.

(** [/(^|[\/\\])\../.test(p)], scanning [p] from a position that is
    the start of the path or follows a separator ([boundary]) or not. *)
Fixpoint dotfileFrom (boundary : bool) (p : string) : bool :=
  match p with
  | EmptyString => false
  | String c rest =>
      (boundary && Ascii.eqb c "."%char && matchesDot rest)
      || dotfileFrom (isSeparator c) rest
  end.

Definition dotfile (p : string) : bool := dotfileFrom true p.

Record WatchOptions := {
  ignored : string -> bool;
  persistent : bool;
  ignoreInitial : bool
}.

(** The options of [chokidar.watch(WORKSPACE_DIR, ...)]. *)
Definition options : WatchOptions :=
  {| ignored := dotfile; persistent := true; ignoreInitial := true |}.

(** [chokidar] is not part of the repository.  What it makes of the
    file system's raw notifications (with its option [atomic] left at
    its default it holds a removal back and reports the removal and a
    re-creation that follows at once as one change, it throttles
    changes, and it skips the temporary files of editors) is its own
    and is not modelled: a finding is an event it has come to, marked
    when it stems from the scan of the tree that precedes [ready]. *)
Record Finding := {
  event : WatcherEvent;
  initial : bool
}.

(** What the two options of the source ask of the library, as it
    documents them: a path that [ignored] matches is not watched, and
    under [ignoreInitial] no event is emitted for what the first scan
    finds.  Every other finding is emitted to the listeners. *)
Definition delivered (o : WatchOptions) (f : Finding) : option WatcherEvent :=
  if ignored o (filePath (event f)) then None
  else if initial f && ignoreInitial o then None
  else Some (event f).

Inductive ChangeKind := added | changed | deleted.

Record ChangeEvent := { kind : ChangeKind; path : string }.

Definition typeName (k : ChangeKind) : string :=
  match k with
  | added => "file:added"
  | changed => "file:changed"
  | deleted => "file:deleted"
  end.

(** The object handed to [broadcast]. *)
Definition eventData (e : ChangeEvent) : Json :=
  JObject [("type", JString (typeName (kind e))); ("path", JString (path e))].

(** ** The hub *)

(** [readyState] of a socket. *)
Definition CONNECTING : nat := 0.
Definition OPEN : nat := 1.
Definition CLOSING : nat := 2.
Definition CLOSED : nat := 3.

Inductive Effect :=
| Send (client : nat) (message : Json)
| Log (text : string)
| LogError (text : string).

(** What reaches the hub: a new connection, a socket's message, close
    or error event, and an event the watcher emits. *)
Inductive Input :=
| Connection (ws : nat)
| Message (ws : nat) (message : string)
| Close (ws : nat)
| Error (ws : nat)
| Watch (e : WatcherEvent).

(** [clients.add(ws)] and [clients.delete(ws)] on the [Set], kept in
    insertion order. *)
Definition clients_add (ws : nat) (clients : list nat) : list nat :=
  if bool_decide (ws ∈ clients) then clients else (clients ++ [ws])%list.

Definition clients_delete (ws : nat) (clients : list nat) : list nat :=
  List.filter (fun c => negb (Nat.eqb c ws)) clients.

Section SetupWebSocket.

Variable WORKSPACE_DIR : string.

(** [JSON.parse]: [None] stands for its [SyntaxError]. *)
Variable JSON_parse : string -> option Json.

(** [Date.now()] when the input is handled. *)
Variable now : Z.

(** [client.readyState], which the socket library maintains. *)
Variable readyState : nat -> nat.

(** [broadcast(data)]: one serialization, sent to every client that
    is open. *)
Definition broadcast (clients : list nat) (data : Json) : list Effect :=
  let message := data in
  flat_map (fun client =>
              if Nat.eqb (readyState client) 1 then [Send client message]
              else [])
           clients.

(** The three listeners on the watcher; no other event of the
    watcher has one. *)
Definition listener (e : WatcherEvent) : option ChangeEvent :=
  match e with
  | add filePath =>
      Some {| kind := added; path := Path.relative WORKSPACE_DIR filePath |}
  | changeOf filePath =>
      Some {| kind := changed; path := Path.relative WORKSPACE_DIR filePath |}
  | unlink filePath =>
      Some {| kind := deleted; path := Path.relative WORKSPACE_DIR filePath |}
  | addDir _ | unlinkDir _ => None
  end.

(** The change events an emitted event leads to. *)
Definition listened (e : WatcherEvent) : list ChangeEvent :=
  match listener e with Some ev => [ev] | None => [] end.

(** The change events a finding of the library leads to. *)
Definition watcher (f : Finding) : list ChangeEvent :=
  match delivered options f with
  | Some e => listened e
  | None => []
  end.

(** [ws.on('message')]: parse, then [switch (data.type)]; the
    [catch] logs a [SyntaxError] of the parse and the [TypeError]
    of reading [type] off [null]. *)
Definition onMessage (ws : nat) (message : string) : list Effect :=
  match JSON_parse message with
  | None => [LogError "WebSocket message error:"]
  | Some data =>
      match property "type" data with
      | None => [LogError "WebSocket message error:"]
      | Some type =>
          if strictEq type "ping" then
            [Send ws (JObject [("type", JString "pong");
                               ("timestamp", JNumber now)])]
          else if strictEq type "subscribe" then
            (* [data] is an object here, so [data.channel] does not throw *)
            let channel := default None (property "channel" data) in
            [Send ws (JObject (("type", JString "subscribed")
                                 :: optional "channel" channel))]
          else [Log "Unknown message type:"]
      end
  end.

(** One input handled: the registry afterwards and what was done. *)
Definition step (clients : list nat) (i : Input) : list nat * list Effect :=
  match i with
  | Connection ws =>
      (clients_add ws clients,
       [Log "WebSocket client connected";
        Send ws (JObject [("type", JString "connected");
                          ("message", JString "WebSocket connection established");
                          ("timestamp", JNumber now)])])
  | Message ws message => (clients, onMessage ws message)
  | Close ws => (clients_delete ws clients, [Log "WebSocket client disconnected"])
  | Error ws => (clients_delete ws clients, [LogError "WebSocket error:"])
  | Watch e =>
      (clients, flat_map (fun ev => broadcast clients (eventData ev)) (listened e))
  end.

End SetupWebSocket.

End Hub.

(* ===================================================================== *)
(** * The watcher as the design describes it *)
(* ===================================================================== *)

(** A reference to compare [Hub.watcher] with: which findings are to be
    reported, and as what. *)
Module WatcherSpec.
Import Hub.

(** The kind of change event that answers to an event about a file;
    an event about a directory has none. *)
Definition kindOf (e : WatcherEvent) : option ChangeKind :=
  match e with
  | add _ => Some added
  | changeOf _ => Some changed
  | unlink _ => Some deleted
  | addDir _ | unlinkDir _ => None
  end.

(** The findings that are reported: about a file, on a path the
    ignore pattern does not match, after the first scan. *)
Definition reportable (f : Finding) : bool :=
  negb (dotfile (filePath (event f))) && negb (initial f)
  && match kindOf (event f) with Some _ => true | None => false end.

(** The reports of a finding: one, of its kind, when it is about a
    file. *)
Definition report (WORKSPACE_DIR : string) (f : Finding) : list ChangeEvent :=
  match kindOf (event f) with
  | Some k =>
      [ {| kind := k; path := Path.relative WORKSPACE_DIR (filePath (event f)) |} ]
  | None => []
  end.


End WatcherSpec.

(* ===================================================================== *)
(** * The client reconciler ([context/FileContext.jsx]) *)
(* ===================================================================== *)

Module FileContext.

(** The state hooks of [FileProvider].  [fileContents] holds the own
    properties of the dictionary; its prototype is [Object.prototype],
    since every update builds the dictionary anew as an object literal
    (a rename onto the path [__proto__] aside, see [JS.assign]). *)
Record State := {
  fileTree : list FileTree.WorkspaceEntry;
  openFiles : list string;
  activeFile : option string;
  fileContents : gmap string JS.Value;
  loading : bool
}.

(** The state of the first render. *)
Definition mount : State :=
  {| fileTree := []; openFiles := []; activeFile := None;
     fileContents := ∅; loading := false |}.

(** The requests sent through [axios]. *)
Inductive Request :=
| GetTree
| GetRead (path : string)
| PostWrite (path content : string)
| PostCreate (path type content : string)
| DeleteDelete (path : string)
| PostRename (oldPath newPath : string).

(** What the server answers: a rejection carries the error. *)
Record Server := {
  tree_response : string + list FileTree.WorkspaceEntry;
  read_response : string -> string + string;
  update_response : Request -> string + unit
}.

(** An [async] function of the provider: from the current state to
    the state after its queued updates, the requests it sent, and the
    value it resolved to or the error it rejected with. *)
Definition Async (A : Type) : Type :=
  State -> State * list Request * (string + A).

#[global] Instance Async_ret : MRet Async :=
  fun A v s => (s, [], inr v).

#[global] Instance Async_bind : MBind Async :=
  fun A B k m s =>
    match m s with
    | (s1, sent1, inr v) =>
        let '(s2, sent2, r) := k v s1 in (s2, (sent1 ++ sent2)%list, r)
    | (s1, sent1, inl error) => (s1, sent1, inl error)
    end.

(** [try { ... } catch (error) { console.error(...) }]: the error is
    logged and goes no further. *)
Definition caught {A} (m : Async A) : Async unit :=
  fun s => let '(s1, sent, _) := m s in (s1, sent, inr tt).

(** A state setter called with an updater function or with a value. *)
Definition setFileTree (v : list FileTree.WorkspaceEntry) : Async unit :=
  fun s => ({| fileTree := v; openFiles := openFiles s;
               activeFile := activeFile s; fileContents := fileContents s;
               loading := loading s |}, [], inr tt).

Definition setOpenFiles (f : list string -> list string) : Async unit :=
  fun s => ({| fileTree := fileTree s; openFiles := f (openFiles s);
               activeFile := activeFile s; fileContents := fileContents s;
               loading := loading s |}, [], inr tt).

Definition setActiveFile (v : option string) : Async unit :=
  fun s => ({| fileTree := fileTree s; openFiles := openFiles s;
               activeFile := v; fileContents := fileContents s;
               loading := loading s |}, [], inr tt).

Definition setFileContents
    (f : gmap string JS.Value -> gmap string JS.Value) : Async unit :=
  fun s => ({| fileTree := fileTree s; openFiles := openFiles s;
               activeFile := activeFile s; fileContents := f (fileContents s);
               loading := loading s |}, [], inr tt).

Definition setLoading (v : bool) : Async unit :=
  fun s => ({| fileTree := fileTree s; openFiles := openFiles s;
               activeFile := activeFile s; fileContents := fileContents s;
               loading := v |}, [], inr tt).

(** A message of the hub, parsed. *)
Record HubMessage := { type : string; path : string }.

Definition ofEvent (e : Hub.ChangeEvent) : HubMessage :=
  {| type := Hub.typeName (Hub.kind e); path := Hub.path e |}.

Section Provider.

Variable server : Server.

Definition axios_get_tree : Async (list FileTree.WorkspaceEntry) :=
  fun s => (s, [GetTree], tree_response server).

Definition axios_get_read (filePath : string) : Async string :=
  fun s => (s, [GetRead filePath], read_response server filePath).

Definition axios_update (r : Request) : Async unit :=
  fun s => (s, [r], update_response server r).

(** [loadFileTree] logs a failed request and resolves all the same. *)
Definition loadFileTree : Async unit :=
  setLoading true;;
  caught (tree ← axios_get_tree; setFileTree tree);;
  setLoading false.

(** [loadFile], [saveFile] and [createFile] log a failed request and
    throw it again. *)
Definition loadFile (filePath : string) : Async string :=
  content ← axios_get_read filePath;
  setFileContents (fun prev => <[filePath := JS.VString content]> prev);;
  mret content.

Definition saveFile (filePath content : string) : Async bool :=
  axios_update (PostWrite filePath content);;
  setFileContents (fun prev => <[filePath := JS.VString content]> prev);;
  mret true.

Definition createFile (filePath type content : string) : Async bool :=
  axios_update (PostCreate filePath type content);;
  loadFileTree;;
  mret true.

Definition updateFileContent (filePath content : string) : Async unit :=
  setFileContents (fun prev => <[filePath := JS.VString content]> prev).

(** The functions below read [openFiles], [activeFile] and
    [fileContents] of the render that created them ([render]) and
    queue their updates on the current state. *)
Section Render.

Variable render : State.

(** [deleteFile]: after the request, [openFiles] and [fileContents] are
    updated through updaters, [activeFile] from the render's values. *)
Definition deleteFile (filePath : string) : Async bool :=
  axios_update (DeleteDelete filePath);;
  setOpenFiles (fun prev =>
    List.filter (fun f => negb (String.eqb f filePath)) prev);;
  setFileContents (fun prev => delete filePath prev);;
  (if bool_decide (activeFile render = Some filePath) then
     setActiveFile (JS.or_else (JS.index (openFiles render) 0) None)
   else mret tt);;
  loadFileTree;;
  mret true.

(** [renameFile]; the updater works on a copy of the own properties
    of [prev]. *)
Definition renameFile (oldPath newPath : string) : Async bool :=
  axios_update (PostRename oldPath newPath);;
  setOpenFiles (fun prev =>
    List.map (fun f => if String.eqb f oldPath then newPath else f) prev);;
  (if JS.toBoolean (JS.get (fileContents render) oldPath) then
     setFileContents (fun prev =>
       let newContents := prev in
       let newContents :=
         JS.assign newContents newPath (JS.get newContents oldPath) in
       delete oldPath newContents)
   else mret tt);;
  (if bool_decide (activeFile render = Some oldPath) then
     setActiveFile (Some newPath)
   else mret tt);;
  loadFileTree;;
  mret true.

(** [openFile]: a rejected [loadFile] rejects it after both setters
    were called. *)
Definition openFile (filePath : string) : Async unit :=
  (if negb (JS.includes (openFiles render) filePath) then
     setOpenFiles (fun prev => (prev ++ [filePath])%list)
   else mret tt);;
  setActiveFile (Some filePath);;
  if negb (JS.toBoolean (JS.get (fileContents render) filePath)) then
    loadFile filePath;; mret tt
  else mret tt.

(** [closeFile]: the new active file is looked up in the render's
    [openFiles], around the position of the closed path. *)
Definition closeFile (filePath : string) : Async unit :=
  setOpenFiles (fun prev =>
    List.filter (fun f => negb (String.eqb f filePath)) prev);;
  if bool_decide (activeFile render = Some filePath) then
    let index := JS.indexOf (openFiles render) filePath in
    let newActive :=
      JS.or_else (JS.index (openFiles render) (index - 1))
        (JS.or_else (JS.index (openFiles render) (index + 1)) None) in
    setActiveFile newActive
  else mret tt.

(** [websocket.onmessage], on the parsed [event.data]; the
    promise of [loadFile] is not awaited. *)
Definition onmessage (data : HubMessage) : Async unit :=
  if String.eqb (type data) "file:changed" then
    if JS.toBoolean (JS.get (fileContents render) (path data)) then
      caught (loadFile (path data))
    else mret tt
  else if String.eqb (type data) "file:added"
          || String.eqb (type data) "file:deleted" then
    loadFileTree
  else mret tt.

End Render.

(** A function of the provider called from the current render, with
    no update pending: it reads the state it then updates. *)
Definition call {A} (f : State -> Async A) : Async A :=
  fun s => f s s.

(** [useEffect(() => { ... websocket.onmessage = ... }, [])] runs once,
    after the first render: the handler the socket keeps is the
    [onmessage] created in that render, and the [fileContents] it reads
    is that render's constant, the initial empty object, for as long as
    the provider is mounted. *)
Definition websocket_onmessage : HubMessage -> Async unit :=
  onmessage mount.

End Provider.

(** The state a function leaves, and the requests it sent. *)
Definition after {A} (m : Async A) (s : State) : State := (m s).1.1.
Definition sent {A} (m : Async A) (s : State) : list Request := (m s).1.2.
Definition outcome {A} (m : Async A) (s : State) : string + A := (m s).2.

(** A server that accepts every update and serves one tree and one
    content. *)
Definition accepting (tree : list FileTree.WorkspaceEntry) (content : string)
  : Server :=
  {| tree_response := inr tree;
     read_response := fun _ => inr content;
     update_response := fun _ => inr tt |}.

Definition editing (open : list string) (active : option string)
    (contents : gmap string JS.Value) : State :=
  {| fileTree := []; openFiles := open; activeFile := active;
     fileContents := contents; loading := false |}.

(** [activeFile ∈ openFiles ∪ {none}]. *)
Definition active_is_open (s : State) : Prop :=
  match activeFile s with
  | Some p => p ∈ openFiles s
  | None => True
  end.

End FileContext.

(* ===================================================================== *)
(** * Reading a handler's run *)
(* ===================================================================== *)

Module RouteRuns.
Import JSON FileRoutes.

(** The paths a storage call is made on. *)
Definition targets (c : FsCall) : list string :=
  match c with
  | CReadFile p | CStat p | CMkdir p | CWriteFile p _ | CRm p | CUnlink p => [p]
  | CRename a b => [a; b]
  end.

(** The storage rejected the call with this message. *)
Definition fails (fs : Fs) (c : FsCall) (msg : string) : Prop :=
  match c with
  | CReadFile p => fs_readFile fs p = inl msg
  | CStat p => fs_stat fs p = inl msg
  | _ => fs_update fs c = inl msg
  end.

(** The storage fulfilled the call. *)
Definition succeeds (fs : Fs) (c : FsCall) : Prop :=
  match c with
  | CReadFile p => exists content, fs_readFile fs p = inr content
  | CStat p => exists stats, fs_stat fs p = inr stats
  | _ => fs_update fs c = inr tt
  end.

(** The field is a string. *)
Definition isString (v : option Json) : bool :=
  match v with
  | Some (JString _) => true
  | _ => false
  end.

(** The response of a run agrees with what the storage answered and
    with the path fields of the request: after a 500 either the last
    call made is one the storage rejected, with the message the
    response carries, and the calls before it succeeded; or no call
    was made and the response carries the [TypeError] of a path field
    that is not a string.  After a 200 some call was made, all calls
    succeeded and the path fields are strings. *)
Definition accounted (fs : Fs) (paths : list (option Json))
    (r : list FsCall * Response) : Prop :=
  (status r.2 = 500 ->
     (exists c msg, last r.1 = Some c /\ fails fs c msg /\
        body r.2 = BError msg /\ Forall (succeeds fs) (removelast r.1))
     \/ (r.1 = [] /\ exists v, In v paths /\ isString v = false /\
           truthy v = true /\ body r.2 = BTypeError v))
  /\ (status r.2 = 200 ->
       r.1 <> [] /\ Forall (succeeds fs) r.1
       /\ Forall (fun v => isString v = true) paths)
  /\ In (status r.2) [200; 400; 403; 500].

(** A request turned away: 400 or 403. *)
Definition turned_away (r : Response) : bool :=
  Nat.eqb (status r) 400 || Nat.eqb (status r) 403.

(** A storage in which every call succeeds, on a file of the given
    content or on a directory. *)
Definition willing (content : string) (dir : bool) : Fs :=
  {| fs_readFile := fun _ => inr content;
     fs_stat := fun _ => inr {| size := N.of_nat (String.length content);
                                mtime := 1700000000; isDirectory := dir |};
     fs_update := fun _ => inr tt |}.

(** A storage whose disk is full: reads succeed, updates fail. *)
Definition readonly (content : string) : Fs :=
  {| fs_readFile := fun _ => inr content;
     fs_stat := fun _ => inr {| size := N.of_nat (String.length content);
                                mtime := 1700000000; isDirectory := false |};
     fs_update := fun _ => inl "EROFS: read-only file system" |}.

End RouteRuns.

(* ===================================================================== *)
(** * Runs of the hub *)
(* ===================================================================== *)

Module HubRuns.
Import Hub.

(** One input with the clock and the sockets' states at the time it is
    handled. *)
Record Moment := {
  input : Input;
  time : Z;
  states : nat -> nat
}.

(** The hub handling a sequence of inputs, one after the other. *)
Fixpoint run (WORKSPACE_DIR : string) (JSON_parse : string -> option Json)
    (clients : list nat) (moments : list Moment) : list nat * list Effect :=
  match moments with
  | [] => (clients, [])
  | m :: rest =>
      let '(clients1, done1) :=
        step WORKSPACE_DIR JSON_parse (time m) (states m) clients (input m) in
      let '(clients2, done2) := run WORKSPACE_DIR JSON_parse clients1 rest in
      (clients2, (done1 ++ done2)%list)
  end.

(** The messages sent to one session, in the order they were sent. *)
Fixpoint received (ws : nat) (effects : list Effect) : list Json :=
  match effects with
  | [] => []
  | Send client message :: rest =>
      if Nat.eqb client ws then message :: received ws rest
      else received ws rest
  | _ :: rest => received ws rest
  end.

(** The input is the session's own: its connection, one of its
    messages, its close or error event. *)
Definition own (ws : nat) (i : Input) : bool :=
  match i with
  | Connection c | Message c _ | Close c | Error c => Nat.eqb c ws
  | Watch _ => false
  end.

(** The watcher's events among the inputs. *)
Definition notifications (moments : list Moment) : list WatcherEvent :=
  flat_map (fun m => match input m with Watch e => [e] | _ => [] end) moments.

(** [pre] ends where a path component starts: it is empty or ends with
    a separator. *)
Definition component_starts_after (pre : string) : Prop :=
  pre = "" \/ exists before c, pre = before +:+ String c "" /\ isSeparator c = true.

End HubRuns.

(* ===================================================================== *)
(** * Paths of workspace entries *)
(* ===================================================================== *)

Module PathShapes.

Fixpoint noSlash (s : string) : bool :=
  match s with
  | EmptyString => true
  | String c rest => negb (Ascii.eqb c "/"%char) && noSlash rest
  end.

(** The name of an entry: not empty, not [.] or [..], and without a
    slash. *)
Definition entryName (s : string) : bool :=
  negb (String.eqb s "") && negb (String.eqb s ".")
  && negb (String.eqb s "..") && noSlash s.

(** The absolute path with these components. *)
Definition absolute (names : list string) : string :=
  "/" +:+ String.concat "/" names.

End PathShapes.

(* ===================================================================== *)
(** * States of the client reconciler *)
(* ===================================================================== *)

Module ContextShapes.
Import FileContext.

(** The open files are distinct and the active file is one of them. *)
Definition tidy (s : State) : Prop :=
  NoDup (openFiles s) /\ active_is_open s.

(** A server that rejects every request. *)
Definition refusing (error : string) : Server :=
  {| tree_response := inl error;
     read_response := fun _ => inl error;
     update_response := fun _ => inl error |}.

End ContextShapes.

(* ===================================================================== *)
(** * The AI routes ([routes/ai.js]) *)
(* ===================================================================== *)

Module AiRoutes.
Import Hub.

(** [context || {}]. *)
Definition orEmptyObject (v : option Json) : option Json :=
  if truthy v then v else Some (JObject []).

(** The calls a route makes on the model's client; an argument left
    out of the body is [undefined]. *)
Inductive ClientCall :=
| Chat (messages systemPrompt : option Json)
| DeepThink (prompt context : option Json)
| GenerateWithTests (prompt context : option Json)
| AgenticWorkflow (task fileSystem : option Json)
| ReviewCode (code language context : option Json).

(** The body of an answer: an error, or the client's response with the
    route's tag ([model] for the chat route, [mode] for the others) and
    the time of the answer. *)
Inductive Body :=
| BError (error : string)
| BResponse (response : Json) (tag : string) (timestamp : string).

Record Response := { status : nat; body : Body }.

Section Routes.

(** [geminiClient]: what each call settles to, and its [model] name. *)
Variable client : ClientCall -> string + Json.
Variable clientModel : string.

(** [new Date().toISOString()] when the answer is written. *)
Variable timestamp : string.

(** The call of a route that passed its check, inside the route's
    [try]: a rejection is answered with 500 and the error's message. *)
Definition answer (call : ClientCall) (tag : string)
  : list ClientCall * Response :=
  match client call with
  | inr response =>
      ([call], {| status := 200; body := BResponse response tag timestamp |})
  | inl error => ([call], {| status := 500; body := BError error |})
  end.

Definition bad_request (error : string) : list ClientCall * Response :=
  ([], {| status := 400; body := BError error |}).

(** [router.post('/chat')], on the fields of [req.body]. *)
Definition chat (reqBody : list (string * Json)) : list ClientCall * Response :=
  let messages := field "messages" reqBody in
  let systemPrompt := field "systemPrompt" reqBody in
  if negb (truthy messages) || negb (isArray messages) then
    bad_request "Messages array is required"
  else answer (Chat messages systemPrompt) clientModel.

(** [router.post('/deep-think')]. *)
Definition deepThink (reqBody : list (string * Json)) : list ClientCall * Response :=
  let prompt := field "prompt" reqBody in
  let context := field "context" reqBody in
  if negb (truthy prompt) then bad_request "Prompt is required"
  else answer (DeepThink prompt (orEmptyObject context)) "deep-thinking".

(** [router.post('/tdd')]. *)
Definition tdd (reqBody : list (string * Json)) : list ClientCall * Response :=
  let prompt := field "prompt" reqBody in
  let context := field "context" reqBody in
  if negb (truthy prompt) then bad_request "Prompt is required"
  else answer (GenerateWithTests prompt (orEmptyObject context)) "tdd".

(** [router.post('/agent')]. *)
Definition agent (reqBody : list (string * Json)) : list ClientCall * Response :=
  let task := field "task" reqBody in
  let fileSystem := field "fileSystem" reqBody in
  if negb (truthy task) then bad_request "Task is required"
  else answer (AgenticWorkflow task (orEmptyObject fileSystem)) "agentic".

(** [router.post('/review')]. *)
Definition review (reqBody : list (string * Json)) : list ClientCall * Response :=
  let code := field "code" reqBody in
  let language := field "language" reqBody in
  let context := field "context" reqBody in
  if negb (truthy code) || negb (truthy language) then
    bad_request "Code and language are required"
  else answer (ReviewCode code language (orEmptyObject context)) "review".

(** What every route comes to: it turned the request away without a
    call, or made one call and answered by what the call settled to. *)
Definition settled_by_one_call (out : list ClientCall * Response) : Prop :=
  (status out.2 = 400 /\ out.1 = [])
  \/ exists call, out.1 = [call] /\
       match client call with
       | inr response =>
           exists tag, out.2 = {| status := 200;
                                  body := BResponse response tag timestamp |}
       | inl error => out.2 = {| status := 500; body := BError error |}
       end.

End Routes.

(** ** The stream route's frames *)

(** The line feed. *)
Definition LF : string := String "010"%char "".

(** One [res.write] of [router.post('/stream')] for a chunk; [encode]
    is [JSON.stringify] of the object holding the chunk. *)
Definition chunkFrame (encode : string -> string) (chunk : string) : string :=
  "data: " +:+ encode chunk +:+ LF +:+ LF.

(** The last [res.write]. *)
Definition doneFrame : string := "data: [DONE]" +:+ LF +:+ LF.

(** All the writes of a stream over the chunks the client yields. *)
Definition streamWrites (encode : string -> string) (chunks : list string)
  : list string :=
  (List.map (chunkFrame encode) chunks ++ [doneFrame])%list.

End AiRoutes.

(* ===================================================================== *)
(** * The model's client: JSON in a reply ([gemini/client.js]) *)
(* ===================================================================== *)

Module Gemini.
Import Hub.

(** [s] holds the character [c]. *)
Fixpoint contains (c : ascii) (s : string) : bool :=
  match s with
  | EmptyString => false
  | String d rest => Ascii.eqb d c || contains c rest
  end.

(** The longest prefix of [s] that ends with [c]: what a greedy
    [[\s\S]*] followed by [c] matches at the start of [s]. *)
Fixpoint upToLast (c : ascii) (s : string) : option string :=
  match s with
  | EmptyString => None
  | String d rest =>
      match upToLast c rest with
      | Some m => Some (String d m)
      | None => if Ascii.eqb d c then Some (String d EmptyString) else None
      end
  end.

(** [text.match(/\{[\s\S]*\}/)]: the match, from the first opening brace
    to the last closing brace after it, or no match. *)
Fixpoint jsonMatch (text : string) : option string :=
  match text with
  | EmptyString => None
  | String d rest =>
      if Ascii.eqb d "{"%char then
        match upToLast "}"%char rest with
        | Some m => Some (String d m)
        | None => None
        end
      else jsonMatch rest
  end.

(** What [agenticWorkflow] and [reviewCode] return for a reply: the
    parsed object, or [{ raw: text }]. *)
Inductive Extracted :=
| Parsed (value : Json)
| Raw (text : string).

(** The end of [agenticWorkflow] and of [reviewCode]: parse the match;
    a failed parse is logged and the text returned raw. *)
Definition extractJson (JSON_parse : string -> option Json) (text : string)
  : Extracted :=
  match jsonMatch text with
  | Some m =>
      match JSON_parse m with
      | Some value => Parsed value
      | None => Raw text
      end
  | None => Raw text
  end.

End Gemini.

(* ===================================================================== *)
(** * The assistant's context ([context/AIContext.jsx]) *)
(* ===================================================================== *)

Module AIContext.
Import Hub.

(** A message of the conversation; [mode] and [model] are the keys some
    messages carry. *)
Record Message := {
  role : string;
  content : Json;
  timestamp : Z;
  messageMode : option string;
  model : option Json
}.

(** The state hooks of [AIProvider]. *)
Record State := {
  messages : list Message;
  loading : bool;
  mode : string;
  streamingMessage : string
}.

Definition setMessages (f : list Message -> list Message) (s : State) : State :=
  {| messages := f (messages s); loading := loading s; mode := mode s;
     streamingMessage := streamingMessage s |}.

Definition setLoading (v : bool) (s : State) : State :=
  {| messages := messages s; loading := v; mode := mode s;
     streamingMessage := streamingMessage s |}.

Definition setStreamingMessage (v : string) (s : State) : State :=
  {| messages := messages s; loading := loading s; mode := mode s;
     streamingMessage := v |}.

(** The requests of the provider. *)
Inductive Request :=
| PostChat (messages : list (string * Json)) (systemPrompt : string)
| PostDeepThink (prompt : string) (context : Json)
| PostTdd (prompt : string) (context : Json)
| PostAgent (task : string) (fileSystem : Json)
| PostReview (code language : string) (context : Json)
| FetchStream (prompt : string) (context : Json).

(** [response.data] of an answered request. *)
Record Reply := { response : Json; replyModel : option Json }.

Record Server := {
  respond : Request -> string + Reply;
  stream : Request -> string + list string
}.

(** What a function of the provider leaves: the state, the requests
    sent, and the message it resolved to or the error it threw. *)
Definition Outcome : Type := State * list Request * (string + Message).

(** ** Reading a stream *)

(** [chunk.split('\n')]. *)
Fixpoint splitLines (s : string) : list string :=
  match s with
  | EmptyString => [EmptyString]
  | String c rest =>
      if Ascii.eqb c "010"%char then EmptyString :: splitLines rest
      else match splitLines rest with
           | [] => [String c EmptyString]
           | line :: lines => String c line :: lines
           end
  end.

(** [line.slice(6)]. *)
Definition slice6 (line : string) : string :=
  String.substring 6 (String.length line - 6) line.

Section Reading.

(** [JSON.parse(data).chunk]; [None] when the parse or the read of
    [chunk] throws. *)
Variable decode : string -> option string.

(** The loop over the lines of one read: [fullMessage] so far and the
    calls of [onChunk], up to the end of the lines or to the [break]
    at [[DONE]]. *)
Fixpoint readLines (lines : list string) (fullMessage : string)
    (called : list string) : string * list string :=
  match lines with
  | [] => (fullMessage, called)
  | line :: rest =>
      if JS.startsWith line "data: " then
        let data := slice6 line in
        if String.eqb data "[DONE]" then (fullMessage, called)
        else match decode data with
             | Some chunk =>
                 readLines rest (fullMessage +:+ chunk) (called ++ [chunk])%list
             | None => readLines rest fullMessage called
             end
      else readLines rest fullMessage called
  end.

(** The loop over the reads, until the reader is done. *)
Fixpoint readAll (reads : list string) (fullMessage : string)
    (called : list string) : string * list string :=
  match reads with
  | [] => (fullMessage, called)
  | value :: rest =>
      let '(fullMessage', called') :=
        readLines (splitLines value) fullMessage called in
      readAll rest fullMessage' called'
  end.

End Reading.

Section Provider.

Variable server : Server.

(** [JSON.stringify]. *)
Variable stringify : Json -> string.
Variable decode : string -> option string.

(** [chat], created in the render [render] and called at [now] with
    the answer arriving at [later]: the two [setMessages] are given
    lists built from the render's [messages]. *)
Definition chat (render : State) (userMessage : string) (context : Json)
    (now later : Z) (s : State) : Outcome :=
  let s := setLoading true s in
  let newMessages :=
    (messages render ++ [ {| role := "user"; content := JString userMessage;
                             timestamp := now; messageMode := None;
                             model := None |} ])%list in
  let s := setMessages (fun _ => newMessages) s in
  let request :=
    PostChat (List.map (fun m => (role m, content m)) newMessages)
      ("You are an expert coding assistant. Context: " +:+ stringify context) in
  match respond server request with
  | inr reply =>
      let aiMessage := {| role := "assistant"; content := response reply;
                          timestamp := later; messageMode := None;
                          model := replyModel reply |} in
      let s := setMessages (fun _ => (newMessages ++ [aiMessage])%list) s in
      (setLoading false s, [request], inr aiMessage)
  | inl error => (setLoading false s, [request], inl error)
  end.

(** The common course of [deepThink], [generateWithTests], [runAgent]
    and [reviewCode]: the user's message and the answer are appended
    through updaters. *)
Definition exchange (tag userContent : string) (request : Request)
    (now later : Z) (s : State) : Outcome :=
  let s := setLoading true s in
  let userMessage := {| role := "user"; content := JString userContent;
                        timestamp := now; messageMode := Some tag;
                        model := None |} in
  let s := setMessages (fun prev => (prev ++ [userMessage])%list) s in
  match respond server request with
  | inr reply =>
      let aiMessage := {| role := "assistant"; content := response reply;
                          timestamp := later; messageMode := Some tag;
                          model := None |} in
      let s := setMessages (fun prev => (prev ++ [aiMessage])%list) s in
      (setLoading false s, [request], inr aiMessage)
  | inl error => (setLoading false s, [request], inl error)
  end.

Definition deepThink (prompt : string) (context : Json) :=
  exchange "deep-think" prompt (PostDeepThink prompt context).

Definition generateWithTests (prompt : string) (context : Json) :=
  exchange "tdd" prompt (PostTdd prompt context).

Definition runAgent (task : string) (fileSystem : Json) :=
  exchange "agent" task (PostAgent task fileSystem).

Definition reviewCode (code language : string) (context : Json) :=
  exchange "review" ("Review this " +:+ language +:+ " code")
    (PostReview code language context).

(** [streamChat]: the calls of [onChunk] come with the outcome. *)
Definition streamChat (prompt : string) (context : Json) (now later : Z)
    (s : State) : Outcome * list string :=
  let s := setStreamingMessage "" (setLoading true s) in
  let userMessage := {| role := "user"; content := JString prompt;
                        timestamp := now; messageMode := None; model := None |} in
  let s := setMessages (fun prev => (prev ++ [userMessage])%list) s in
  let request := FetchStream prompt context in
  match stream server request with
  | inr reads =>
      let '(fullMessage, called) := readAll decode reads "" [] in
      let aiMessage := {| role := "assistant"; content := JString fullMessage;
                          timestamp := later; messageMode := None;
                          model := None |} in
      let s := setMessages (fun prev => (prev ++ [aiMessage])%list) s in
      let s := setStreamingMessage "" s in
      ((setLoading false s, [request], inr aiMessage), called)
  | inl error => ((setLoading false s, [request], inl error), [])
  end.

Definition clearMessages (s : State) : State :=
  setStreamingMessage "" (setMessages (fun _ => []) s).

End Provider.

End AIContext.


(* ===================================================================== *)
(** * Shapes of a stream, for the statements *)
(* ===================================================================== *)

Module StreamShapes.
Import Hub AiRoutes.

(** Strings written one after the other, as one read delivers them. *)
Definition joined (parts : list string) : string :=
  fold_right String.append "" parts.

(** A chunk the frames can carry: its encoding decodes back to it,
    holds no line feed, and is not the end mark. *)
Definition carried (encode : string -> string) (decode : string -> option string)
    (chunk : string) : Prop :=
  decode (encode chunk) = Some chunk
  /\ Gemini.contains "010"%char (encode chunk) = false
  /\ encode chunk <> "[DONE]".

(** The message a provider's function appends for the user. *)
Definition userMessage (content : string) (now : Z) (tag : option string)
  : AIContext.Message :=
  {| AIContext.role := "user"; AIContext.content := JString content;
     AIContext.timestamp := now; AIContext.messageMode := tag;
     AIContext.model := None |}.

(** The message it appends for an answer. *)
Definition aiMessage (content : Json) (later : Z) (tag : option string)
    (model : option Json) : AIContext.Message :=
  {| AIContext.role := "assistant"; AIContext.content := content;
     AIContext.timestamp := later; AIContext.messageMode := tag;
     AIContext.model := model |}.

(** An encoding for the examples: the chunk between braces. *)
Definition braced (chunk : string) : string := "{" +:+ chunk +:+ "}".

(** Its decoding: what stands between the braces. *)
Definition unbraced (data : string) : option string :=
  match data with
  | String "{" rest =>
      match Gemini.upToLast "}"%char rest with
      | Some m =>
          if String.eqb m rest
          then Some (String.substring 0 (String.length rest - 1) rest)
          else None
      | None => None
      end
  | _ => None
  end.

End StreamShapes.
(* ===================================================================== *)
(** * Properties *)
(* ===================================================================== *)

(** ** Paths *)

Example join_plain :
  Path.join ["/app/workspace"; "src/app.js"] = "/app/workspace/src/app.js".
Proof. reflexivity. Qed.

Example join_dotdot :
  Path.join ["/app/workspace"; "../outside.txt"] = "/app/outside.txt".
Proof. reflexivity. Qed.

Example join_above_root :
  Path.join ["/app/workspace"; "../../../../etc/passwd"] = "/etc/passwd".
Proof. reflexivity. Qed.

Example join_trailing :
  Path.join ["/app/workspace"; "src/./lib//"] = "/app/workspace/src/lib/".
Proof. reflexivity. Qed.

Example join_relative_base :
  Path.join [""; "README.md"] = "README.md" /\
  Path.join ["src"; "app.js"] = "src/app.js".
Proof. split; reflexivity. Qed.

Example relative_inside :
  Path.relative "/app/workspace" "/app/workspace/src/app.js" = "src/app.js".
Proof. reflexivity. Qed.

Example inside_examples :
  Path.inside "/app/workspace" "/app/workspace" = true /\
  Path.inside "/app/workspace" "/app/workspace/src/app.js" = true /\
  Path.inside "/app/workspace" "/app/outside.txt" = false /\
  Path.inside "/app/workspace" "/app/workspace-evil/secret.txt" = false.
Proof. repeat split; reflexivity. Qed.

(** ** The containment check of the file routes *)

Module FileRoutesFacts.
Import JSON FileRoutes.

Section Guard.

Variable WORKSPACE_DIR : string.

(** A request turned away answers without a storage call, whatever
    the storage holds. *)
Lemma respond_makes_no_call (fs : Fs) (r : Response) :
  run fs (Respond r) = ([], r).
Proof. reflexivity. Qed.

Lemma truthy_string (s : string) : s <> "" -> truthy (Some (JString s)) = true.
Proof. intros Hne. simpl. now destruct (String.eqb_spec s ""). Qed.

(** When the joined path does not start with the workspace
    directory's string, [read] denies access at once. *)
Lemma read_guard (filePath : string) :
  filePath <> "" ->
  JS.startsWith (Path.join [WORKSPACE_DIR; filePath]) WORKSPACE_DIR = false ->
  read WORKSPACE_DIR (Some (JString filePath)) = Respond access_denied.
Proof.
  intros Hne Hout. unfold read. rewrite (truthy_string _ Hne). simpl.
  now rewrite Hout.
Qed.

Lemma write_guard (filePath : string) (content : Json) :
  filePath <> "" ->
  JS.startsWith (Path.join [WORKSPACE_DIR; filePath]) WORKSPACE_DIR = false ->
  write WORKSPACE_DIR (Some (JString filePath)) (Some content)
  = Respond access_denied.
Proof.
  intros Hne Hout. unfold write. rewrite (truthy_string _ Hne). simpl.
  now rewrite Hout.
Qed.

Lemma create_guard (filePath : string) (type : Json) (content : option Json) :
  filePath <> "" -> truthy (Some type) = true ->
  JS.startsWith (Path.join [WORKSPACE_DIR; filePath]) WORKSPACE_DIR = false ->
  create WORKSPACE_DIR (Some (JString filePath)) (Some type) content
  = Respond access_denied.
Proof.
  intros Hne Hty Hout. unfold create. rewrite (truthy_string _ Hne), Hty. simpl.
  now rewrite Hout.
Qed.

Lemma delete_guard (filePath : string) :
  filePath <> "" ->
  JS.startsWith (Path.join [WORKSPACE_DIR; filePath]) WORKSPACE_DIR = false ->
  delete WORKSPACE_DIR (Some (JString filePath)) = Respond access_denied.
Proof.
  intros Hne Hout. unfold delete. rewrite (truthy_string _ Hne). simpl.
  now rewrite Hout.
Qed.

Lemma rename_guard (oldPath newPath : string) :
  oldPath <> "" -> newPath <> "" ->
  JS.startsWith (Path.join [WORKSPACE_DIR; oldPath]) WORKSPACE_DIR = false
  \/ JS.startsWith (Path.join [WORKSPACE_DIR; newPath]) WORKSPACE_DIR = false ->
  rename WORKSPACE_DIR (Some (JString oldPath)) (Some (JString newPath))
  = Respond access_denied.
Proof.
  intros Hold Hnew Hout. unfold rename.
  rewrite (truthy_string _ Hold), (truthy_string _ Hnew). simpl.
  destruct Hout as [-> | ->]; simpl; [reflexivity|].
  now rewrite orb_true_r.
Qed.

(** The check stands before every storage call: a handler whose
    first step is a storage call was given a path that passed it. *)
Lemma read_call_passed_guard (q : option Json) (c : FsCall) :
  first_call (read WORKSPACE_DIR q) = Some c ->
  exists filePath, q = Some (JString filePath) /\
    JS.startsWith (Path.join [WORKSPACE_DIR; filePath]) WORKSPACE_DIR = true.
Proof.
  unfold read, try_join. destruct (negb (truthy q)); [discriminate|].
  destruct q as [[| | |filePath| |]|]; try discriminate.
  destruct (JS.startsWith _ _) eqn:Hin; [|discriminate].
  intros _. now exists filePath.
Qed.

Lemma rename_call_passed_guard (o n : option Json) (c : FsCall) :
  first_call (rename WORKSPACE_DIR o n) = Some c ->
  exists oldPath newPath, o = Some (JString oldPath) /\ n = Some (JString newPath) /\
    JS.startsWith (Path.join [WORKSPACE_DIR; oldPath]) WORKSPACE_DIR = true /\
    JS.startsWith (Path.join [WORKSPACE_DIR; newPath]) WORKSPACE_DIR = true.
Proof.
  unfold rename, try_join. destruct (_ || _); [discriminate|].
  destruct o as [[| | |oldPath| |]|]; try discriminate.
  destruct n as [[| | |newPath| |]|]; try discriminate.
  destruct (JS.startsWith (Path.join [WORKSPACE_DIR; oldPath]) _) eqn:Ho;
    [|discriminate].
  destruct (JS.startsWith (Path.join [WORKSPACE_DIR; newPath]) _) eqn:Hn;
    [|discriminate].
  intros _. now exists oldPath, newPath.
Qed.

End Guard.

(** C1, at a failing input.  With the workspace at [/app/workspace],
    the path [../workspace-evil/secret.txt] resolves to a file outside
    of the workspace whose full path still starts with the workspace
    directory's string: [read] does not deny access, it reads the file
    from storage and answers 200 with its content; [rename] likewise
    moves a workspace file out to such a path, and [write] creates the
    directory and the file there.  A path that leaves the workspace
    without sharing that prefix is denied before any call. *)
Theorem sibling_prefix_escapes_containment :
  let WORKSPACE_DIR := "/app/workspace" in
  let filePath := "../workspace-evil/secret.txt" in
  let fullPath := Path.join [WORKSPACE_DIR; filePath] in
  fullPath = "/app/workspace-evil/secret.txt" /\
  Path.inside WORKSPACE_DIR fullPath = false /\
  first_call (read WORKSPACE_DIR (Some (JString filePath)))
    = Some (CReadFile fullPath) /\
  run neighbour (read WORKSPACE_DIR (Some (JString filePath)))
    = ([CReadFile fullPath; CStat fullPath],
       ok (BRead "s3cret" filePath 6 1700000000)) /\
  run neighbour (rename WORKSPACE_DIR (Some (JString "notes.txt"))
                   (Some (JString filePath)))
    = ([CRename "/app/workspace/notes.txt" fullPath],
       ok (BRenamed "notes.txt" filePath)) /\
  run neighbour (write WORKSPACE_DIR (Some (JString filePath))
                   (Some (JString "mine")))
    = ([CMkdir "/app/workspace-evil"; CWriteFile fullPath (JString "mine")],
       ok (BSaved filePath)) /\
  run neighbour (read WORKSPACE_DIR (Some (JString "../outside.txt")))
    = ([], access_denied).
Proof. repeat split; reflexivity. Qed.

End FileRoutesFacts.

(** ** The tree listing *)

Module FileTreeFacts.
Import FileTree.

Section Sorting.

Variable localeCompare : string -> string -> Z.

Lemma insert_Forall (P : WorkspaceEntry -> Prop) x l :
  P x -> Forall P l -> Forall P (insert localeCompare x l).
Proof.
  intros Hx Hl. induction Hl as [|y l Hy Hl IH]; simpl.
  - now constructor.
  - destruct (_ <=? _)%Z; repeat constructor; assumption.
Qed.

Lemma sort_Forall (P : WorkspaceEntry -> Prop) l :
  Forall P l -> Forall P (sort localeCompare l).
Proof.
  induction 1 as [|x l Hx Hl IH]; simpl; [constructor|].
  now apply insert_Forall.
Qed.

Lemma insert_Permutation x l : Permutation (insert localeCompare x l) (x :: l).
Proof.
  induction l as [|y l IH]; simpl; [reflexivity|].
  destruct (_ <=? _)%Z; [reflexivity|].
  rewrite IH. apply perm_swap.
Qed.

(** Sorting loses and adds no entry. *)
Lemma sort_Permutation l : Permutation (sort localeCompare l) l.
Proof.
  induction l as [|x l IH]; simpl; [reflexivity|].
  rewrite insert_Permutation. now constructor.
Qed.

(** The children of a listed directory are the listing of that
    directory: what holds of [buildFileTree] holds at every level. *)
Lemma children_buildEntry basePath item items :
  children (buildEntry localeCompare basePath item (DirNode items))
  = buildFileTree localeCompare items (Path.join [basePath; item]).
Proof. reflexivity. Qed.

Lemma name_buildEntry basePath item stats :
  name (buildEntry localeCompare basePath item stats) = item.
Proof. now destruct stats. Qed.

Lemma type_buildEntry basePath item stats :
  type (buildEntry localeCompare basePath item stats)
  = match stats with DirNode _ => directory | FileNode _ _ => file end.
Proof. now destruct stats. Qed.

(** No item is filtered out: each one has its entry in the listing. *)
Lemma item_listed items basePath item stats :
  In (item, stats) items ->
  In (buildEntry localeCompare basePath item stats)
     (buildFileTree localeCompare items basePath).
Proof.
  intros Hin. unfold buildFileTree.
  eapply Permutation_in; [symmetry; apply sort_Permutation|].
  apply in_map_iff. now exists (item, stats).
Qed.

(** The comparator says "not after" exactly when [before] holds. *)
Lemma compareEntries_before a b :
  (compareEntries localeCompare a b <= 0)%Z <-> before localeCompare a b.
Proof.
  unfold compareEntries, before.
  destruct (type a), (type b); repeat case_decide; try congruence; lia.
Qed.

Hypothesis localeCompare_total :
  forall a b, (localeCompare a b <= 0)%Z \/ (localeCompare b a <= 0)%Z.
Hypothesis localeCompare_trans :
  forall a b c, (localeCompare a b <= 0)%Z -> (localeCompare b c <= 0)%Z ->
                (localeCompare a c <= 0)%Z.

Lemma before_total a b : before localeCompare a b \/ before localeCompare b a.
Proof.
  unfold before. destruct (type a), (type b); auto.
Qed.

Lemma before_trans a b c :
  before localeCompare a b -> before localeCompare b c -> before localeCompare a c.
Proof.
  unfold before. destruct (type a), (type b), (type c); eauto; tauto.
Qed.

Lemma insert_sorted x l :
  StronglySorted (before localeCompare) l ->
  StronglySorted (before localeCompare) (insert localeCompare x l).
Proof.
  induction 1 as [|y l Hsorted IH Hy]; simpl.
  - repeat constructor.
  - destruct (Z.leb_spec (compareEntries localeCompare x y) 0) as [Hle|Hgt].
    + apply compareEntries_before in Hle.
      constructor; [now constructor|].
      constructor; [assumption|].
      eapply Forall_impl; [exact Hy|].
      intros z Hz. now apply before_trans with y.
    + constructor; [assumption|].
      apply insert_Forall; [|assumption].
      destruct (before_total y x) as [Hyx|Hxy]; [assumption|].
      apply compareEntries_before in Hxy. lia.
Qed.

Lemma sort_sorted l : StronglySorted (before localeCompare) (sort localeCompare l).
Proof.
  induction l as [|x l IH]; simpl; [constructor|]. now apply insert_sorted.
Qed.

Lemma buildEntry_ordered stats :
  forall basePath item,
    ordered localeCompare (children (buildEntry localeCompare basePath item stats)).
Proof.
  induction stats as [size mtime|items IH] using Node_ind'; intros basePath item.
  - simpl. constructor; constructor.
  - simpl. constructor; [apply sort_sorted|].
    apply sort_Forall, List.Forall_forall. intros e He.
    apply in_map_iff in He as [i [<- Hi]].
    rewrite List.Forall_forall in IH. now apply IH.
Qed.

(** In an ordered list no file stands before a directory, and two
    entries of one type stand in the order of their names. *)
Lemma sorted_positions l i j a b :
  StronglySorted (before localeCompare) l ->
  i < j -> l !! i = Some a -> l !! j = Some b ->
  (type b = directory -> type a = directory) /\
  (type a = type b -> (localeCompare (name a) (name b) <= 0)%Z).
Proof.
  intros Hsorted. revert i j.
  induction Hsorted as [|x l Hs IH Hx]; intros i j Hij Hi Hj; [discriminate|].
  destruct j as [|j]; [lia|]. simpl in Hj.
  destruct i as [|i]; simpl in Hi.
  - injection Hi as ->. rewrite Forall_forall in Hx.
    assert (Hab : before localeCompare a b).
    { apply Hx. now apply list_elem_of_lookup_2 with j. }
    unfold before in Hab. destruct (type a), (type b); try tauto; split; congruence.
  - apply (IH i j); [lia|assumption..].
Qed.

(** C5, amended.  Listing the workspace leaves the storage as it was,
    so a second listing of the unchanged storage returns the same tree
    in the same order; and the tree is ordered at every level:
    directories before files and, within one type, by name in the
    order of the host's [localeCompare], whatever total and transitive
    comparison the host provides. *)
Theorem tree_listing_is_pure_and_ordered (workspace : list (string * Node)) :
  let first := tree localeCompare workspace in
  let second := tree localeCompare first.2 in
  first.2 = workspace /\
  second = first /\
  ordered localeCompare first.1 /\
  (forall i j a b, i < j -> first.1 !! i = Some a -> first.1 !! j = Some b ->
     (type b = directory -> type a = directory) /\
     (type a = type b -> (localeCompare (name a) (name b) <= 0)%Z)).
Proof.
  simpl. split; [reflexivity|]. split; [reflexivity|]. split.
  - constructor; [apply sort_sorted|].
    apply sort_Forall, List.Forall_forall. intros e He.
    apply in_map_iff in He as [i [<- Hi]]. apply buildEntry_ordered.
  - intros i j a b Hij Hi Hj.
    eapply sorted_positions; eauto. apply sort_sorted.
Qed.

End Sorting.

(** *** The code-unit comparison is a total order *)

Lemma codeUnitCompare_total a b :
  (codeUnitCompare a b <= 0)%Z \/ (codeUnitCompare b a <= 0)%Z.
Proof.
  unfold codeUnitCompare. rewrite (String.compare_antisym a b).
  destruct (String.compare b a); simpl; lia.
Qed.

Lemma codeUnitCompare_le a b :
  (codeUnitCompare a b <= 0)%Z <-> a = b \/ OrderedTypeEx.String_as_OT.lt a b.
Proof.
  unfold codeUnitCompare.
  pose proof (OrderedTypeEx.String_as_OT.cmp_eq a b) as Heq.
  pose proof (OrderedTypeEx.String_as_OT.cmp_lt a b) as Hlt.
  unfold OrderedTypeEx.String_as_OT.cmp in Heq, Hlt.
  destruct (String.compare a b); split; try lia; intros H.
  - left. now apply Heq.
  - right. now apply Hlt.
  - destruct H as [H|H]; [apply Heq in H|apply Hlt in H]; discriminate.
Qed.

Lemma codeUnitCompare_trans a b c :
  (codeUnitCompare a b <= 0)%Z -> (codeUnitCompare b c <= 0)%Z ->
  (codeUnitCompare a c <= 0)%Z.
Proof.
  rewrite !codeUnitCompare_le. intros [->|Hab] [->|Hbc]; auto.
  right. now apply OrderedTypeEx.String_as_OT.lt_trans with b.
Qed.

Example sample_listing :
  buildFileTree codeUnitCompare sampleWorkspace ""
  = [ DirEntry "docs" "docs" [];
      DirEntry "src" "src"
        [ DirEntry "components" "src/components"
            [ FileEntry "Editor.jsx" "src/components/Editor.jsx" 2048 1700000100 ];
          FileEntry "App.jsx" "src/App.jsx" 1500 1700000150;
          FileEntry "index.js" "src/index.js" 90 1700000200 ];
      FileEntry ".env" ".env" 12 1700000000;
      FileEntry "README.md" "README.md" 800 1700000250;
      FileEntry "package.json" "package.json" 420 1700000300 ].
Proof. reflexivity. Qed.

(** *** The host's collation is a total preorder *)

Lemma localeCompare_total a b :
  (Collation.localeCompare a b <= 0)%Z \/ (Collation.localeCompare b a <= 0)%Z.
Proof. apply codeUnitCompare_total. Qed.

Lemma localeCompare_trans a b c :
  (Collation.localeCompare a b <= 0)%Z -> (Collation.localeCompare b c <= 0)%Z ->
  (Collation.localeCompare a c <= 0)%Z.
Proof. apply codeUnitCompare_trans. Qed.

(** C5, as stated, fails.  Under the host's comparison the listing of
    the sample workspace has [package.json] before [README.md]: the
    letters [p] and [r] are compared without regard to case.  In the
    case-sensitive comparison of the claim, code unit by code unit,
    [README.md] comes first, as in the listing a host with that
    comparison would give. *)
Lemma listing_is_not_in_code_unit_order :
  let listing := buildFileTree Collation.localeCompare sampleWorkspace "" in
  List.map name listing = ["docs"; "src"; ".env"; "package.json"; "README.md"]
  /\ listing !! 3 = Some (FileEntry "package.json" "package.json" 420 1700000300)
  /\ listing !! 4 = Some (FileEntry "README.md" "README.md" 800 1700000250)
  /\ (codeUnitCompare "package.json" "README.md" > 0)%Z
  /\ List.map name (buildFileTree codeUnitCompare sampleWorkspace "")
     = ["docs"; "src"; ".env"; "README.md"; "package.json"].
Proof. repeat split. Qed.

Lemma tree_listing_witness :
  let first := tree Collation.localeCompare sampleWorkspace in
  let second := tree Collation.localeCompare first.2 in
  first.2 = sampleWorkspace /\
  second = first /\
  ordered Collation.localeCompare first.1 /\
  (forall i j a b, i < j -> first.1 !! i = Some a -> first.1 !! j = Some b ->
     (type b = directory -> type a = directory) /\
     (type a = type b -> (Collation.localeCompare (name a) (name b) <= 0)%Z)).
Proof.
  exact (tree_listing_is_pure_and_ordered Collation.localeCompare
           localeCompare_total localeCompare_trans sampleWorkspace).
Defined.

Example collation_of_names :
  (Collation.localeCompare "package.json" "README.md" < 0)%Z /\
  (Collation.localeCompare "readme.md" "README.md" < 0)%Z /\
  (Collation.localeCompare "a-b.js" "ab.js" < 0)%Z /\
  (Collation.localeCompare "file10" "file2" < 0)%Z /\
  (Collation.localeCompare ".env" "0.txt" < 0)%Z /\
  Collation.localeCompare "App.jsx" "App.jsx" = 0%Z.
Proof. repeat split. Qed.

End FileTreeFacts.

(** ** The watcher *)

Module WatcherFacts.
Import Hub HubRuns WatcherSpec.

Lemma watcher_cases (WORKSPACE_DIR : string) (f : Finding) :
  watcher WORKSPACE_DIR f
  = if reportable f then report WORKSPACE_DIR f else [].
Proof.
  unfold watcher, delivered, listened, reportable, report. simpl.
  destruct f as [e i]; simpl.
  destruct (dotfile (filePath e)); [reflexivity|].
  destruct i; [reflexivity|].
  destruct e; reflexivity.
Qed.

(** A path with a component that starts with a dot followed by a
    character other than a line terminator matches the ignore pattern. *)
Lemma dotfileFrom_component (dir rest : string) (boundary : bool) :
  matchesDot rest = true ->
  dotfileFrom boundary (dir +:+ "/" +:+ String "."%char rest) = true.
Proof.
  intros Hrest. revert boundary.
  induction dir as [|c dir IH]; intros boundary; simpl.
  - rewrite Hrest. now rewrite orb_true_r.
  - rewrite IH. now rewrite orb_true_r.
Qed.

Lemma dotfile_component (dir rest : string) :
  matchesDot rest = true -> dotfile (dir +:+ "/" +:+ String "."%char rest) = true.
Proof. apply dotfileFrom_component. Qed.

(** The pattern matches exactly the paths in which a dot at the start
    of a component is followed by a character that is not a line
    terminator. *)
Lemma dotfileFrom_iff (p : string) (boundary : bool) :
  dotfileFrom boundary p = true <->
  exists pre rest,
    p = pre +:+ String "."%char rest /\
    ((pre = "" /\ boundary = true) \/
     exists before c, pre = before +:+ String c "" /\ isSeparator c = true) /\
    matchesDot rest = true.
Proof.
  revert boundary. induction p as [|c p IH]; intros boundary; simpl.
  - split; [discriminate|]. intros [pre [rest [Heq _]]].
    destruct pre; discriminate.
  - rewrite orb_true_iff, !andb_true_iff, IH. split.
    + intros [[[Hb Hdot] Hrest]|[pre [rest [-> [Hstart Hrest]]]]].
      * apply Ascii.eqb_eq in Hdot as ->. exists "", p. auto.
      * exists (String c pre), rest. split; [reflexivity|]. split; [|assumption].
        right. destruct Hstart as [[-> Hsep]|[before [d [-> Hsep]]]].
        -- now exists "", c.
        -- now exists (String c before), d.
    + intros [pre [rest [Heq [Hstart Hrest]]]].
      destruct pre as [|d pre]; simpl in Heq; injection Heq as -> ->.
      * left. destruct Hstart as [[_ ->]|[before [d [Hbad _]]]].
        -- now rewrite Ascii.eqb_refl.
        -- destruct before; discriminate.
      * right. exists pre, rest. split; [reflexivity|]. split; [|assumption].
        destruct Hstart as [[Hbad _]|[before [e [Heq Hsep]]]]; [discriminate|].
        destruct before as [|b before]; simpl in Heq; injection Heq as -> ->.
        -- left. now split.
        -- right. now exists before, e.
Qed.

Lemma dotfile_at_component (pre rest : string) :
  component_starts_after pre -> matchesDot rest = true ->
  dotfile (pre +:+ String "."%char rest) = true.
Proof.
  intros Hstart Hrest. unfold dotfile. apply dotfileFrom_iff.
  exists pre, rest. split; [reflexivity|]. split; [|assumption].
  destruct Hstart as [->|H]; [left; now split|now right].
Qed.

Lemma hidden_not_watched (WORKSPACE_DIR pre rest : string) e i :
  component_starts_after pre -> matchesDot rest = true ->
  filePath e = pre +:+ String "."%char rest ->
  watcher WORKSPACE_DIR {| event := e; initial := i |} = [].
Proof.
  intros Hstart Hrest Hpath. rewrite watcher_cases. unfold reportable. simpl.
  now rewrite Hpath, dotfile_at_component.
Qed.


Example ignore_pattern :
  dotfile "/app/workspace/.env" = true /\
  dotfile "/app/workspace/.git/config" = true /\
  dotfile "/app/workspace/src/app.js" = false /\
  dotfile "/app/workspace/v1.2/notes.txt" = false.
Proof. repeat split; reflexivity. Qed.



Example watcher_run :
  flat_map (watcher "/app/workspace")
    [ {| event := add "/app/workspace/README.md"; initial := true |};
      {| event := add "/app/workspace/src/app.js"; initial := false |};
      {| event := changeOf "/app/workspace/.env"; initial := false |};
      {| event := changeOf "/app/workspace/src/app.js"; initial := false |};
      {| event := unlinkDir "/app/workspace/old"; initial := false |};
      {| event := unlink "/app/workspace/src/app.js"; initial := false |} ]
  = [ {| kind := added; path := "src/app.js" |};
      {| kind := changed; path := "src/app.js" |};
      {| kind := deleted; path := "src/app.js" |} ].
Proof. reflexivity. Qed.

End WatcherFacts.

(** ** The hub *)

Module HubFacts.
Import Hub.

Lemma strictEq_true (v : option Json) (s : string) :
  strictEq v s = true <-> v = Some (JString s).
Proof.
  unfold strictEq. destruct v as [[| | |t| |]|]; try (split; discriminate).
  rewrite String.eqb_eq. split; [now intros ->|now intros [= ->]].
Qed.

Lemma strictEq_false (v : option Json) (s : string) :
  v <> Some (JString s) -> strictEq v s = false.
Proof.
  intros Hne. destruct (strictEq v s) eqn:E; [|reflexivity].
  now apply strictEq_true in E.
Qed.

Lemma broadcast_open (readyState : nat -> nat) (clients : list nat) (data : Json) :
  broadcast readyState clients data
  = List.map (fun client => Send client data)
      (List.filter (fun client => Nat.eqb (readyState client) OPEN) clients).
Proof.
  unfold broadcast, OPEN. induction clients as [|c clients IH]; simpl; [reflexivity|].
  rewrite IH. now destruct (Nat.eqb (readyState c) 1).
Qed.

Lemma clients_delete_gone (ws : nat) (clients : list nat) :
  ~ In ws (clients_delete ws clients).
Proof.
  unfold clients_delete. rewrite filter_In. intros [_ H].
  now rewrite Nat.eqb_refl in H.
Qed.

Lemma clients_delete_other (ws c : nat) (clients : list nat) :
  c <> ws -> In c clients -> In c (clients_delete ws clients).
Proof.
  intros Hne Hin. unfold clients_delete. rewrite filter_In. split; [assumption|].
  now apply negb_true_iff, Nat.eqb_neq.
Qed.

Lemma broadcast_only_to_clients (readyState : nat -> nat) clients data ws message :
  In (Send ws message) (broadcast readyState clients data) -> In ws clients.
Proof.
  rewrite broadcast_open, in_map_iff. intros [c [[= -> _] Hc]].
  now apply filter_In in Hc.
Qed.

(** C3, as stated, fails: a registered session whose socket is closing
    takes no delivery of a broadcast, the open session next to it gets
    its copy, and after the broadcast the closing session is still in
    the registry; [broadcast] removes nothing. *)
Lemma closing_session_stays_registered :
  let readyState := fun ws => if Nat.eqb ws 1 then CLOSING else OPEN in
  let e := changeOf "/app/workspace/src/app.js" in
  let result := step "/app/workspace" (fun _ => None) 0 readyState [1; 2] (Watch e) in
  readyState 1 <> OPEN /\
  result.2 = [Send 2 (eventData {| kind := changed; path := "src/app.js" |})] /\
  In 1 result.1.
Proof.
  simpl. split; [discriminate|]. split; [reflexivity|]. now left.
Qed.

(** C3, amended.  A broadcast is sent once to every registered session
    whose socket is open, whatever the state of the others, and to no
    session that is not open; it leaves the registry as it was.  A
    session leaves the registry when its socket's close or error event
    is handled, the other sessions stay, and no later broadcast is
    sent to it. *)
Theorem broadcast_reaches_open_sessions (WORKSPACE_DIR : string)
    (JSON_parse : string -> option Json) (now : Z) (readyState : nat -> nat)
    (clients : list nat) (data : Json) :
  broadcast readyState clients data
    = List.map (fun client => Send client data)
        (List.filter (fun client => Nat.eqb (readyState client) OPEN) clients)
  /\ (forall e,
        (step WORKSPACE_DIR JSON_parse now readyState clients (Watch e)).1 = clients)
  /\ (forall ws i, i = Close ws \/ i = Error ws ->
        let clients' := (step WORKSPACE_DIR JSON_parse now readyState clients i).1 in
        ~ In ws clients'
        /\ (forall c, c <> ws -> In c clients -> In c clients')
        /\ (forall readyState' data' message,
              ~ In (Send ws message) (broadcast readyState' clients' data'))).
Proof.
  split; [apply broadcast_open|]. split; [reflexivity|].
  intros ws i [-> | ->]; simpl; (split; [apply clients_delete_gone|]);
    (split; [intros c; apply clients_delete_other|]);
    intros rs' data' message Hsend;
    apply broadcast_only_to_clients in Hsend;
    now apply clients_delete_gone in Hsend.
Qed.

Section Inbound.

Variable WORKSPACE_DIR : string.
Variable JSON_parse : string -> option Json.
Variable now : Z.
Variable readyState : nat -> nat.

(** C9.  A message of type [ping] is answered by exactly one [pong]
    with the server's timestamp; a message of type [subscribe] by
    exactly one [subscribed] that carries the message's channel under
    the key [channel], and no such key when the message has no
    channel; a message of any other type is logged and not answered; a
    message that does not parse, or that parses to [null], is caught
    and logged.  In every case the registry is as before: the session
    stays, and the hub goes on to its next input. *)
Theorem inbound_message_handling (clients : list nat) (ws : nat)
    (message : string) :
  let result := step WORKSPACE_DIR JSON_parse now readyState clients
                  (Message ws message) in
  result.1 = clients
  /\ (forall data, JSON_parse message = Some data ->
        property "type" data = Some (Some (JString "ping")) ->
        result.2 = [Send ws (JObject [("type", JString "pong");
                                      ("timestamp", JNumber now)])])
  /\ (forall data, JSON_parse message = Some data ->
        property "type" data = Some (Some (JString "subscribe")) ->
        (forall channel, property "channel" data = Some (Some channel) ->
           result.2 = [Send ws (JObject [("type", JString "subscribed");
                                         ("channel", channel)])])
        /\ (property "channel" data = Some None ->
           result.2 = [Send ws (JObject [("type", JString "subscribed")])]))
  /\ (forall data type, JSON_parse message = Some data ->
        property "type" data = Some type ->
        type <> Some (JString "ping") -> type <> Some (JString "subscribe") ->
        result.2 = [Log "Unknown message type:"])
  /\ (JSON_parse message = None \/ JSON_parse message = Some JNull ->
        result.2 = [LogError "WebSocket message error:"]).
Proof.
  simpl. unfold onMessage. split; [reflexivity|].
  split; [|split; [|split]].
  - intros data -> ->. reflexivity.
  - intros data -> ->. simpl. split; [intros channel ->|intros ->]; reflexivity.
  - intros data type -> -> Hping Hsub.
    now rewrite (strictEq_false _ _ Hping), (strictEq_false _ _ Hsub).
  - intros [-> | ->]; reflexivity.
Qed.

End Inbound.

Example ping_is_answered :
  step "/app/workspace" (fun _ => Some (JObject [("type", JString "ping")]))
       1700000000000 (fun _ => OPEN) [7; 8] (Message 7 "ping")
  = ([7; 8], [Send 7 (JObject [("type", JString "pong");
                               ("timestamp", JNumber 1700000000000)])]).
Proof. reflexivity. Qed.

Example subscribe_is_acknowledged :
  step "/app/workspace"
       (fun _ => Some (JObject [("type", JString "subscribe");
                                ("channel", JString "files")]))
       0 (fun _ => OPEN) [7] (Message 7 "subscribe")
  = ([7], [Send 7 (JObject [("type", JString "subscribed");
                            ("channel", JString "files")])]).
Proof. reflexivity. Qed.

Example unknown_and_malformed :
  step "/app/workspace" (fun _ => Some (JObject [("type", JString "hello")]))
       0 (fun _ => OPEN) [7] (Message 7 "hello")
  = ([7], [Log "Unknown message type:"]) /\
  step "/app/workspace" (fun _ => Some (JNumber 5))
       0 (fun _ => OPEN) [7] (Message 7 "5")
  = ([7], [Log "Unknown message type:"]) /\
  step "/app/workspace" (fun _ => None)
       0 (fun _ => OPEN) [7] (Message 7 "{oops")
  = ([7], [LogError "WebSocket message error:"]).
Proof. repeat split; reflexivity. Qed.

End HubFacts.

(** ** Hidden entries: listed, not watched *)

Module HiddenEntryFacts.
Import FileTree.

(** The listing filters nothing: an item whose name starts with a dot
    has its entry, under its own name, in the listing of its directory,
    at whatever level that directory is. *)
Lemma dot_named_items_are_listed (localeCompare : string -> string -> Z)
    (items : list (string * Node)) (basePath rest : string) (stats : Node) :
  In (String "."%char rest, stats) items ->
  let item := String "."%char rest in
  let entry := buildEntry localeCompare basePath item stats in
  In entry (buildFileTree localeCompare items basePath) /\ name entry = item.
Proof.
  intros Hin. simpl. split.
  - now apply FileTreeFacts.item_listed.
  - apply FileTreeFacts.name_buildEntry.
Qed.

(** The watcher emits nothing for a finding on an item whose name is a
    dot followed by a character that the ignore pattern's [.]
    matches. *)
Lemma matched_dot_names_are_not_watched (rest : string) :
  Hub.matchesDot rest = true ->
  forall WORKSPACE_DIR dir e initial,
    Hub.filePath e = dir +:+ "/" +:+ String "."%char rest ->
    Hub.watcher WORKSPACE_DIR {| Hub.event := e; Hub.initial := initial |} = [].
Proof.
  intros Hrest ws dir e i Hpath.
  apply (WatcherFacts.hidden_not_watched _ (dir +:+ "/") rest); [|assumption|].
  - right. exists dir, "/"%char. now split.
  - rewrite Hpath. clear. induction dir as [|c dir IH]; [reflexivity|].
    change (String c dir +:+ "/" +:+ String "."%char rest)
      with (String c (dir +:+ "/" +:+ String "."%char rest)).
    change ((String c dir +:+ "/") +:+ String "."%char rest)
      with (String c ((dir +:+ "/") +:+ String "."%char rest)).
    now rewrite IH.
Qed.

(** C10, at a failing input.  A file whose name is a dot, a line feed
    and [cache] is listed like every other item, and so is [.env]
    beside it.  The ignore pattern, written to ignore dotfiles, does not
    match its path, because the pattern's [.] after the dot matches no
    line terminator: the library is not asked to ignore the file, a
    change of it is delivered and broadcast as [file:changed] to the
    open session, while a change of [.env] is not. *)
Theorem dotfile_with_line_break_is_reported :
  let item := String "."%char (String "010"%char "cache") in
  let storage := [ (".env", FileNode 12 1700000000);
                   (item, FileNode 40 1700000100) ] in
  let fullPath := "/app/workspace/" +:+ item in
  let found p := {| Hub.event := Hub.changeOf p; Hub.initial := false |} in
  let report := {| Hub.kind := Hub.changed; Hub.path := item |} in
  In (FileEntry item item 40 1700000100)
     (buildFileTree Collation.localeCompare storage "")
  /\ In (FileEntry ".env" ".env" 12 1700000000)
       (buildFileTree Collation.localeCompare storage "")
  /\ Hub.ignored Hub.options fullPath = false
  /\ Hub.delivered Hub.options (found fullPath) = Some (Hub.changeOf fullPath)
  /\ Hub.watcher "/app/workspace" (found fullPath) = [report]
  /\ Hub.step "/app/workspace" (fun _ => None) 0 (fun _ => Hub.OPEN) [7]
       (Hub.Watch (Hub.changeOf fullPath))
     = ([7], [Hub.Send 7 (Hub.eventData report)])
  /\ Hub.ignored Hub.options "/app/workspace/.env" = true
  /\ Hub.watcher "/app/workspace" (found "/app/workspace/.env") = [].
Proof.
  simpl. split; [now left|]. split; [right; now left|]. repeat split.
Qed.

Example hidden_file_change_is_silent :
  Hub.watcher "/app/workspace"
    {| Hub.event := Hub.changeOf "/app/workspace/.env"; Hub.initial := false |} = [].
Proof. reflexivity. Qed.

End HiddenEntryFacts.

(** ** The client reconciler *)

Module FileContextFacts.
Import FileContext.

(** *** Arrays *)

Lemma includes_In (arr : list string) (x : string) :
  JS.includes arr x = true <-> In x arr.
Proof.
  unfold JS.includes. rewrite existsb_exists. split.
  - intros [y [Hy Heq]]. apply String.eqb_eq in Heq. now subst.
  - intros Hin. exists x. split; [assumption|apply String.eqb_refl].
Qed.

Lemma includes_false (arr : list string) (x : string) :
  ~ In x arr -> JS.includes arr x = false.
Proof.
  intros Hnot. destruct (JS.includes arr x) eqn:E; [|reflexivity].
  now apply includes_In in E.
Qed.

Lemma indexOf_bounds (arr : list string) (x : string) :
  (-1 <= JS.indexOf arr x < Z.of_nat (length arr))%Z.
Proof.
  induction arr as [|y arr IH]; simpl; [lia|].
  destruct (String.eqb y x); [lia|].
  destruct (Z.ltb_spec (JS.indexOf arr x) 0); lia.
Qed.


(** [indexOf] finds the first position of a member. *)
Lemma indexOf_lookup (arr : list string) (x : string) :
  In x arr ->
  exists i, JS.indexOf arr x = Z.of_nat i /\ arr !! i = Some x.
Proof.
  induction arr as [|y arr IH]; intros Hin; [contradiction|]. simpl.
  destruct (String.eqb_spec y x) as [->|Hne]; [now exists 0|].
  destruct Hin as [->|Hin]; [contradiction|].
  destruct (IH Hin) as [i [Hi Hlook]]. exists (S i). rewrite Hi.
  destruct (Z.ltb_spec (Z.of_nat i) 0); [lia|]. split; [lia|assumption].
Qed.

Lemma filter_fresh (arr : list string) (x : string) :
  ~ In x arr ->
  List.filter (fun f => negb (String.eqb f x)) arr = arr.
Proof.
  induction arr as [|y arr IH]; intros Hnot; simpl; [reflexivity|].
  destruct (String.eqb_spec y x) as [->|Hne]; [exfalso; apply Hnot; now left|].
  simpl. rewrite IH; [reflexivity|]. intros H. apply Hnot. now right.
Qed.

Lemma filter_without (arr : list string) (x y : string) :
  In y (List.filter (fun f => negb (String.eqb f x)) arr) <-> In y arr /\ y <> x.
Proof.
  rewrite filter_In, negb_true_iff, String.eqb_neq. reflexivity.
Qed.

(** *** Reading the dictionary *)

#[local] Arguments JS.get : simpl never.
#[local] Arguments JS.assign : simpl never.

(** A key that is neither an own property nor a member of
    [Object.prototype] reads as [undefined]. *)
Lemma get_plain (o : gmap string JS.Value) (key : string) :
  o !! key = None -> ~ In key JS.Object_prototype -> JS.get o key = JS.VUndefined.
Proof.
  intros Hown Hplain. unfold JS.get. now rewrite Hown, (includes_false _ _ Hplain).
Qed.

(** An own property is what is read. *)
Lemma get_own (o : gmap string JS.Value) (key : string) (v : JS.Value) :
  o !! key = Some v -> JS.get o key = v.
Proof. intros Hown. unfold JS.get. now rewrite Hown. Qed.

(** A key that is no own property reads as truthy exactly when it
    names a member of [Object.prototype]. *)
Lemma get_inherited (o : gmap string JS.Value) (key : string) :
  o !! key = None ->
  JS.toBoolean (JS.get o key) = JS.includes JS.Object_prototype key.
Proof.
  intros Hown. unfold JS.get. rewrite Hown.
  now destruct (JS.includes JS.Object_prototype key).
Qed.

(** Assigning under a key other than [__proto__] makes the own
    property. *)
Lemma assign_plain (o : gmap string JS.Value) (key : string) (v : JS.Value) :
  key <> "__proto__" -> JS.assign o key v = <[key := v]> o.
Proof.
  intros Hkey. unfold JS.assign.
  now destruct (String.eqb_spec key "__proto__").
Qed.

(** *** What each function does to [openFiles] and [activeFile] *)

Ltac unfold_async :=
  unfold after, sent, outcome, call, websocket_onmessage, openFile, closeFile,
    deleteFile, renameFile, saveFile, createFile, onmessage,
    loadFile, loadFileTree, updateFileContent, caught,
    axios_get_tree, axios_get_read, axios_update,
    setOpenFiles, setActiveFile, setFileContents, setFileTree, setLoading,
    mbind, mret, Async_bind, Async_ret; simpl.

Lemma openFile_effect (server : Server) (s : State) (p : string) :
  let s' := after (call (fun render => openFile server render p)) s in
  openFiles s' = (if JS.includes (openFiles s) p then openFiles s
                  else openFiles s ++ [p])%list
  /\ activeFile s' = Some p.
Proof.
  unfold_async. destruct (JS.includes (openFiles s) p); simpl;
    destruct (JS.toBoolean (JS.get (fileContents s) p)); simpl;
    try destruct (read_response server p); simpl; split; reflexivity.
Qed.


Lemma closeFile_effect (s : State) (p : string) :
  let s' := after (call (fun render => closeFile render p)) s in
  openFiles s' = List.filter (fun f => negb (String.eqb f p)) (openFiles s)
  /\ activeFile s'
     = if bool_decide (activeFile s = Some p) then
         let index := JS.indexOf (openFiles s) p in
         JS.or_else (JS.index (openFiles s) (index - 1))
           (JS.or_else (JS.index (openFiles s) (index + 1)) None)
       else activeFile s.
Proof.
  unfold_async. destruct (bool_decide (activeFile s = Some p)); split; reflexivity.
Qed.

Lemma renameFile_effect (server : Server) (s : State) (oldPath newPath : string) :
  update_response server (PostRename oldPath newPath) = inr tt ->
  let s' := after (call (fun render => renameFile server render oldPath newPath)) s in
  openFiles s'
    = List.map (fun f => if String.eqb f oldPath then newPath else f) (openFiles s)
  /\ activeFile s'
     = (if bool_decide (activeFile s = Some oldPath) then Some newPath
        else activeFile s)
  /\ fileContents s'
     = (if JS.toBoolean (JS.get (fileContents s) oldPath) then
          delete oldPath
            (JS.assign (fileContents s) newPath (JS.get (fileContents s) oldPath))
        else fileContents s).
Proof.
  intros Hok. unfold_async. rewrite Hok. simpl.
  destruct (JS.toBoolean (JS.get (fileContents s) oldPath)); simpl;
    destruct (bool_decide (activeFile s = Some oldPath)); simpl;
    destruct (tree_response server); simpl; repeat split; reflexivity.
Qed.

(** *** The functions that keep the active file among the open files *)

Lemma or_else_Some (a b : option string) (q : string) :
  JS.or_else a b = Some q -> a = Some q \/ b = Some q.
Proof. unfold JS.or_else. destruct (JS.truthy a); auto. Qed.

Lemma index_Some {A} (arr : list A) (z : Z) (q : A) :
  JS.index arr z = Some q -> (0 <= z)%Z /\ arr !! Z.to_nat z = Some q.
Proof.
  unfold JS.index. destruct (Z.ltb_spec z 0); [discriminate|]. now split.
Qed.

Lemma openFile_keeps_invariant (server : Server) (s : State) (p : string) :
  active_is_open (after (call (fun render => openFile server render p)) s).
Proof.
  destruct (openFile_effect server s p) as [Hopen Hactive].
  unfold active_is_open. rewrite Hactive, Hopen.
  destruct (JS.includes (openFiles s) p) eqn:E.
  - apply list_elem_of_In. now apply includes_In.
  - set_solver.
Qed.

Lemma closeFile_keeps_invariant (s : State) (p : string) :
  NoDup (openFiles s) -> active_is_open s ->
  active_is_open (after (call (fun render => closeFile render p)) s).
Proof.
  intros Hnodup Hinv.
  destruct (closeFile_effect s p) as [Hopen Hactive].
  unfold active_is_open in *. rewrite Hactive, Hopen. clear Hactive Hopen.
  case_bool_decide as Hp.
  - rewrite Hp in Hinv. apply list_elem_of_In in Hinv.
    destruct (indexOf_lookup _ _ Hinv) as [i [Hi Hlook]]. simpl. rewrite Hi.
    destruct (JS.or_else _ _) as [q|] eqn:Hq; [|exact I].
    apply list_elem_of_In, filter_without.
    assert (Hat : exists j, j <> i /\ openFiles s !! j = Some q).
    { apply or_else_Some in Hq as [Hq|Hq];
        [|apply or_else_Some in Hq as [Hq|Hq]; [|discriminate]];
        apply index_Some in Hq as [Hz Hq]; eexists; (split; [|exact Hq]); lia. }
    destruct Hat as [j [Hj Hq']]. split.
    + apply list_elem_of_In. now apply list_elem_of_lookup_2 with j.
    + intros ->. apply Hj. now apply (NoDup_lookup _ _ _ _ Hnodup Hq' Hlook).
  - destruct (activeFile s) as [a|]; [|exact I].
    apply list_elem_of_In, filter_without. split; [now apply list_elem_of_In|].
    intros ->. now apply Hp.
Qed.

Lemma renameFile_keeps_invariant (server : Server) (s : State)
    (oldPath newPath : string) :
  update_response server (PostRename oldPath newPath) = inr tt ->
  active_is_open s ->
  active_is_open
    (after (call (fun render => renameFile server render oldPath newPath)) s).
Proof.
  intros Hok Hinv.
  destruct (renameFile_effect server s oldPath newPath Hok) as [Hopen [Hactive _]].
  unfold active_is_open in *. rewrite Hactive, Hopen. clear Hactive Hopen.
  case_bool_decide as Hp.
  - rewrite Hp in Hinv. apply list_elem_of_In, in_map_iff.
    exists oldPath. rewrite String.eqb_refl. split; [reflexivity|].
    now apply list_elem_of_In.
  - destruct (activeFile s) as [a|]; [|exact I].
    apply list_elem_of_In, in_map_iff. exists a.
    destruct (String.eqb_spec a oldPath) as [->|Hne]; [now contradiction Hp|].
    split; [reflexivity|]. now apply list_elem_of_In.
Qed.

(** Saving, creating, loading and the socket's handler leave
    [openFiles] and [activeFile] as they are. *)
Lemma others_keep_open_files (server : Server) (s : State) :
  (forall p c, let s' := after (saveFile server p c) s in
     openFiles s' = openFiles s /\ activeFile s' = activeFile s)
  /\ (forall p t c, let s' := after (createFile server p t c) s in
     openFiles s' = openFiles s /\ activeFile s' = activeFile s)
  /\ (forall render data, let s' := after (onmessage server render data) s in
     openFiles s' = openFiles s /\ activeFile s' = activeFile s).
Proof.
  split; [|split].
  - intros p c. unfold_async.
    destruct (update_response server _); simpl; split; reflexivity.
  - intros p t c. unfold_async.
    destruct (update_response server _); simpl; [split; reflexivity|].
    destruct (tree_response server); simpl; split; reflexivity.
  - intros render data. unfold_async.
    destruct (String.eqb (type data) "file:changed").
    + destruct (JS.toBoolean _); simpl; [|split; reflexivity].
      destruct (read_response server _); simpl; split; reflexivity.
    + destruct (_ || _); simpl; [|split; reflexivity].
      destruct (tree_response server); simpl; split; reflexivity.
Qed.

(** *** Opening and closing a file *)




Example open_then_close_of_the_last_file :
  let s := editing ["a.js"; "b.js"] (Some "b.js") ∅ in
  let opened := after (call (fun render => openFile (accepting [] "") render "c.js")) s in
  let next := after (call (fun render => closeFile render "c.js")) opened in
  let same := after (closeFile s "c.js") opened in
  (openFiles next = openFiles s /\ activeFile next = activeFile s) /\
  (openFiles same = openFiles s /\ activeFile same = Some "c.js").
Proof. repeat split. Qed.

(** *** Renaming *)

(** A cached content that is not empty moves to the new path. *)
Lemma renameFile_moves_content (server : Server) (s : State)
    (oldPath newPath content : string) :
  update_response server (PostRename oldPath newPath) = inr tt ->
  fileContents s !! oldPath = Some (JS.VString content) -> content <> "" ->
  oldPath <> newPath -> newPath <> "__proto__" ->
  let s' := after (call (fun render => renameFile server render oldPath newPath)) s in
  fileContents s' !! newPath = Some (JS.VString content)
  /\ fileContents s' !! oldPath = None.
Proof.
  intros Hok Hcached Hne Hdiff Hproto s'.
  destruct (renameFile_effect server s oldPath newPath Hok) as [_ [_ Hcontents]].
  fold s' in Hcontents. rewrite Hcontents, (get_own _ _ _ Hcached). simpl.
  destruct (String.eqb_spec content ""); [contradiction|]. simpl.
  split; [|apply lookup_delete_eq].
  rewrite lookup_delete_ne by assumption. rewrite assign_plain by assumption.
  apply lookup_insert_eq.
Qed.

(** C8, at a failing input.  With the empty file [notes.txt] open,
    active and cached, [renameFile("notes.txt", "todo.txt")] succeeds
    and renames the path in [openFiles] and [activeFile], but the
    test [fileContents[oldPath]] is falsy for the empty string: the
    cached entry stays under the old path and the new path has none. *)
Theorem renameFile_leaves_empty_content_behind :
  let s := editing ["notes.txt"] (Some "notes.txt")
             {["notes.txt" := JS.VString ""]} in
  let run := call (fun render =>
               renameFile (accepting [] "") render "notes.txt" "todo.txt") in
  outcome run s = inr true /\
  openFiles (after run s) = ["todo.txt"] /\
  activeFile (after run s) = Some "todo.txt" /\
  fileContents (after run s) !! "todo.txt" = None /\
  fileContents (after run s) !! "notes.txt" = Some (JS.VString "").
Proof. simpl. repeat split. Qed.

Example renameFile_moves_text :
  let s := editing ["notes.txt"] (Some "notes.txt")
             {["notes.txt" := JS.VString "milk"]} in
  let run := call (fun render =>
               renameFile (accepting [] "") render "notes.txt" "todo.txt") in
  fileContents (after run s) !! "todo.txt" = Some (JS.VString "milk") /\
  fileContents (after run s) !! "notes.txt" = None.
Proof. simpl. repeat split. Qed.

(** *** Messages of the hub *)

(** An [added] or [deleted] event makes the handler fetch the whole
    tree, and the tree fetched replaces [fileTree]. *)
Lemma tree_event_refetches_tree (server : Server) (render s : State)
    (k : Hub.ChangeKind) (p : string) :
  k <> Hub.changed ->
  let run := onmessage server render (ofEvent {| Hub.kind := k; Hub.path := p |}) in
  sent run s = [GetTree] /\
  (forall tree, tree_response server = inr tree -> fileTree (after run s) = tree).
Proof.
  intros Hk. destruct k; [|contradiction|]; unfold_async;
    destruct (tree_response server); simpl;
    (split; [reflexivity|]); intros tree' [= <-]; reflexivity.
Qed.

(** A [changed] event for a path whose cached content, in the render
    the handler belongs to, is not empty makes the handler read that
    path again and overwrite the entry. *)
Lemma changed_event_refetches (server : Server) (render s : State)
    (p cached content : string) :
  fileContents render !! p = Some (JS.VString cached) -> cached <> "" ->
  read_response server p = inr content ->
  let run := onmessage server render
               (ofEvent {| Hub.kind := Hub.changed; Hub.path := p |}) in
  sent run s = [GetRead p]
  /\ fileContents (after run s) !! p = Some (JS.VString content).
Proof.
  intros Hcached Hne Hread. unfold_async. rewrite (get_own _ _ _ Hcached). simpl.
  destruct (String.eqb_spec cached ""); [contradiction|]. simpl.
  rewrite Hread. simpl. split; [reflexivity|apply lookup_insert_eq].
Qed.

(** The handler the socket has is the one of the first render, whose
    [fileContents] is empty: on a [changed] event for a path that is
    not the name of a member of [Object.prototype] it sends nothing and
    changes nothing, whatever is cached by then. *)
Lemma mounted_handler_ignores_changes (server : Server) (s : State) (p : string) :
  ~ In p JS.Object_prototype ->
  let run := websocket_onmessage server
               (ofEvent {| Hub.kind := Hub.changed; Hub.path := p |}) in
  sent run s = [] /\ after run s = s.
Proof.
  intros Hplain. unfold_async. unfold mount. simpl.
  rewrite (get_plain _ _ (lookup_empty p) Hplain). simpl.
  split; reflexivity.
Qed.

(** C7, at a failing input.  With [src/app.js] open and cached, a
    [file:changed] message for it reaches the socket's handler: no
    read is sent and the cached content stays, although the server
    holds a new one; the same message handled by a handler of the
    current render is re-fetched, unless the cached content is the
    empty string.  A [file:added] message does fetch the whole tree. *)
Theorem changed_event_is_not_refetched :
  let server := accepting [] "new" in
  let s := editing ["src/app.js"] (Some "src/app.js")
             {["src/app.js" := JS.VString "old"]} in
  let empty := editing ["src/app.js"] (Some "src/app.js")
                 {["src/app.js" := JS.VString ""]} in
  let changed := ofEvent {| Hub.kind := Hub.changed; Hub.path := "src/app.js" |} in
  let added := ofEvent {| Hub.kind := Hub.added; Hub.path := "src/new.js" |} in
  (sent (websocket_onmessage server changed) s = [] /\
   fileContents (after (websocket_onmessage server changed) s) !! "src/app.js"
     = Some (JS.VString "old")) /\
  (sent (call (fun render => onmessage server render changed)) s
     = [GetRead "src/app.js"] /\
   fileContents (after (call (fun render => onmessage server render changed)) s)
     !! "src/app.js" = Some (JS.VString "new")) /\
  sent (call (fun render => onmessage server render changed)) empty = [] /\
  sent (websocket_onmessage server added) s = [GetTree].
Proof. simpl. repeat split. Qed.

(** C2, at a failing input.  With [a.js] and [b.js] open and [a.js]
    active, [deleteFile("a.js")] succeeds, removes [a.js] from
    [openFiles], and sets [activeFile] to [openFiles[0]] of the render
    it was called from, which is the deleted [a.js] itself: the
    active file is no longer an open file. *)
Theorem deleteFile_keeps_deleted_file_active :
  let s := editing ["a.js"; "b.js"] (Some "a.js")
             {["a.js" := JS.VString "let a"]} in
  let run := call (fun render => deleteFile (accepting [] "") render "a.js") in
  active_is_open s /\
  outcome run s = inr true /\
  openFiles (after run s) = ["b.js"] /\
  activeFile (after run s) = Some "a.js" /\
  fileContents (after run s) !! "a.js" = None /\
  ~ active_is_open (after run s).
Proof.
  simpl. repeat split.
  - unfold active_is_open. simpl. set_solver.
  - unfold active_is_open. vm_compute. intros H.
    apply list_elem_of_In in H. simpl in H. intuition discriminate.
Qed.

(** The invariant also breaks once a rename has put the same path
    twice into [openFiles]: closing it removes both, and the sibling
    picked as the new active file is the closed path itself. *)
Example closeFile_after_rename_onto_open_file :
  let s := editing ["a.js"; "b.js"] (Some "b.js") ∅ in
  let renamed :=
    after (call (fun render => renameFile (accepting [] "") render "a.js" "b.js")) s in
  let closed := after (call (fun render => closeFile render "b.js")) renamed in
  openFiles renamed = ["b.js"; "b.js"] /\ activeFile renamed = Some "b.js" /\
  openFiles closed = [] /\ activeFile closed = Some "b.js".
Proof. simpl. repeat split. Qed.

End FileContextFacts.

(* ===================================================================== *)
(** * Further properties of the file routes *)
(* ===================================================================== *)

Module RouteRunFacts.
Import JSON FileRoutes RouteRuns.

(** Case analysis of a handler's run: the request's fields, the two
    checks, then what the storage answers to each call. *)
Ltac handler_cases fs :=
  repeat (simpl; match goal with
  | |- context [match ?q with _ => _ end] => is_var q; destruct q
  | |- context [if ?b then _ else _] => destruct b eqn:?
  | |- context [fs_readFile fs ?p] => destruct (fs_readFile fs p) eqn:?
  | |- context [fs_stat fs ?p] => destruct (fs_stat fs p) eqn:?
  | |- context [fs_update fs ?c] => destruct (fs_update fs c) as [?|[]] eqn:?
  end); simpl.

(** What the checks that were passed say of the fields; a case in
    which a check was both passed and failed is closed. *)
Ltac checks_passed :=
  repeat match goal with
  | H : _ || true = false |- _ => rewrite orb_true_r in H; discriminate H
  | H : true || _ = false |- _ => discriminate H
  | H : _ || _ = false |- _ => apply orb_false_iff in H; destruct H
  | H : negb _ = false |- _ => apply negb_false_iff in H
  | H : false = true |- _ => discriminate H
  | H : true = false |- _ => discriminate H
  end.

Section Runs.

Variable WORKSPACE_DIR : string.
Variable fs : Fs.

(** X1.  A request that is turned away, with 400 for a missing field or
    with 403 by the containment check, has made no storage call: both
    checks of every handler come before its first call. *)
Theorem turned_away_before_any_call :
  (forall q, let r := run fs (read WORKSPACE_DIR q) in
     turned_away r.2 = true -> r.1 = [])
  /\ (forall p c, let r := run fs (write WORKSPACE_DIR p c) in
     turned_away r.2 = true -> r.1 = [])
  /\ (forall p t c, let r := run fs (create WORKSPACE_DIR p t c) in
     turned_away r.2 = true -> r.1 = [])
  /\ (forall q, let r := run fs (delete WORKSPACE_DIR q) in
     turned_away r.2 = true -> r.1 = [])
  /\ (forall o n, let r := run fs (rename WORKSPACE_DIR o n) in
     turned_away r.2 = true -> r.1 = []).
Proof.
  repeat split; intros; revert H; subst r;
    unfold read, write, create, delete, rename, try_join; simpl;
    handler_cases fs; intros Haway; first [reflexivity | discriminate Haway].
Qed.

Ltac storage_facts :=
  repeat match goal with
  | |- Forall _ [] => constructor
  | |- Forall _ (_ :: _) => constructor
  | |- succeeds _ _ => simpl; eauto
  | |- fails _ _ _ => simpl; eassumption
  | |- isString _ = _ => reflexivity
  | |- truthy _ = _ => first [reflexivity | assumption]
  | |- _ <> [] => discriminate
  | |- In _ _ => simpl
  | |- _ /\ _ => split
  | |- _ \/ _ => first [left; reflexivity | right]
  end.

(** A 500 of a run: the storage rejected the last call, or a path
    field is not a string. *)
Ltac error_facts :=
  first
    [ left; eexists _, _; (split; [reflexivity|]);
      (split; [|split; [reflexivity|]]); storage_facts; fail
    | right; split; [reflexivity|]; eexists;
      first
        [ split; [left; reflexivity|]; storage_facts;
          first [reflexivity | assumption | (simpl; congruence)]; fail
        | split; [right; left; reflexivity|]; storage_facts;
          first [reflexivity | assumption | (simpl; congruence)]; fail ] ].

(** X2.  Every response is 200, 400, 403 or 500.  A 500 comes from the
    storage or from a path field: either the last call made was
    rejected, the response carries the rejection's message, and the
    handler made no call after it; or a path field of the request is
    not a string, [path.join] threw, and the handler made no call at
    all.  A 200 is given only after at least one call, all of them
    fulfilled, on path fields that are strings. *)
Theorem responses_account_for_storage :
  (forall q, accounted fs [q] (run fs (read WORKSPACE_DIR q)))
  /\ (forall p c, accounted fs [p] (run fs (write WORKSPACE_DIR p c)))
  /\ (forall p t c, accounted fs [p] (run fs (create WORKSPACE_DIR p t c)))
  /\ (forall q, accounted fs [q] (run fs (delete WORKSPACE_DIR q)))
  /\ (forall o n, accounted fs [o; n] (run fs (rename WORKSPACE_DIR o n))).
Proof.
  (split; [|split; [|split; [|split]]]); intros;
    unfold accounted, read, write, create, delete, rename, try_join;
    simpl; handler_cases fs; checks_passed;
    ((split; [|split]);
     [ intros Hstatus; first [ discriminate Hstatus | error_facts ]
     | intros Hstatus;
       first [ discriminate Hstatus | storage_facts ]
     | storage_facts ]).
Qed.

(** X4.  Every path that [read], [delete] and [rename] hand to the
    storage starts with the workspace directory's string: what the
    check lets through is what the calls are made on. *)
Theorem storage_paths_start_with_workspace :
  let guarded (r : list FsCall * Response) :=
    Forall (fun c => Forall (fun p => JS.startsWith p WORKSPACE_DIR = true)
                            (targets c)) r.1 in
  (forall q, guarded (run fs (read WORKSPACE_DIR q)))
  /\ (forall q, guarded (run fs (delete WORKSPACE_DIR q)))
  /\ (forall o n, guarded (run fs (rename WORKSPACE_DIR o n))).
Proof.
  intros guarded. subst guarded.
  (split; [|split]); intros; unfold read, delete, rename, try_join; simpl;
    handler_cases fs; checks_passed;
    repeat (constructor; simpl); assumption.
Qed.

(** X3.  [delete] asks the storage what the path is and then removes a
    directory with [rm] and anything else with [unlink]; it makes no
    other call. *)
Theorem delete_removes_by_kind (filePath : string) (stats : Stats) :
  filePath <> "" ->
  JS.startsWith (Path.join [WORKSPACE_DIR; filePath]) WORKSPACE_DIR = true ->
  fs_stat fs (Path.join [WORKSPACE_DIR; filePath]) = inr stats ->
  let fullPath := Path.join [WORKSPACE_DIR; filePath] in
  (run fs (delete WORKSPACE_DIR (Some (JString filePath)))).1
  = [CStat fullPath; if isDirectory stats then CRm fullPath else CUnlink fullPath].
Proof.
  intros Hne Hin Hstat. unfold delete, try_join.
  rewrite (FileRoutesFacts.truthy_string _ Hne). simpl.
  rewrite Hin. simpl. rewrite Hstat. simpl.
  destruct (isDirectory stats); simpl;
    destruct (fs_update fs _) as [?|[]]; reflexivity.
Qed.

(** X5.  [create] with a type other than ['directory'] is [write] with
    the content given, or with the empty content when none is given:
    the same calls and the same status; with the type ['directory'] it
    only makes the directory. *)
Theorem create_is_write_unless_directory (p c : option Json) (type : Json) :
  truthy (Some type) = true ->
  let created := run fs (create WORKSPACE_DIR p (Some type) c) in
  (type <> JString "directory" ->
     let written :=
       run fs (write WORKSPACE_DIR p (Some (default (JString "") c))) in
     created.1 = written.1 /\ status created.2 = status written.2)
  /\ (type = JString "directory" ->
       forall filePath, p = Some (JString filePath) -> filePath <> "" ->
       JS.startsWith (Path.join [WORKSPACE_DIR; filePath]) WORKSPACE_DIR = true ->
       created.1 = [CMkdir (Path.join [WORKSPACE_DIR; filePath])]).
Proof.
  intros Hty. cbv zeta. split.
  - intros Hfile. unfold create, write, try_join. rewrite Hty, orb_false_r.
    assert (Hdir : strictEq (Some type) "directory" = false).
    { destruct type; try reflexivity. simpl.
      destruct (String.eqb_spec s "directory"); congruence. }
    rewrite Hdir.
    destruct (negb (truthy p)); [split; reflexivity|].
    destruct p as [[| | |filePath| |]|]; try (split; reflexivity).
    destruct (negb (JS.startsWith _ _)); [split; reflexivity|].
    simpl. destruct (fs_update fs (CMkdir _)) as [?|[]]; simpl; [split; reflexivity|].
    destruct (fs_update fs (CWriteFile _ _)) as [?|[]]; simpl; split; reflexivity.
  - intros -> filePath -> Hne Hin. unfold create, try_join.
    rewrite (FileRoutesFacts.truthy_string _ Hne). simpl.
    rewrite Hin. simpl. destruct (fs_update fs _) as [?|[]]; reflexivity.
Qed.

End Runs.

Lemma delete_removes_by_kind_witness :
  let fs := willing "" true in
  let fullPath := Path.join ["/app/workspace"; "src/old"] in
  (run fs (delete "/app/workspace" (Some (JString "src/old")))).1
  = [CStat fullPath;
     if isDirectory {| size := 0; mtime := 1700000000; isDirectory := true |}
     then CRm fullPath else CUnlink fullPath].
Proof.
  apply (delete_removes_by_kind "/app/workspace" (willing "" true) "src/old"
           {| size := 0; mtime := 1700000000; isDirectory := true |});
    [discriminate | reflexivity | reflexivity].
Defined.

Lemma create_is_write_witness :
  let fs := readonly "" in
  let created := run fs (create "/app/workspace" (Some (JString "notes/todo.txt"))
                           (Some (JString "file")) None) in
  (JString "file" <> JString "directory" ->
     let written := run fs (write "/app/workspace" (Some (JString "notes/todo.txt"))
                              (Some (default (JString "") None))) in
     created.1 = written.1 /\ status created.2 = status written.2)
  /\ (JString "file" = JString "directory" -> forall filePath,
       Some (JString "notes/todo.txt") = Some (JString filePath) -> filePath <> "" ->
       JS.startsWith (Path.join ["/app/workspace"; filePath]) "/app/workspace" = true ->
       created.1 = [CMkdir (Path.join ["/app/workspace"; filePath])]).
Proof.
  apply (create_is_write_unless_directory "/app/workspace" (readonly "")
           (Some (JString "notes/todo.txt")) None (JString "file")).
  reflexivity.
Defined.

Example disk_full_write :
  run (readonly "") (write "/app/workspace" (Some (JString "notes/todo.txt"))
                       (Some (JString "milk")))
  = ([CMkdir "/app/workspace/notes"],
     server_error "EROFS: read-only file system").
Proof. reflexivity. Qed.

(** A path given twice in the query string reaches the handler as an
    array: [path.join] throws, and the answer is 500 without a storage
    call. *)
Example repeated_query_parameter :
  run (willing "" false)
      (read "/app/workspace" (Some (JArray [JString "a"; JString "b"])))
  = ([], type_error (Some (JArray [JString "a"; JString "b"]))).
Proof. reflexivity. Qed.

End RouteRunFacts.

(* ===================================================================== *)
(** * Further properties of the tree listing *)
(* ===================================================================== *)

Module ListingFacts.
Import FileTree.

(** Two lists in the same strict order with the same elements are one
    list. *)
Lemma sorted_Permutation_eq {A} (R : A -> A -> Prop) (l1 l2 : list A) :
  StronglySorted R l1 -> StronglySorted R l2 -> Permutation l1 l2 ->
  (forall a b, In a l1 -> In b l1 -> R a b -> R b a -> a = b) ->
  l1 = l2.
Proof.
  intros Hs1. revert l2.
  induction Hs1 as [|x t1 Hs1 IH Hx]; intros l2 Hs2 Hperm Hanti.
  - apply Permutation_nil in Hperm. now subst.
  - destruct l2 as [|y t2].
    { symmetry in Hperm. now apply Permutation_nil in Hperm. }
    assert (Hxy : x = y).
    { inversion Hs2 as [|? ? _ Hy]; subst.
      assert (Hin_x : In x (y :: t2)).
      { eapply Permutation_in; [exact Hperm|now left]. }
      assert (Hin_y : In y (x :: t1)).
      { eapply Permutation_in; [symmetry; exact Hperm|now left]. }
      destruct Hin_x as [->|Hin_x]; [reflexivity|].
      destruct Hin_y as [->|Hin_y]; [reflexivity|].
      rewrite List.Forall_forall in Hx, Hy.
      apply Hanti; [now left|now right|now apply Hx|now apply Hy]. }
    subst y. f_equal. apply IH.
    + now inversion Hs2.
    + now apply Permutation_cons_inv in Hperm.
    + intros a b Ha Hb. apply Hanti; now right.
Qed.

Section Listing.

Variable localeCompare : string -> string -> Z.

(** X6.  The listing of a directory holds exactly the entries of its
    items: each entry is built of one item, each item has its entry, the
    names listed are the items' names and there are as many entries as
    items. *)
Theorem listing_holds_exactly_the_items (items : list (string * Node))
    (basePath : string) :
  let listing := buildFileTree localeCompare items basePath in
  (forall e, In e listing <->
     exists item stats, In (item, stats) items /\
       e = buildEntry localeCompare basePath item stats)
  /\ Permutation (List.map name listing) (List.map fst items)
  /\ length listing = length items.
Proof.
  simpl. unfold buildFileTree.
  pose proof (FileTreeFacts.sort_Permutation localeCompare
    (List.map (fun i => buildEntry localeCompare basePath i.1 i.2) items)) as Hperm.
  split; [|split].
  - intros e. split.
    + intros He. apply (Permutation_in _ Hperm) in He.
      apply in_map_iff in He as [[item stats] [<- Hin]]. now exists item, stats.
    + intros [item [stats [Hin ->]]].
      apply (Permutation_in _ (Permutation_sym Hperm)).
      apply in_map_iff. now exists (item, stats).
  - rewrite Hperm, List.map_map. apply Permutation_refl'.
    apply List.map_ext. intros [item stats]. apply FileTreeFacts.name_buildEntry.
  - rewrite (Permutation_length Hperm). apply List.length_map.
Qed.

(** X8.  Sorting leaves a list that is in order as it is: the sort is
    stable and moves no entry that already stands where it belongs. *)
Theorem sort_keeps_an_ordered_listing (l : list WorkspaceEntry) :
  StronglySorted (before localeCompare) l -> sort localeCompare l = l.
Proof.
  induction 1 as [|x l Hsorted IH Hx]; simpl; [reflexivity|].
  rewrite IH. destruct l as [|y l']; [reflexivity|]. simpl.
  inversion Hx as [|? ? Hxy _]; subst.
  apply FileTreeFacts.compareEntries_before in Hxy.
  now destruct (Z.leb_spec (compareEntries localeCompare x y) 0); [|lia].
Qed.

Hypothesis localeCompare_total :
  forall a b, (localeCompare a b <= 0)%Z \/ (localeCompare b a <= 0)%Z.
Hypothesis localeCompare_trans :
  forall a b c, (localeCompare a b <= 0)%Z -> (localeCompare b c <= 0)%Z ->
                (localeCompare a c <= 0)%Z.
(** X7.  The listing does not depend on the order in which the storage
    yields the items of a directory: when the names of the items are
    distinct and no two of them tie in the host's comparison, two
    directories with the same items have the same listing. *)
Theorem listing_ignores_storage_order (items items' : list (string * Node))
    (basePath : string) :
  NoDup (List.map fst items) -> Permutation items items' ->
  (forall a b, In a (List.map fst items) -> In b (List.map fst items) ->
     (localeCompare a b <= 0)%Z -> (localeCompare b a <= 0)%Z -> a = b) ->
  buildFileTree localeCompare items basePath
  = buildFileTree localeCompare items' basePath.
Proof.
  intros Hnames Hperm localeCompare_antisym. unfold buildFileTree.
  set (build := fun i : string * Node => buildEntry localeCompare basePath i.1 i.2).
  apply (sorted_Permutation_eq (before localeCompare)).
  - now apply FileTreeFacts.sort_sorted.
  - now apply FileTreeFacts.sort_sorted.
  - rewrite !FileTreeFacts.sort_Permutation. now apply Permutation_map.
  - intros a b Ha Hb Hab Hba.
    apply (Permutation_in _ (FileTreeFacts.sort_Permutation _ _)) in Ha, Hb.
    apply in_map_iff in Ha as [[ia sa] [<- Ha]].
    apply in_map_iff in Hb as [[ib sb] [<- Hb]].
    assert (Hname : ia = ib).
    { unfold before in Hab, Hba. subst build. simpl in *.
      rewrite !FileTreeFacts.type_buildEntry, !FileTreeFacts.name_buildEntry in Hab, Hba.
      assert (Hia : In ia (List.map fst items))
        by (apply in_map_iff; now exists (ia, sa)).
      assert (Hib : In ib (List.map fst items))
        by (apply in_map_iff; now exists (ib, sb)).
      destruct sa, sb; try contradiction; now apply localeCompare_antisym. }
    subst ib. subst build. simpl. f_equal.
    clear -Hnames Ha Hb. induction items as [|[i s] rest IH]; [contradiction|].
    simpl in Hnames. apply NoDup_cons in Hnames as [Hfresh Hnames].
    simpl in Ha, Hb. destruct Ha as [Ea|Ha], Hb as [Eb|Hb].
    + congruence.
    + injection Ea as -> ->. exfalso. apply Hfresh.
      apply list_elem_of_In, in_map_iff. now exists (ia, sb).
    + injection Eb as -> ->. exfalso. apply Hfresh.
      apply list_elem_of_In, in_map_iff. now exists (ia, sa).
    + now apply IH.
Qed.

End Listing.

Lemma codeUnitCompare_antisym a b :
  (codeUnitCompare a b <= 0)%Z -> (codeUnitCompare b a <= 0)%Z -> a = b.
Proof.
  unfold codeUnitCompare. rewrite (String.compare_antisym a b).
  destruct (String.compare b a) eqn:E; simpl; try lia.
  intros _ _. symmetry. now apply String.compare_eq_iff.
Qed.

Lemma sort_keeps_witness :
  sort codeUnitCompare (buildFileTree codeUnitCompare sampleWorkspace "")
  = buildFileTree codeUnitCompare sampleWorkspace "".
Proof.
  apply (sort_keeps_an_ordered_listing codeUnitCompare).
  apply FileTreeFacts.sort_sorted;
    [apply FileTreeFacts.codeUnitCompare_total
    |apply FileTreeFacts.codeUnitCompare_trans].
Defined.

Lemma listing_ignores_storage_order_witness :
  buildFileTree Collation.localeCompare sampleWorkspace ""
  = buildFileTree Collation.localeCompare (rev sampleWorkspace) "".
Proof.
  apply (listing_ignores_storage_order Collation.localeCompare
           FileTreeFacts.localeCompare_total FileTreeFacts.localeCompare_trans).
  - apply (bool_decide_unpack _). vm_compute. exact I.
  - apply Permutation_rev.
  - intros a b Ha Hb. simpl in Ha, Hb.
    repeat (destruct Ha as [<-|Ha]; [|]); try contradiction;
      repeat (destruct Hb as [<-|Hb]; [|]); try contradiction;
      try (intros _ _; reflexivity);
      vm_compute; intros H1 H2; exfalso;
      first [now apply H1 | now apply H2].
Defined.

(** Names that differ only in characters the collation ignores tie:
    the comparison of the host is not antisymmetric on all strings. *)
Example names_that_tie :
  Collation.localeCompare "a.txt" (String "001"%char "a.txt") = 0%Z.
Proof. reflexivity. Qed.

End ListingFacts.

(* ===================================================================== *)
(** * Further properties of the hub *)
(* ===================================================================== *)

Module HubRunFacts.
Import Hub HubRuns.

Lemma clients_add_In (ws c : nat) (clients : list nat) :
  In c (clients_add ws clients) <-> c = ws \/ In c clients.
Proof.
  unfold clients_add. case_bool_decide as Hin.
  - apply list_elem_of_In in Hin. split; [now right|]. now intros [->|H].
  - rewrite in_app_iff. simpl. intuition.
Qed.

Lemma clients_add_NoDup (ws : nat) (clients : list nat) :
  NoDup clients -> NoDup (clients_add ws clients).
Proof.
  intros Hnd. unfold clients_add. case_bool_decide as Hin; [assumption|].
  apply NoDup_app. split; [assumption|]. split; [|apply NoDup_singleton].
  intros x Hx Hx'. apply list_elem_of_singleton in Hx'. now subst.
Qed.

Lemma clients_delete_NoDup (ws : nat) (clients : list nat) :
  NoDup clients -> NoDup (clients_delete ws clients).
Proof.
  intros Hnd. unfold clients_delete.
  induction Hnd as [|c clients Hfresh Hnd IH]; simpl; [constructor|].
  destruct (negb (Nat.eqb c ws)); [|assumption].
  constructor; [|assumption]. intros Hin. apply Hfresh.
  apply list_elem_of_In in Hin. apply filter_In in Hin as [Hin _].
  now apply list_elem_of_In.
Qed.

Lemma clients_delete_absent (ws : nat) (clients : list nat) :
  ~ In ws clients -> clients_delete ws clients = clients.
Proof.
  intros Hnot. unfold clients_delete.
  induction clients as [|c clients IH]; simpl; [reflexivity|].
  destruct (Nat.eqb_spec c ws) as [->|Hne]; [exfalso; apply Hnot; now left|].
  simpl. rewrite IH; [reflexivity|]. intros H. apply Hnot. now right.
Qed.

Lemma step_NoDup ws_dir parse now rs (clients : list nat) (i : Input) :
  NoDup clients -> NoDup (step ws_dir parse now rs clients i).1.
Proof.
  intros Hnd. destruct i; simpl; try assumption.
  - now apply clients_add_NoDup.
  - now apply clients_delete_NoDup.
  - now apply clients_delete_NoDup.
Qed.

Lemma run_NoDup ws_dir parse (moments : list Moment) (clients : list nat) :
  NoDup clients -> NoDup (run ws_dir parse clients moments).1.
Proof.
  revert clients. induction moments as [|m rest IH]; intros clients Hnd; [assumption|].
  simpl. pose proof (step_NoDup ws_dir parse (time m) (states m) clients (input m) Hnd)
    as Hstep.
  destruct (step _ _ _ _ _ _) as [clients1 done1].
  specialize (IH clients1 Hstep).
  destruct (run _ _ clients1 rest) as [clients2 done2]. exact IH.
Qed.

(** X9.  Whatever connects, closes, fails or is sent, in whatever
    order, the registry that started empty never holds a session
    twice: no session is sent two copies of a broadcast. *)
Theorem registry_never_holds_a_session_twice (WORKSPACE_DIR : string)
    (JSON_parse : string -> option Json) (moments : list Moment) :
  NoDup (run WORKSPACE_DIR JSON_parse [] moments).1.
Proof. apply run_NoDup. constructor. Qed.

Section OneStep.

Variable WORKSPACE_DIR : string.
Variable JSON_parse : string -> option Json.
Variable now : Z.
Variable readyState : nat -> nat.

Let handle := step WORKSPACE_DIR JSON_parse now readyState.

(** X10.  Unregistering is idempotent and safe: a close or error event
    for a session that is not registered leaves the registry as it is,
    and a second such event after a first changes nothing more. *)
Theorem unregister_is_idempotent (clients : list nat) (ws : nat) :
  (~ In ws clients ->
     (handle clients (Close ws)).1 = clients /\
     (handle clients (Error ws)).1 = clients)
  /\ (forall first second,
        In first [Close ws; Error ws] -> In second [Close ws; Error ws] ->
        (handle (handle clients first).1 second).1 = (handle clients first).1).
Proof.
  split.
  - intros Hnot. split; simpl; now apply clients_delete_absent.
  - intros first second Hfirst Hsecond. simpl in Hfirst, Hsecond.
    destruct Hfirst as [<-|[<-|[]]], Hsecond as [<-|[<-|[]]]; simpl;
      apply clients_delete_absent, HubFacts.clients_delete_gone.
Qed.

(** X11.  A connection registers the new session beside the sessions
    already registered, in their order, and sends one message, to the
    new session only: the [connected] acknowledgement with the server's
    time.  A session that connects again is not registered twice. *)
Theorem connection_is_acknowledged (clients : list nat) (ws : nat) :
  let result := handle clients (Connection ws) in
  received ws result.2
    = [JObject [("type", JString "connected");
                ("message", JString "WebSocket connection established");
                ("timestamp", JNumber now)]]
  /\ (forall c, c <> ws -> received c result.2 = [])
  /\ (forall c, In c result.1 <-> c = ws \/ In c clients)
  /\ (exists added, result.1 = (clients ++ added)%list)
  /\ (In ws clients -> result.1 = clients).
Proof.
  simpl. rewrite Nat.eqb_refl. split; [reflexivity|]. split; [|split; [|split]].
  - intros c Hne. destruct (Nat.eqb_spec ws c); [congruence|reflexivity].
  - intros c. apply clients_add_In.
  - unfold clients_add. case_bool_decide.
    + exists []. now rewrite app_nil_r.
    + now exists [ws].
  - intros Hin. unfold clients_add. apply list_elem_of_In in Hin.
    now rewrite bool_decide_eq_true_2.
Qed.

(** X13.  An inbound message has exactly one effect, a reply or a log
    line, and a reply goes to the session the message came from: no
    other session receives anything. *)
Theorem message_has_one_effect (clients : list nat) (ws : nat) (message : string) :
  let result := handle clients (Message ws message) in
  length result.2 = 1
  /\ length (received ws result.2) <= 1
  /\ (forall c, c <> ws -> received c result.2 = []).
Proof.
  simpl. unfold onMessage.
  destruct (JSON_parse message) as [data|]; simpl.
  2:{ split; [reflexivity|]. split; [lia|]. intros c _. reflexivity. }
  destruct (property "type" data) as [type|]; simpl.
  2:{ split; [reflexivity|]. split; [lia|]. intros c _. reflexivity. }
  destruct (strictEq type "ping"); [|destruct (strictEq type "subscribe")]; simpl;
    rewrite ?Nat.eqb_refl; simpl; (split; [reflexivity|]); (split; [lia|]);
    intros c Hne; try reflexivity;
    destruct (Nat.eqb_spec ws c); congruence.
Qed.

End OneStep.

(** ** A session's view of a run *)

Lemma received_app (ws : nat) (a b : list Effect) :
  received ws (a ++ b) = (received ws a ++ received ws b)%list.
Proof.
  induction a as [|e a IH]; simpl; [reflexivity|].
  destruct e as [c m| |]; try assumption.
  destruct (Nat.eqb c ws); simpl; now rewrite IH.
Qed.

Lemma received_broadcast_absent (rs : nat -> nat) (clients : list nat)
    (data : Json) (ws : nat) :
  ~ In ws clients -> received ws (broadcast rs clients data) = [].
Proof.
  induction clients as [|c clients IH]; intros Hnot; simpl; [reflexivity|].
  rewrite received_app, IH by (intros H; apply Hnot; now right).
  destruct (Nat.eqb (rs c) 1); simpl; [|reflexivity].
  destruct (Nat.eqb_spec c ws) as [->|_]; [|reflexivity].
  exfalso. apply Hnot. now left.
Qed.

Lemma received_broadcast (rs : nat -> nat) (clients : list nat)
    (data : Json) (ws : nat) :
  NoDup clients -> In ws clients -> rs ws = OPEN ->
  received ws (broadcast rs clients data) = [data].
Proof.
  intros Hnd Hin Hopen. induction Hnd as [|c clients Hfresh Hnd IH]; [contradiction|].
  simpl. rewrite received_app. destruct Hin as [->|Hin].
  - rewrite Hopen. simpl. rewrite Nat.eqb_refl. simpl.
    rewrite received_broadcast_absent; [reflexivity|].
    intros H. apply Hfresh. now apply list_elem_of_In.
  - rewrite (IH Hin).
    assert (Hne : c <> ws).
    { intros ->. apply Hfresh. now apply list_elem_of_In. }
    destruct (Nat.eqb (rs c) 1); simpl; [|reflexivity].
    destruct (Nat.eqb_spec c ws); [contradiction|reflexivity].
Qed.

Lemma received_of_others_message parse now (c ws : nat) (message : string) :
  c <> ws -> received ws (onMessage parse now c message) = [].
Proof.
  intros Hne. unfold onMessage.
  destruct (parse message) as [data|]; [|reflexivity].
  destruct (property "type" data) as [type|]; [|reflexivity].
  destruct (strictEq type "ping"); [|destruct (strictEq type "subscribe")]; simpl;
    try reflexivity; destruct (Nat.eqb_spec c ws); congruence.
Qed.

(** X12.  A session that stays registered and open receives the change
    event of every [add], [change] and [unlink] the watcher emits, once,
    in the order in which the watcher emits them, and nothing else,
    whatever other sessions connect, send, close or fail in between. *)
Theorem session_receives_events_in_order (WORKSPACE_DIR : string)
    (JSON_parse : string -> option Json) (moments : list Moment)
    (clients : list nat) (ws : nat) :
  NoDup clients -> In ws clients ->
  Forall (fun m => own ws (input m) = false /\ states m ws = OPEN) moments ->
  received ws (run WORKSPACE_DIR JSON_parse clients moments).2
  = List.map eventData
      (flat_map (listened WORKSPACE_DIR) (notifications moments)).
Proof.
  intros Hnd Hin Hall. revert clients Hnd Hin.
  induction Hall as [|m rest [Hown Hopen] _ IH]; intros clients Hnd Hin; [reflexivity|].
  simpl.
  pose proof (step_NoDup WORKSPACE_DIR JSON_parse (time m) (states m) clients
                (input m) Hnd) as Hnd1.
  assert (Hstep :
    In ws (step WORKSPACE_DIR JSON_parse (time m) (states m) clients (input m)).1
    /\ received ws
         (step WORKSPACE_DIR JSON_parse (time m) (states m) clients (input m)).2
       = List.map eventData
           (flat_map (listened WORKSPACE_DIR)
              match input m with Watch e => [e] | _ => [] end)).
  { destruct (input m) as [c|c message|c|c|e]; simpl in Hown |- *;
      try apply Nat.eqb_neq in Hown.
    - split; [apply clients_add_In; now right|].
      destruct (Nat.eqb_spec c ws); [contradiction|reflexivity].
    - split; [assumption|]. now apply received_of_others_message.
    - split; [|reflexivity]. apply HubFacts.clients_delete_other; auto.
    - split; [|reflexivity]. apply HubFacts.clients_delete_other; auto.
    - split; [assumption|]. rewrite app_nil_r.
      unfold listened. destruct (listener WORKSPACE_DIR e) as [ev|]; simpl.
      + rewrite app_nil_r. now apply received_broadcast.
      + reflexivity. }
  destruct (step _ _ _ _ _ _) as [clients1 done1]. simpl in Hnd1, Hstep.
  destruct Hstep as [Hin1 Hdone1].
  specialize (IH clients1 Hnd1 Hin1).
  destruct (run _ _ clients1 rest) as [clients2 done2]. simpl in IH |- *.
  rewrite received_app, Hdone1, IH.
  unfold notifications. simpl. fold (notifications rest).
  now rewrite flat_map_app, List.map_app.
Qed.

Lemma session_receives_events_witness :
  let moments :=
    [ {| input := Watch (add "/app/workspace/src/app.js");
         time := 1; states := fun _ => OPEN |};
      {| input := Connection 3; time := 2; states := fun _ => OPEN |};
      {| input := Watch (addDir "/app/workspace/src/lib");
         time := 3; states := fun _ => OPEN |};
      {| input := Close 1; time := 4;
         states := fun c => if Nat.eqb c 1 then CLOSED else OPEN |};
      {| input := Watch (changeOf "/app/workspace/src/app.js");
         time := 5; states := fun c => if Nat.eqb c 1 then CLOSED else OPEN |} ] in
  received 2 (run "/app/workspace" (fun _ => None) [1; 2] moments).2
  = List.map eventData
      (flat_map (listened "/app/workspace") (notifications moments)).
Proof.
  apply (session_receives_events_in_order "/app/workspace" (fun _ => None)).
  - apply (bool_decide_unpack _). vm_compute. exact I.
  - simpl. right. now left.
  - repeat constructor.
Defined.

Example session_view :
  received 2
    (run "/app/workspace" (fun _ => None) [1; 2]
       [ {| input := Watch (add "/app/workspace/src/app.js");
            time := 1; states := fun _ => OPEN |};
         {| input := Watch (unlink "/app/workspace/src/app.js");
            time := 2; states := fun _ => OPEN |} ]).2
  = [ eventData {| kind := added; path := "src/app.js" |};
      eventData {| kind := deleted; path := "src/app.js" |} ].
Proof. reflexivity. Qed.

End HubRunFacts.

(* ===================================================================== *)
(** * The ignore pattern *)
(* ===================================================================== *)

Module IgnorePatternFacts.
Import Hub HubRuns.

(** X14.  The watcher ignores a path exactly when some component of it,
    counted from the start of the path or from a slash or backslash,
    begins with a dot that is followed by one more character other than
    a line terminator.  A dot inside a name ([app.js]) or at the very
    end of a path does not make it ignored. *)
Theorem ignored_iff_dot_component (p : string) :
  dotfile p = true <->
  exists pre rest,
    p = pre +:+ String "."%char rest /\
    component_starts_after pre /\ matchesDot rest = true.
Proof.
  unfold dotfile, component_starts_after. rewrite WatcherFacts.dotfileFrom_iff.
  split; intros [pre [rest [Heq [Hstart Hrest]]]]; exists pre, rest;
    (split; [assumption|]); (split; [|assumption]).
  - destruct Hstart as [[-> _]|H]; [now left|now right].
  - destruct Hstart as [->|H]; [left; now split|now right].
Qed.

Example dots_that_do_not_hide :
  dotfile "/app/workspace/src/app.config.js" = false /\
  dotfile "/app/workspace/notes." = false /\
  dotfile "/app/workspace/dir/." = false /\
  dotfile ".gitignore" = true /\
  dotfile "C:\work\.cache\x" = true.
Proof. repeat split; reflexivity. Qed.

End IgnorePatternFacts.

(* ===================================================================== *)
(** * Paths: from the routes to the watcher and back *)
(* ===================================================================== *)

Module PathFacts.
Import PathShapes.

Lemma append_cons (x : ascii) (a b : string) :
  String x a +:+ b = String x (a +:+ b).
Proof. reflexivity. Qed.

Lemma append_assoc (a b c : string) : (a +:+ b) +:+ c = a +:+ (b +:+ c).
Proof.
  induction a as [|x a IH]; [reflexivity|].
  rewrite !append_cons. f_equal. exact IH.
Qed.

Lemma append_not_empty_r (a b : string) : b <> "" -> a +:+ b <> "".
Proof. destruct a; simpl; [auto|discriminate]. Qed.

Lemma entryName_spec (s : string) :
  entryName s = true ->
  s <> "" /\ (String.eqb s "" || String.eqb s ".") = false
  /\ String.eqb s ".." = false /\ noSlash s = true.
Proof.
  unfold entryName. rewrite !andb_true_iff, !negb_true_iff.
  intros [[[H1 H2] H3] H4]. rewrite H1, H2.
  repeat split; try assumption. now apply String.eqb_neq.
Qed.

Lemma split_append (s t : string) :
  noSlash s = true -> Path.split (s +:+ String "/"%char t) = s :: Path.split t.
Proof.
  induction s as [|c s IH]; simpl; [reflexivity|].
  rewrite andb_true_iff, negb_true_iff. intros [Hc Hs].
  now rewrite Hc, (IH Hs).
Qed.

Lemma split_noSlash (s : string) : noSlash s = true -> Path.split s = [s].
Proof.
  induction s as [|c s IH]; simpl; [reflexivity|].
  rewrite andb_true_iff, negb_true_iff. intros [Hc Hs].
  now rewrite Hc, (IH Hs).
Qed.

Lemma concat_cons (x y : string) (l : list string) :
  String.concat "/" (x :: y :: l) = x +:+ String "/"%char (String.concat "/" (y :: l)).
Proof. reflexivity. Qed.

Lemma split_concat (names : list string) :
  Forall (fun s => entryName s = true) names -> names <> [] ->
  Path.split (String.concat "/" names) = names.
Proof.
  induction 1 as [|x l Hx Hl IH]; intros Hne; [contradiction|].
  apply entryName_spec in Hx as [_ [_ [_ Hx]]].
  destruct l as [|y l]; [now apply split_noSlash|].
  rewrite concat_cons, split_append by assumption.
  now rewrite IH.
Qed.

Lemma concat_not_empty (names : list string) :
  Forall (fun s => entryName s = true) names -> names <> [] ->
  String.concat "/" names <> "".
Proof.
  intros Hall Hne. destruct Hall as [|x l Hx Hl]; [contradiction|].
  apply entryName_spec in Hx as [Hx _].
  destruct l; simpl; [assumption|]. destruct x; [contradiction|discriminate].
Qed.

Lemma concat_app (a b : list string) :
  a <> [] -> b <> [] ->
  String.concat "/" (a ++ b)
  = String.concat "/" a +:+ String "/"%char (String.concat "/" b).
Proof.
  intros Ha Hb. induction a as [|x a IH]; [contradiction|].
  destruct a as [|y a].
  - destruct b; [contradiction|reflexivity].
  - change ((x :: y :: a) ++ b)%list with (x :: y :: (a ++ b))%list.
    rewrite !concat_cons. change (y :: (a ++ b))%list with ((y :: a) ++ b)%list.
    rewrite IH by discriminate. now rewrite append_assoc.
Qed.

Lemma endsWithSep_append (s t : string) :
  t <> "" -> Path.endsWithSep (s +:+ t) = Path.endsWithSep t.
Proof.
  intros Ht. induction s as [|c s IH]; simpl; [reflexivity|].
  destruct (s +:+ t) eqn:E; [|assumption].
  exfalso. now apply (append_not_empty_r s t).
Qed.

Lemma endsWithSep_noSlash (s : string) :
  noSlash s = true -> Path.endsWithSep s = false.
Proof.
  induction s as [|c s IH]; simpl; [reflexivity|].
  rewrite andb_true_iff, negb_true_iff. intros [Hc Hs].
  destruct s; [assumption|now apply IH].
Qed.

Lemma endsWithSep_concat (names : list string) :
  Forall (fun s => entryName s = true) names ->
  Path.endsWithSep (String.concat "/" names) = false.
Proof.
  induction 1 as [|x l Hx Hl IH]; [reflexivity|].
  destruct l as [|y l].
  - apply entryName_spec in Hx as [_ [_ [_ Hx]]]. now apply endsWithSep_noSlash.
  - rewrite concat_cons.
    change (String "/"%char (String.concat "/" (y :: l)))
      with ("/" +:+ String.concat "/" (y :: l)).
    rewrite <- append_assoc, endsWithSep_append; [assumption|].
    now apply concat_not_empty.
Qed.

Lemma normalizeSegs_names (above : bool) (names res : list string) :
  Forall (fun s => entryName s = true) names ->
  Path.normalizeSegs above res names = (rev res ++ names)%list.
Proof.
  intros Hall. revert res.
  induction Hall as [|x l Hx Hl IH]; intros res; simpl.
  - now rewrite app_nil_r.
  - apply entryName_spec in Hx as [_ [H1 [H2 _]]]. rewrite H1, H2, IH. simpl.
    now rewrite <- app_assoc.
Qed.

Lemma normalize_absolute (names : list string) :
  Forall (fun s => entryName s = true) names -> names <> [] ->
  Path.normalize (absolute names) = absolute names.
Proof.
  intros Hall Hne. unfold Path.normalize, absolute.
  pose proof (split_concat _ Hall Hne) as Hsplit.
  pose proof (concat_not_empty _ Hall Hne) as Hbody.
  pose proof (endsWithSep_concat _ Hall) as Hend.
  remember (String.concat "/" names) as body eqn:E.
  change ("/" +:+ body) with (String "/"%char body).
  assert (Hend' : Path.endsWithSep (String "/"%char body) = false).
  { destruct body; [contradiction|exact Hend]. }
  rewrite Hend'. simpl. rewrite Hsplit, (normalizeSegs_names _ _ _ Hall). simpl.
  rewrite <- E.
  destruct (String.eqb_spec body ""); [contradiction|reflexivity].
Qed.

Lemma components_absolute (names : list string) :
  Forall (fun s => entryName s = true) names -> names <> [] ->
  Path.components (absolute names) = names.
Proof.
  intros Hall Hne. unfold Path.components, absolute.
  pose proof (split_concat _ Hall Hne) as Hsplit.
  remember (String.concat "/" names) as body eqn:E.
  change ("/" +:+ body) with (String "/"%char body). simpl. rewrite Hsplit.
  clear Hne Hsplit E. induction Hall as [|x l Hx Hl IH]; simpl; [reflexivity|].
  apply entryName_spec in Hx as [Hx _].
  destruct (String.eqb_spec x ""); [contradiction|]. simpl. now rewrite IH.
Qed.

Lemma join_absolute (root names : list string) :
  Forall (fun s => entryName s = true) root -> root <> [] ->
  Forall (fun s => entryName s = true) names -> names <> [] ->
  Path.join [absolute root; String.concat "/" names] = absolute (root ++ names).
Proof.
  intros Hroot Hr Hnames Hn. unfold Path.join. simpl.
  destruct (String.eqb_spec (String.concat "/" names) "") as [E|_].
  { now apply concat_not_empty in E. }
  simpl. change (String "/"%char (String.concat "/" names))
    with ("/" +:+ String.concat "/" names).
  replace (absolute root +:+ "/" +:+ String.concat "/" names)
    with (absolute (root ++ names)).
  - apply normalize_absolute; [now apply Forall_app|].
    destruct root; [contradiction|discriminate].
  - unfold absolute. rewrite concat_app by assumption. simpl.
    reflexivity.
Qed.

Lemma dropCommon_prefix (root names : list string) :
  Path.dropCommon root (root ++ names) = ([], names).
Proof.
  induction root as [|x root IH]; simpl; [now destruct names|].
  now rewrite String.eqb_refl.
Qed.

(** X15.  With the workspace at an absolute path of entry names, the
    path of a workspace entry, joined to the workspace directory as the
    routes do and made relative to it as the watcher does, is the path
    itself: the change events name a file by the very path a client
    reads and writes it with. *)
Theorem relative_of_join (root names : list string) :
  Forall (fun s => entryName s = true) root -> root <> [] ->
  Forall (fun s => entryName s = true) names -> names <> [] ->
  let WORKSPACE_DIR := absolute root in
  let filePath := String.concat "/" names in
  let fullPath := Path.join [WORKSPACE_DIR; filePath] in
  Path.relative WORKSPACE_DIR fullPath = filePath
  /\ JS.startsWith fullPath WORKSPACE_DIR = true
  /\ Hub.listener WORKSPACE_DIR (Hub.changeOf fullPath)
     = Some {| Hub.kind := Hub.changed; Hub.path := filePath |}.
Proof.
  intros Hroot Hr Hnames Hn. simpl.
  assert (Hall : Forall (fun s => entryName s = true) (root ++ names))
    by now apply Forall_app.
  assert (Hne : (root ++ names)%list <> []) by (destruct root; [contradiction|discriminate]).
  assert (Hrel : Path.relative (absolute root)
                   (Path.join [absolute root; String.concat "/" names])
                 = String.concat "/" names).
  { rewrite (join_absolute _ _ Hroot Hr Hnames Hn). unfold Path.relative.
    rewrite !normalize_absolute, !components_absolute by assumption.
    now rewrite dropCommon_prefix. }
  split; [exact Hrel|]. split.
  - rewrite (join_absolute _ _ Hroot Hr Hnames Hn). unfold JS.startsWith, absolute.
    rewrite concat_app by assumption. simpl.
    generalize (String.concat "/" root) as a.
    induction a as [|c a IH]; simpl; [reflexivity|].
    destruct (Ascii.ascii_dec c c); [assumption|contradiction].
  - simpl. now rewrite Hrel.
Qed.

Lemma relative_of_join_witness :
  let WORKSPACE_DIR := absolute ["app"; "workspace"] in
  let filePath := String.concat "/" ["src"; "app.js"] in
  let fullPath := Path.join [WORKSPACE_DIR; filePath] in
  Path.relative WORKSPACE_DIR fullPath = filePath
  /\ JS.startsWith fullPath WORKSPACE_DIR = true
  /\ Hub.listener WORKSPACE_DIR (Hub.changeOf fullPath)
     = Some {| Hub.kind := Hub.changed; Hub.path := filePath |}.
Proof.
  apply (relative_of_join ["app"; "workspace"] ["src"; "app.js"]);
    first [discriminate | repeat constructor].
Defined.

End PathFacts.

(* ===================================================================== *)
(** * Further properties of the client reconciler *)
(* ===================================================================== *)

Module ReconcilerFacts.
Import FileContext ContextShapes FileContextFacts.

#[local] Arguments JS.get : simpl never.
#[local] Arguments JS.assign : simpl never.
#[local] Arguments JS.includes : simpl never.

Section Provider.

Variable server : Server.

(** X16.  The functions that write through the server change no state
    when the server rejects the request: they send the one request and
    reject with the server's error. *)
Theorem rejected_request_changes_nothing (s : State) (error : string) :
  (forall p c, update_response server (PostWrite p c) = inl error ->
     saveFile server p c s = (s, [PostWrite p c], inl error))
  /\ (forall p t c, update_response server (PostCreate p t c) = inl error ->
     createFile server p t c s = (s, [PostCreate p t c], inl error))
  /\ (forall p, update_response server (DeleteDelete p) = inl error ->
     call (fun render => deleteFile server render p) s
     = (s, [DeleteDelete p], inl error))
  /\ (forall o n, update_response server (PostRename o n) = inl error ->
     call (fun render => renameFile server render o n) s
     = (s, [PostRename o n], inl error))
  /\ (forall p, read_response server p = inl error ->
     loadFile server p s = (s, [GetRead p], inl error)).
Proof.
  repeat split; intros; unfold_async; rewrite H; reflexivity.
Qed.

(** X18.  [loadFileTree] always resolves and always ends with [loading]
    off; it sends one request for the tree, replaces [fileTree] by the
    tree the server returns, keeps the old tree when the request fails,
    and touches nothing else. *)
Theorem loadFileTree_always_resolves (s : State) :
  let s' := after (loadFileTree server) s in
  outcome (loadFileTree server) s = inr tt
  /\ sent (loadFileTree server) s = [GetTree]
  /\ loading s' = false
  /\ fileTree s' = match tree_response server with
                   | inr tree => tree
                   | inl _ => fileTree s
                   end
  /\ openFiles s' = openFiles s /\ activeFile s' = activeFile s
  /\ fileContents s' = fileContents s.
Proof.
  unfold_async. destruct (tree_response server); simpl; repeat split.
Qed.

(** X20.  [openFile] sends a read for the path exactly when
    [fileContents[path]] of the render is falsy, and that is the case
    when the path has no own entry and is not the name of a member of
    [Object.prototype], or when its own entry is [undefined] or the
    empty content; the content read is cached under the path.  When
    the read fails, [openFile] rejects, and the path is open and active
    all the same. *)
Theorem openFile_reads_what_is_not_cached (s : State) (p : string) :
  let run := call (fun render => openFile server render p) in
  let cached := JS.toBoolean (JS.get (fileContents s) p) in
  sent run s = (if cached then [] else [GetRead p])
  /\ (cached = false <->
        (fileContents s !! p = None /\ ~ In p JS.Object_prototype)
        \/ fileContents s !! p = Some JS.VUndefined
        \/ fileContents s !! p = Some (JS.VString ""))
  /\ (cached = true ->
        fileContents (after run s) = fileContents s /\ outcome run s = inr tt)
  /\ (cached = false ->
        match read_response server p with
        | inr content =>
            fileContents (after run s)
            = <[p := JS.VString content]> (fileContents s)
            /\ outcome run s = inr tt
        | inl error =>
            fileContents (after run s) = fileContents s
            /\ outcome run s = inl error
        end)
  /\ In p (openFiles (after run s)) /\ activeFile (after run s) = Some p.
Proof.
  cbv zeta. split; [|split].
  - unfold_async. destruct (JS.includes (openFiles s) p); simpl;
      destruct (JS.toBoolean (JS.get (fileContents s) p)); simpl;
      try destruct (read_response server p); reflexivity.
  - unfold JS.get. destruct (fileContents s !! p) as [[|content|m]|] eqn:Hown; simpl.
    + split; [auto|reflexivity].
    + destruct (String.eqb_spec content "") as [->|Hne]; simpl.
      * split; [auto|reflexivity].
      * split; [discriminate|]. intros [[H _]|[H|H]]; congruence.
    + split; [discriminate|]. intros [[H _]|[H|H]]; discriminate H.
    + destruct (JS.includes JS.Object_prototype p) eqn:Hinc; simpl.
      * split; [discriminate|]. intros [[_ H]|[H|H]]; try discriminate H.
        exfalso. apply H. apply (includes_In JS.Object_prototype p). exact Hinc.
      * split; [|reflexivity]. intros _. left. split; [reflexivity|].
        intros H. apply (includes_In JS.Object_prototype p) in H. congruence.
  - unfold_async.
    destruct (JS.includes (openFiles s) p) eqn:Hinc; simpl;
      destruct (JS.toBoolean (JS.get (fileContents s) p)); simpl;
      try destruct (read_response server p); simpl;
      repeat split; try discriminate; try reflexivity;
      first [ now apply includes_In | apply in_or_app; right; now left ].
Qed.

(** X17.  A save the server accepts is echoed into the cache at once:
    the path holds the saved content, every other entry and the open
    files are as before, and one request was sent.  A file saved with
    some content then opens from the cache, without a read; a file
    saved empty is read again when it is opened. *)
Theorem saveFile_echoes_into_cache (s : State) (p content : string) :
  update_response server (PostWrite p content) = inr tt ->
  let saved := after (saveFile server p content) s in
  outcome (saveFile server p content) s = inr true
  /\ sent (saveFile server p content) s = [PostWrite p content]
  /\ fileContents saved !! p = Some (JS.VString content)
  /\ (forall q, q <> p -> fileContents saved !! q = fileContents s !! q)
  /\ openFiles saved = openFiles s /\ activeFile saved = activeFile s
  /\ sent (call (fun render => openFile server render p)) saved
     = (if String.eqb content "" then [GetRead p] else []).
Proof.
  intros Hok. unfold_async. rewrite Hok. simpl.
  split; [reflexivity|]. split; [reflexivity|].
  split; [apply lookup_insert_eq|].
  split; [intros q Hq; now apply lookup_insert_ne|].
  split; [reflexivity|]. split; [reflexivity|].
  rewrite (get_own _ _ (JS.VString content)) by apply lookup_insert_eq. simpl.
  destruct (JS.includes (openFiles s) p); simpl;
    destruct (String.eqb content ""); simpl; try reflexivity;
    destruct (read_response server p); reflexivity.
Qed.

(** X19.  A delete the server accepts evicts the path: it is no longer
    among the open files and has no cached content, while every other
    open file and cached entry stays; the tree is fetched again. *)
Theorem deleteFile_evicts_the_path (s : State) (p : string) :
  update_response server (DeleteDelete p) = inr tt ->
  let run := call (fun render => deleteFile server render p) in
  outcome run s = inr true
  /\ sent run s = [DeleteDelete p; GetTree]
  /\ ~ In p (openFiles (after run s))
  /\ fileContents (after run s) !! p = None
  /\ (forall q, q <> p ->
        (In q (openFiles (after run s)) <-> In q (openFiles s))
        /\ fileContents (after run s) !! q = fileContents s !! q)
  /\ (activeFile s <> Some p -> activeFile (after run s) = activeFile s).
Proof.
  intros Hok. unfold_async. rewrite Hok. simpl.
  case_bool_decide as Hactive; simpl; destruct (tree_response server); simpl;
    (split; [reflexivity|]); (split; [reflexivity|]);
    (split; [rewrite filter_without; tauto|]);
    (split; [apply lookup_delete_eq|]);
    (split; [intros q Hq; split;
               [rewrite filter_without; tauto|now apply lookup_delete_ne]|]);
    intros Hne; congruence.
Qed.

Lemma indexOf_middle (pre post : list string) (p : string) :
  ~ In p pre -> JS.indexOf (pre ++ p :: post) p = Z.of_nat (length pre).
Proof.
  induction pre as [|y pre IH]; intros Hnot; simpl.
  - now rewrite String.eqb_refl.
  - destruct (String.eqb_spec y p) as [->|Hne]; [exfalso; apply Hnot; now left|].
    rewrite IH by (intros H; apply Hnot; now right).
    destruct (Z.ltb_spec (Z.of_nat (length pre)) 0); lia.
Qed.

Lemma truthy_Some (q : string) : q <> "" -> JS.truthy (Some q) = true.
Proof. intros Hq. unfold JS.truthy. now destruct (String.eqb_spec q ""). Qed.

(** X21.  Closing the active file makes its left neighbour among the
    open files active, or its right neighbour when it was the first,
    or no file when it was the only one; the other open files keep
    their order.  Closing a file that is not active leaves the active
    file as it is. *)
Theorem closeFile_selects_the_neighbour (s : State) (pre post : list string)
    (p : string) :
  openFiles s = (pre ++ p :: post)%list -> NoDup (openFiles s) ->
  Forall (fun q => q <> "") (openFiles s) ->
  let s' := after (call (fun render => closeFile render p)) s in
  openFiles s' = (pre ++ post)%list
  /\ (activeFile s = Some p ->
        activeFile s' = match last pre with
                        | Some prev => Some prev
                        | None => head post
                        end)
  /\ (activeFile s <> Some p -> activeFile s' = activeFile s).
Proof.
  intros Hopen Hnd Hnames s'.
  destruct (closeFile_effect s p) as [Hfiles Hactive]. fold s' in Hfiles, Hactive.
  rewrite Hopen in *.
  apply NoDup_app in Hnd as [_ [Hpre Hpost]].
  assert (Hnot_pre : ~ In p pre).
  { intros H. apply (Hpre p); [now apply list_elem_of_In|left]. }
  assert (Hnot_post : ~ In p post).
  { apply NoDup_cons in Hpost as [H _]. intros H'. apply H. now apply list_elem_of_In. }
  split; [|split].
  - rewrite Hfiles, List.filter_app. simpl. rewrite String.eqb_refl. simpl.
    now rewrite !filter_fresh.
  - intros Hp. rewrite Hactive, bool_decide_eq_true_2 by assumption. simpl.
    rewrite (indexOf_middle _ _ _ Hnot_pre).
    assert (Hleft : JS.index (pre ++ p :: post) (Z.of_nat (length pre) - 1) = last pre).
    { unfold JS.index. rewrite last_lookup.
      destruct pre as [|x pre'] eqn:E; [reflexivity|]. rewrite <- E.
      assert (Hlen : length pre = S (length pre')) by now rewrite E.
      destruct (Z.ltb_spec (Z.of_nat (length pre) - 1) 0); [lia|].
      replace (Z.to_nat (Z.of_nat (length pre) - 1)) with (Init.Nat.pred (length pre))
        by lia.
      apply lookup_app_l. lia. }
    assert (Hright : JS.index (pre ++ p :: post) (Z.of_nat (length pre) + 1) = head post).
    { unfold JS.index.
      destruct (Z.ltb_spec (Z.of_nat (length pre) + 1) 0); [lia|].
      replace (Z.to_nat (Z.of_nat (length pre) + 1)) with (length pre + 1) by lia.
      rewrite lookup_app_r by lia.
      replace (length pre + 1 - length pre) with 1 by lia. now destruct post. }
    rewrite Hleft, Hright.
    destruct (last pre) as [prev|] eqn:Hlast.
    + unfold JS.or_else at 1. rewrite truthy_Some; [reflexivity|].
      rewrite List.Forall_forall in Hnames. apply Hnames.
      apply in_or_app. left. apply list_elem_of_In.
      rewrite last_lookup in Hlast. now apply list_elem_of_lookup_2 in Hlast.
    + unfold JS.or_else at 1. simpl. destruct post as [|next post']; [reflexivity|].
      simpl. unfold JS.or_else. rewrite truthy_Some; [reflexivity|].
      rewrite List.Forall_forall in Hnames. apply Hnames.
      apply in_or_app. right. right. now left.
  - intros Hp. rewrite Hactive. now rewrite bool_decide_eq_false_2.
Qed.

(** X22.  A state in which the open files are distinct and the active
    file is one of them stays so under [openFile] and [closeFile] of
    any path, under [saveFile], [createFile] and the socket's handler,
    under a rename to a path that is not open, and under the delete of
    a path that is not the active file. *)
Theorem tidy_states_stay_tidy (s : State) :
  tidy s ->
  (forall p, tidy (after (call (fun render => openFile server render p)) s))
  /\ (forall p, tidy (after (call (fun render => closeFile render p)) s))
  /\ (forall p c, tidy (after (saveFile server p c) s))
  /\ (forall p t c, tidy (after (createFile server p t c) s))
  /\ (forall data, tidy (after (websocket_onmessage server data) s))
  /\ (forall o n, update_response server (PostRename o n) = inr tt ->
        ~ In n (openFiles s) ->
        tidy (after (call (fun render => renameFile server render o n)) s))
  /\ (forall p, activeFile s <> Some p ->
        tidy (after (call (fun render => deleteFile server render p)) s)).
Proof.
  intros [Hnd Hinv].
  assert (Hsame : forall s', openFiles s' = openFiles s ->
                    activeFile s' = activeFile s -> tidy s').
  { intros s' Hf Ha. unfold tidy, active_is_open. now rewrite Hf, Ha. }
  split; [|split; [|split; [|split; [|split; [|split]]]]].
  - intros p. split; [|apply openFile_keeps_invariant].
    destruct (openFile_effect server s p) as [-> _].
    destruct (JS.includes (openFiles s) p) eqn:E; [assumption|].
    apply NoDup_app. split; [assumption|]. split; [|apply NoDup_singleton].
    intros x Hx Hx'. apply list_elem_of_singleton in Hx'. subst x.
    apply list_elem_of_In, includes_In in Hx. congruence.
  - intros p. split; [|now apply closeFile_keeps_invariant].
    destruct (closeFile_effect s p) as [-> _].
    clear Hinv Hsame. induction Hnd as [|x l Hx Hl IH]; simpl; [constructor|].
    destruct (negb (String.eqb x p)); [|assumption].
    constructor; [|assumption]. intros H. apply Hx.
    apply list_elem_of_In in H. apply filter_without in H as [H _].
    now apply list_elem_of_In.
  - intros p c. destruct (others_keep_open_files server s) as [H _].
    destruct (H p c). now apply Hsame.
  - intros p t c. destruct (others_keep_open_files server s) as [_ [H _]].
    destruct (H p t c). now apply Hsame.
  - intros data. destruct (others_keep_open_files server s) as [_ [_ H]].
    destruct (H mount data). now apply Hsame.
  - intros o n Hok Hfresh. split; [|now apply renameFile_keeps_invariant].
    destruct (renameFile_effect server s o n Hok) as [-> _].
    clear Hinv Hsame. induction Hnd as [|x l Hx Hl IH]; simpl; [constructor|].
    assert (Hfresh' : ~ In n l) by (intros H; apply Hfresh; now right).
    constructor; [|now apply IH].
    intros H. apply list_elem_of_In, in_map_iff in H as [y [Hy Hin]].
    destruct (String.eqb_spec x o) as [Hxo|Hxo];
      destruct (String.eqb_spec y o) as [Hyo|Hyo].
    + apply Hx. apply list_elem_of_In. congruence.
    + apply Hfresh'. congruence.
    + apply Hfresh. left. congruence.
    + apply Hx. apply list_elem_of_In. congruence.
  - intros p Hp.
    assert (Hfiles : openFiles (after (call (fun render => deleteFile server render p)) s)
              = openFiles s \/
            openFiles (after (call (fun render => deleteFile server render p)) s)
              = List.filter (fun f => negb (String.eqb f p)) (openFiles s)).
    { unfold_async. destruct (update_response server _) as [?|[]]; simpl; [now left|].
      rewrite bool_decide_eq_false_2 by assumption. simpl.
      destruct (tree_response server); now right. }
    assert (Hact : activeFile (after (call (fun render => deleteFile server render p)) s)
              = activeFile s).
    { unfold_async. destruct (update_response server _) as [?|[]]; simpl; [reflexivity|].
      rewrite bool_decide_eq_false_2 by assumption. simpl.
      destruct (tree_response server); reflexivity. }
    destruct Hfiles as [Hfiles|Hfiles]; [now apply Hsame|].
    unfold tidy, active_is_open. rewrite Hfiles, Hact. split.
    + clear Hinv Hsame Hfiles Hact Hp.
      induction Hnd as [|x l Hx Hl IH]; simpl; [constructor|].
      destruct (negb (String.eqb x p)); [|assumption].
      constructor; [|assumption]. intros H. apply Hx.
      apply list_elem_of_In in H. apply filter_without in H as [H _].
      now apply list_elem_of_In.
    + unfold active_is_open in Hinv. destruct (activeFile s) as [a|]; [|exact I].
      apply list_elem_of_In, filter_without. split; [now apply list_elem_of_In|].
      intros ->. now apply Hp.
Qed.

(** X23.  Renaming a file and renaming it back restores the open files,
    the active file and the cache, when neither path is the name of a
    member of [Object.prototype], the interim path was neither open nor
    cached nor active, and both renames are accepted. *)
Theorem rename_there_and_back (s : State) (a b : string) :
  update_response server (PostRename a b) = inr tt ->
  update_response server (PostRename b a) = inr tt ->
  ~ In a JS.Object_prototype -> ~ In b JS.Object_prototype ->
  a <> b -> ~ In b (openFiles s) -> fileContents s !! b = None ->
  activeFile s <> Some b ->
  let there := after (call (fun render => renameFile server render a b)) s in
  let back := after (call (fun render => renameFile server render b a)) there in
  openFiles back = openFiles s /\ activeFile back = activeFile s
  /\ fileContents back = fileContents s.
Proof.
  intros Hab Hba Hplain_a Hplain_b Hne Hopen Hcache Hactive there back.
  destruct (renameFile_effect server s a b Hab) as [Hf1 [Ha1 Hc1]].
  destruct (renameFile_effect server there b a Hba) as [Hf2 [Ha2 Hc2]].
  fold there in Hf1, Ha1, Hc1. fold back in Hf2, Ha2, Hc2.
  assert (Ha_proto : a <> "__proto__").
  { intros ->. apply Hplain_a. vm_compute. tauto. }
  assert (Hb_proto : b <> "__proto__").
  { intros ->. apply Hplain_b. vm_compute. tauto. }
  split; [|split].
  - rewrite Hf2, Hf1, List.map_map. clear -Hopen.
    induction (openFiles s) as [|x l IH]; simpl; [reflexivity|].
    rewrite IH by (intros H; apply Hopen; now right). f_equal.
    destruct (String.eqb_spec x a) as [->|Hxa].
    + now rewrite String.eqb_refl.
    + destruct (String.eqb_spec x b) as [->|_]; [|reflexivity].
      exfalso. apply Hopen. now left.
  - rewrite Ha2, Ha1. destruct (decide (activeFile s = Some a)) as [E|E].
    + rewrite (bool_decide_eq_true_2 _ E).
      rewrite bool_decide_eq_true_2 by reflexivity. now rewrite E.
    + rewrite (bool_decide_eq_false_2 _ E).
      now rewrite bool_decide_eq_false_2 by assumption.
  - rewrite Hc2, Hc1. clear Hf1 Ha1 Hc1 Hf2 Ha2 Hc2.
    assert (Hb_undefined : JS.toBoolean (JS.get (fileContents s) b) = false).
    { now rewrite (get_plain _ _ Hcache Hplain_b). }
    destruct (JS.toBoolean (JS.get (fileContents s) a)) eqn:Htruthy;
      [|now rewrite Hb_undefined].
    destruct (fileContents s !! a) as [v|] eqn:Hcached.
    2:{ rewrite (get_plain _ _ Hcached Hplain_a) in Htruthy. discriminate. }
    rewrite (get_own _ _ _ Hcached) in *.
    rewrite (assign_plain _ b v Hb_proto).
    assert (Hthere : delete a (<[b := v]> (fileContents s)) !! b = Some v).
    { rewrite lookup_delete_ne by congruence. apply lookup_insert_eq. }
    rewrite (get_own _ _ _ Hthere), Htruthy.
    rewrite (assign_plain _ a v Ha_proto).
    apply map_eq. intros k.
    destruct (decide (k = a)) as [Hka|Hka]; [|destruct (decide (k = b)) as [Hkb|Hkb]].
    + subst k. rewrite lookup_delete_ne, lookup_insert_eq by congruence.
      now rewrite Hcached.
    + subst k. rewrite lookup_delete_eq. now rewrite Hcache.
    + rewrite lookup_delete_ne, lookup_insert_ne, lookup_delete_ne,
        lookup_insert_ne by congruence. reflexivity.
Qed.

End Provider.

Lemma saveFile_echoes_witness :
  let server := accepting [] "" in
  let s := editing ["a.js"] (Some "a.js") {["a.js" := JS.VString "old"]} in
  let saved := after (saveFile server "a.js" "new") s in
  outcome (saveFile server "a.js" "new") s = inr true
  /\ sent (saveFile server "a.js" "new") s = [PostWrite "a.js" "new"]
  /\ fileContents saved !! "a.js" = Some (JS.VString "new")
  /\ (forall q, q <> "a.js" -> fileContents saved !! q = fileContents s !! q)
  /\ openFiles saved = openFiles s /\ activeFile saved = activeFile s
  /\ sent (call (fun render => openFile server render "a.js")) saved
     = (if String.eqb "new" "" then [GetRead "a.js"] else []).
Proof.
  apply (saveFile_echoes_into_cache (accepting [] "")
           (editing ["a.js"] (Some "a.js") {["a.js" := JS.VString "old"]})
           "a.js" "new").
  reflexivity.
Defined.

Lemma deleteFile_evicts_witness :
  let server := accepting [] "" in
  let s := editing ["a.js"; "b.js"] (Some "a.js")
             {["b.js" := JS.VString "let b"]} in
  let run := call (fun render => deleteFile server render "b.js") in
  outcome run s = inr true
  /\ sent run s = [DeleteDelete "b.js"; GetTree]
  /\ ~ In "b.js" (openFiles (after run s))
  /\ fileContents (after run s) !! "b.js" = None
  /\ (forall q, q <> "b.js" ->
        (In q (openFiles (after run s)) <-> In q (openFiles s))
        /\ fileContents (after run s) !! q = fileContents s !! q)
  /\ (activeFile s <> Some "b.js" -> activeFile (after run s) = activeFile s).
Proof.
  apply (deleteFile_evicts_the_path (accepting [] "")
           (editing ["a.js"; "b.js"] (Some "a.js")
              {["b.js" := JS.VString "let b"]}) "b.js").
  reflexivity.
Defined.

Lemma closeFile_selects_witness :
  let s := editing ["a.js"; "b.js"; "c.js"] (Some "b.js") ∅ in
  let s' := after (call (fun render => closeFile render "b.js")) s in
  openFiles s' = (["a.js"] ++ ["c.js"])%list
  /\ (activeFile s = Some "b.js" ->
        activeFile s' = match last ["a.js"] with
                        | Some prev => Some prev
                        | None => head ["c.js"]
                        end)
  /\ (activeFile s <> Some "b.js" -> activeFile s' = activeFile s).
Proof.
  apply (closeFile_selects_the_neighbour
           (editing ["a.js"; "b.js"; "c.js"] (Some "b.js") ∅)
           ["a.js"] ["c.js"] "b.js").
  - reflexivity.
  - apply (bool_decide_unpack _). vm_compute. exact I.
  - simpl. repeat constructor; discriminate.
Defined.

Lemma tidy_states_witness :
  let server := accepting [] "" in
  let s := editing ["a.js"; "b.js"] (Some "a.js") ∅ in
  (forall p, tidy (after (call (fun render => openFile server render p)) s))
  /\ (forall p, tidy (after (call (fun render => closeFile render p)) s))
  /\ (forall p c, tidy (after (saveFile server p c) s))
  /\ (forall p t c, tidy (after (createFile server p t c) s))
  /\ (forall data, tidy (after (websocket_onmessage server data) s))
  /\ (forall o n, update_response server (PostRename o n) = inr tt ->
        ~ In n (openFiles s) ->
        tidy (after (call (fun render => renameFile server render o n)) s))
  /\ (forall p, activeFile s <> Some p ->
        tidy (after (call (fun render => deleteFile server render p)) s)).
Proof.
  apply (tidy_states_stay_tidy (accepting [] "")
           (editing ["a.js"; "b.js"] (Some "a.js") ∅)).
  split.
  - apply (bool_decide_unpack _). vm_compute. exact I.
  - unfold active_is_open. simpl. apply list_elem_of_In. now left.
Defined.

Lemma rename_there_and_back_witness :
  let server := accepting [] "" in
  let s := editing ["a.js"; "c.js"] (Some "a.js")
             {["a.js" := JS.VString "let a"]} in
  let there := after (call (fun render => renameFile server render "a.js" "b.js")) s in
  let back := after (call (fun render => renameFile server render "b.js" "a.js")) there in
  openFiles back = openFiles s /\ activeFile back = activeFile s
  /\ fileContents back = fileContents s.
Proof.
  apply (rename_there_and_back (accepting [] "")
           (editing ["a.js"; "c.js"] (Some "a.js")
              {["a.js" := JS.VString "let a"]})
           "a.js" "b.js");
    try reflexivity; try discriminate;
    simpl; intuition discriminate.
Defined.

End ReconcilerFacts.

(* ===================================================================== *)
(** * From an event of the watcher to a client's request *)
(* ===================================================================== *)

Module EndToEndFacts.
Import FileContext FileContextFacts.

#[local] Arguments JS.get : simpl never.
#[local] Arguments JS.includes : simpl never.

(** X24.  Each change event that the hub broadcasts for an event of
    the watcher makes a client send what the kind of change calls for:
    an [add] or an [unlink] makes every handler fetch the whole tree; a
    [change] makes a handler read the file again exactly when
    [fileContents[path]] of the render it belongs to is truthy; the
    handler the socket actually has, the one of the first render with
    its empty [fileContents], reads the file again only when the path
    is the name of a member of [Object.prototype], and sends nothing
    for any other changed path.  An [addDir] or [unlinkDir] makes the
    hub broadcast nothing, so no handler is called. *)
Theorem client_requests_follow_notifications (WORKSPACE_DIR : string)
    (e : Hub.WatcherEvent) (server : Server) (render s : State) :
  Forall (fun ev =>
    sent (onmessage server render (ofEvent ev)) s
      = match Hub.kind ev with
        | Hub.changed =>
            if JS.toBoolean (JS.get (fileContents render) (Hub.path ev))
            then [GetRead (Hub.path ev)] else []
        | _ => [GetTree]
        end
    /\ sent (websocket_onmessage server (ofEvent ev)) s
      = match Hub.kind ev with
        | Hub.changed =>
            if JS.includes JS.Object_prototype (Hub.path ev)
            then [GetRead (Hub.path ev)] else []
        | _ => [GetTree]
        end)
    (Hub.listened WORKSPACE_DIR e)
  /\ Hub.listened WORKSPACE_DIR e
     = match WatcherSpec.kindOf e with
       | Some k =>
           [ {| Hub.kind := k;
                Hub.path := Path.relative WORKSPACE_DIR (Hub.filePath e) |} ]
       | None => []
       end.
Proof.
  split; [|now destruct e].
  destruct e; unfold Hub.listened; simpl;
    first [now constructor | (constructor; [|now constructor])];
    unfold_async; unfold mount; simpl;
    rewrite ?(get_inherited _ _ (lookup_empty _)).
  - destruct (tree_response server); split; reflexivity.
  - split.
    + destruct (JS.toBoolean _); simpl; [|reflexivity].
      destruct (read_response server _); reflexivity.
    + destruct (JS.includes _ _); simpl; [|reflexivity].
      destruct (read_response server _); reflexivity.
  - destruct (tree_response server); split; reflexivity.
Qed.

Example change_of_a_file_named_constructor :
  sent (websocket_onmessage (accepting [] "text")
          (ofEvent {| Hub.kind := Hub.changed; Hub.path := "constructor" |})) mount
  = [GetRead "constructor"]
  /\ sent (websocket_onmessage (accepting [] "text")
            (ofEvent {| Hub.kind := Hub.changed; Hub.path := "src/app.js" |})) mount
     = [].
Proof. split; reflexivity. Qed.

End EndToEndFacts.

(* ===================================================================== *)
(** * Properties of the AI routes and of the model's client *)
(* ===================================================================== *)

Module AiRouteFacts.
Import Hub AiRoutes.

Section Routes.

Variable client : ClientCall -> string + Json.
Variable clientModel : string.
Variable timestamp : string.

Lemma answer_settled (call : ClientCall) (tag : string) :
  settled_by_one_call client timestamp (answer client timestamp call tag).
Proof.
  right. exists call. unfold answer.
  destruct (client call) eqn:E; simpl; (split; [reflexivity|]);
    [reflexivity|now exists tag].
Qed.

(** X25.  Each AI route checks its required fields before it calls the
    model's client: a request turned away with 400 made no call; any
    other request made exactly one call and is answered with 200 and
    the client's response, or with 500 and the client's error.  The
    chat route turns away every [messages] that is not an array, and no
    route hands the client a missing or falsy context: it hands it the
    empty object instead. *)
Theorem ai_routes_check_then_call_once (reqBody : list (string * Json)) :
  settled_by_one_call client timestamp (chat client clientModel timestamp reqBody)
  /\ settled_by_one_call client timestamp (deepThink client timestamp reqBody)
  /\ settled_by_one_call client timestamp (tdd client timestamp reqBody)
  /\ settled_by_one_call client timestamp (agent client timestamp reqBody)
  /\ settled_by_one_call client timestamp (review client timestamp reqBody)
  /\ (isArray (field "messages" reqBody) = false ->
        (chat client clientModel timestamp reqBody).1 = [])
  /\ Forall (fun call =>
       match call with
       | DeepThink _ context | GenerateWithTests _ context
       | AgenticWorkflow _ context | ReviewCode _ _ context =>
           truthy context = true
       | Chat _ _ => True
       end)
       ((deepThink client timestamp reqBody).1
        ++ (tdd client timestamp reqBody).1
        ++ (agent client timestamp reqBody).1
        ++ (review client timestamp reqBody).1).
Proof.
  assert (Hctx : forall v, truthy (orEmptyObject v) = true).
  { intros v. unfold orEmptyObject. now destruct (truthy v) eqn:E. }
  unfold chat, deepThink, tdd, agent, review.
  repeat split.
  - destruct (_ || _); [now left|apply answer_settled].
  - destruct (negb _); [now left|apply answer_settled].
  - destruct (negb _); [now left|apply answer_settled].
  - destruct (negb _); [now left|apply answer_settled].
  - destruct (_ || _); [now left|apply answer_settled].
  - intros ->. now rewrite orb_true_r.
  - repeat apply Forall_app_2;
      match goal with
      | |- context [if ?b then _ else _] => destruct b
      end; unfold bad_request, answer; simpl; try constructor;
      try (destruct (client _); simpl; repeat constructor; apply Hctx).
Qed.

End Routes.

End AiRouteFacts.

Module GeminiFacts.
Import Hub Gemini.

Lemma contains_append (c : ascii) (a b : string) :
  contains c (a +:+ b) = contains c a || contains c b.
Proof.
  induction a as [|d a IH]; [reflexivity|].
  change (String d a +:+ b) with (String d (a +:+ b)). simpl.
  now rewrite IH, orb_assoc.
Qed.

Lemma upToLast_None (c : ascii) (s : string) :
  upToLast c s = None -> contains c s = false.
Proof.
  induction s as [|d s IH]; simpl; [reflexivity|].
  destruct (upToLast c s); [discriminate|].
  destruct (Ascii.eqb d c); [discriminate|]. intros _. now apply IH.
Qed.

Lemma upToLast_Some (c : ascii) (s m : string) :
  upToLast c s = Some m ->
  exists mid post, m = mid +:+ String c "" /\ s = m +:+ post
                   /\ contains c post = false.
Proof.
  revert m. induction s as [|d s IH]; intros m; simpl; [discriminate|].
  destruct (upToLast c s) as [m'|] eqn:E.
  - intros [= <-]. destruct (IH m' eq_refl) as [mid [post [-> [Hs Hpost]]]].
    exists (String d mid), post. split; [reflexivity|]. split; [|assumption].
    change (String d (mid +:+ String c "") +:+ post)
      with (String d ((mid +:+ String c "") +:+ post)). now rewrite <- Hs.
  - destruct (Ascii.eqb_spec d c) as [->|_]; [|discriminate].
    intros [= <-]. exists "", s. split; [reflexivity|]. split; [reflexivity|].
    now apply upToLast_None.
Qed.

Lemma jsonMatch_Some (text m : string) :
  jsonMatch text = Some m ->
  exists pre mid post,
    text = pre +:+ m +:+ post /\ m = "{" +:+ mid +:+ "}"
    /\ contains "{"%char pre = false /\ contains "}"%char post = false.
Proof.
  revert m. induction text as [|d text IH]; intros m; simpl; [discriminate|].
  destruct (Ascii.eqb_spec d "{"%char) as [->|Hd].
  - destruct (upToLast "}"%char text) as [m'|] eqn:E; [|discriminate].
    intros [= <-]. apply upToLast_Some in E as [mid [post [-> [Hs Hpost]]]].
    exists "", mid, post. split; [|split; [reflexivity|split; [reflexivity|assumption]]].
    change ("" +:+ String "{"%char (mid +:+ "}") +:+ post)
      with (String "{"%char ((mid +:+ "}") +:+ post)). now rewrite <- Hs.
  - intros Hm. destruct (IH m Hm) as [pre [mid [post [-> [Hmid [Hpre Hpost]]]]]].
    exists (String d pre), mid, post. split; [reflexivity|].
    split; [assumption|]. split; [|assumption]. simpl.
    destruct (Ascii.eqb_spec d "{"%char); [contradiction|assumption].
Qed.

Lemma jsonMatch_None (text : string) :
  jsonMatch text = None ->
  forall a b, text = a +:+ String "{"%char b -> contains "}"%char b = false.
Proof.
  induction text as [|d text IH]; simpl; intros Hnone a b Heq.
  - destruct a; discriminate.
  - destruct a as [|x a].
    + change ("" +:+ String "{"%char b) with (String "{"%char b) in Heq.
      injection Heq as -> ->. simpl in Hnone.
      destruct (upToLast "}"%char b) eqn:E; [discriminate|].
      now apply upToLast_None.
    + change (String x a +:+ String "{"%char b)
        with (String x (a +:+ String "{"%char b)) in Heq.
      injection Heq as -> ->.
      destruct (Ascii.eqb x "{"%char).
      * destruct (upToLast "}"%char (a +:+ String "{"%char b)) eqn:E;
          [discriminate|].
        apply upToLast_None in E. rewrite contains_append in E. simpl in E.
        now apply orb_false_iff in E as [_ E].
      * now apply (IH Hnone a b).
Qed.

(** X26.  The JSON of a reply is what stands from the first opening
    brace of the text to the last closing brace after it; a text without
    such a pair of braces has no match.  [agenticWorkflow] and
    [reviewCode] never fail on a reply they cannot parse: without a
    match, or with a match that does not parse, they return the whole
    text raw; otherwise they return what the match parses to. *)
Theorem reply_json_is_first_to_last_brace (JSON_parse : string -> option Json)
    (text : string) :
  match jsonMatch text with
  | Some m =>
      (exists pre mid post,
         text = pre +:+ m +:+ post /\ m = "{" +:+ mid +:+ "}"
         /\ contains "{"%char pre = false /\ contains "}"%char post = false)
      /\ extractJson JSON_parse text
         = match JSON_parse m with Some value => Parsed value | None => Raw text end
  | None =>
      (forall pre mid post, text <> pre +:+ "{" +:+ mid +:+ "}" +:+ post)
      /\ extractJson JSON_parse text = Raw text
  end.
Proof.
  unfold extractJson. destruct (jsonMatch text) as [m|] eqn:E.
  - split; [now apply jsonMatch_Some|reflexivity].
  - split; [|reflexivity]. intros pre mid post Heq.
    pose proof (jsonMatch_None text E pre (mid +:+ "}" +:+ post) Heq) as H.
    rewrite contains_append in H. simpl in H.
    now rewrite orb_true_r in H.
Qed.

Example braces_in_prose :
  jsonMatch "Plan {a: {b: 1}} and a stray } here" = Some "{a: {b: 1}} and a stray }"
  /\ jsonMatch "no braces" = None
  /\ jsonMatch "} before {" = None.
Proof. repeat split. Qed.

End GeminiFacts.

(* ===================================================================== *)
(** * Properties of the assistant's context *)
(* ===================================================================== *)

Module AssistantFacts.
Import Hub AIContext StreamShapes.

Section Provider.

Variable server : Server.
Variable stringify : Json -> string.
Variable decode : string -> option string.

Lemma exchange_appends (tag userContent : string) (request : Request)
    (now later : Z) (s : State) :
  let '(s', requests, result) := exchange server tag userContent request now later s in
  requests = [request]
  /\ loading s' = false /\ mode s' = mode s
  /\ streamingMessage s' = streamingMessage s
  /\ match respond server request, result with
     | inr reply, inr ai =>
         ai = aiMessage (response reply) later (Some tag) None
         /\ messages s' = (messages s
              ++ [userMessage userContent now (Some tag); ai])%list
     | inl error, inl thrown =>
         thrown = error
         /\ messages s' = (messages s ++ [userMessage userContent now (Some tag)])%list
     | _, _ => False
     end.
Proof.
  unfold exchange. destruct (respond server request) as [error|reply]; simpl;
    repeat split; try reflexivity.
  now rewrite <- app_assoc.
Qed.

(** X27.  [deepThink], [generateWithTests], [runAgent] and [reviewCode]
    only ever append to the conversation, whatever state they run on:
    they send one request, add the user's message before the answer is
    known, add the assistant's message when the request is answered,
    and throw the error when it is rejected, leaving the user's message
    without a reply.  In both cases [loading] is switched off at the
    end and the mode and the streaming message are untouched. *)
Theorem updater_functions_only_append (prompt code language : string)
    (context : Json) (now later : Z) (s : State) :
  Forall (fun '(tag, shown, request, outcome) =>
    let '(s', requests, result) := (outcome : Outcome) in
    requests = [request]
    /\ loading s' = false /\ mode s' = mode s
    /\ streamingMessage s' = streamingMessage s
    /\ match respond server request, result with
       | inr reply, inr ai =>
           ai = aiMessage (response reply) later (Some tag) None
           /\ messages s' = (messages s ++ [userMessage shown now (Some tag); ai])%list
       | inl error, inl thrown =>
           thrown = error
           /\ messages s' = (messages s ++ [userMessage shown now (Some tag)])%list
       | _, _ => False
       end)
    [ ("deep-think", prompt, PostDeepThink prompt context,
       deepThink server prompt context now later s);
      ("tdd", prompt, PostTdd prompt context,
       generateWithTests server prompt context now later s);
      ("agent", prompt, PostAgent prompt context,
       runAgent server prompt context now later s);
      ("review", "Review this " +:+ language +:+ " code",
       PostReview code language context,
       reviewCode server code language context now later s) ].
Proof.
  repeat apply List.Forall_cons; [| | | |apply List.Forall_nil].
  - apply (exchange_appends "deep-think").
  - apply (exchange_appends "tdd").
  - apply (exchange_appends "agent").
  - apply (exchange_appends "review").
Qed.

(** X28.  [chat] rebuilds the conversation from the messages of the
    render that created it, not from the current ones: whatever the
    state it runs on, the conversation afterwards is the render's
    messages, the user's message and, when the request is answered, the
    assistant's message with the model's name; the request carries the
    role and content of the render's messages and of the user's.  So a
    message added since that render is gone afterwards, unless it is
    one of the two just added.  [loading] is switched off at the end. *)
Theorem chat_rebuilds_from_its_render (render : State) (text : string)
    (context : Json) (now later : Z) (s : State) :
  let '(s', requests, result) := chat server stringify render text context now later s in
  let user := userMessage text now None in
  let request :=
    PostChat (List.map (fun m => (role m, content m)) (messages render ++ [user]))
      ("You are an expert coding assistant. Context: " +:+ stringify context) in
  requests = [request]
  /\ loading s' = false
  /\ (exists ending,
        messages s' = (messages render ++ user :: ending)%list
        /\ match respond server request, result with
           | inr reply, inr ai =>
               ai = aiMessage (response reply) later None (replyModel reply)
               /\ ending = [ai]
           | inl error, inl thrown => thrown = error /\ ending = []
           | _, _ => False
           end
        /\ forall m, In m (messages s) -> ~ In m (messages render) ->
             ~ In m (user :: ending) -> ~ In m (messages s')).
Proof.
  unfold chat. cbv zeta.
  set (user := userMessage text now None).
  change {| role := "user"; content := JString text; timestamp := now;
            messageMode := None; model := None |} with user.
  destruct (respond server _) as [error|reply] eqn:E; simpl.
  - split; [reflexivity|]. split; [reflexivity|]. exists [].
    split; [reflexivity|]. split; [now split|].
    intros m _ Hrender Hnew Hin. apply in_app_or in Hin as [Hin|Hin]; tauto.
  - split; [reflexivity|]. split; [reflexivity|].
    exists [aiMessage (response reply) later None (replyModel reply)].
    split; [now rewrite <- app_assoc|]. split; [now split|].
    intros m _ Hrender Hnew Hin.
    rewrite <- app_assoc in Hin. apply in_app_or in Hin as [Hin|Hin]; tauto.
Qed.

End Provider.

End AssistantFacts.

(* ===================================================================== *)
(** * Properties of the stream, from the route to the reader *)
(* ===================================================================== *)

Module StreamFacts.
Import Hub AiRoutes AIContext StreamShapes.

Lemma prefix_append (p s : string) : String.prefix p (p +:+ s) = true.
Proof.
  induction p as [|c p IH]; [now destruct s|].
  rewrite PathFacts.append_cons. simpl.
  destruct (ascii_dec c c); [exact IH|contradiction].
Qed.

Lemma substring_all (s : string) : String.substring 0 (String.length s) s = s.
Proof. induction s as [|c s IH]; simpl; [reflexivity|now rewrite IH]. Qed.

Lemma slice6_data (e : string) : slice6 ("data: " +:+ e) = e.
Proof.
  unfold slice6.
  change (String.length ("data: " +:+ e)) with (6 + String.length e).
  replace (6 + String.length e - 6) with (String.length e) by lia.
  apply substring_all.
Qed.

Lemma splitLines_line (a rest : string) :
  Gemini.contains "010"%char a = false ->
  splitLines (a +:+ LF +:+ rest) = a :: splitLines rest.
Proof.
  induction a as [|c a IH]; intros Ha; [reflexivity|].
  simpl in Ha. apply orb_false_iff in Ha as [Hc Ha].
  change (String c a +:+ LF +:+ rest) with (String c (a +:+ LF +:+ rest)).
  simpl. rewrite Hc. now rewrite (IH Ha).
Qed.

Lemma splitLines_last (a : string) :
  Gemini.contains "010"%char a = false -> splitLines a = [a].
Proof.
  induction a as [|c a IH]; intros Ha; [reflexivity|].
  simpl in Ha. apply orb_false_iff in Ha as [Hc Ha].
  simpl. rewrite Hc. now rewrite (IH Ha).
Qed.

Lemma contains_data (e : string) :
  Gemini.contains "010"%char e = false ->
  Gemini.contains "010"%char ("data: " +:+ e) = false.
Proof. intros He. exact He. Qed.

Lemma joined_app (a b : list string) :
  joined (a ++ b) = joined a +:+ joined b.
Proof.
  induction a as [|x a IH]; [reflexivity|].
  simpl. rewrite IH. symmetry. apply PathFacts.append_assoc.
Qed.

Lemma append_empty_r (a : string) : a +:+ "" = a.
Proof.
  induction a as [|c a IH]; [reflexivity|].
  rewrite PathFacts.append_cons. now rewrite IH.
Qed.

Section Reader.

Variable encode : string -> string.
Variable decode : string -> option string.

(** The lines of one frame, then the lines of what follows it. *)
Lemma chunkFrame_lines (chunk rest : string) :
  Gemini.contains "010"%char (encode chunk) = false ->
  splitLines (chunkFrame encode chunk +:+ rest)
  = ("data: " +:+ encode chunk) :: "" :: splitLines rest.
Proof.
  intros He. unfold chunkFrame.
  rewrite !PathFacts.append_assoc.
  rewrite <- (PathFacts.append_assoc "data: " (encode chunk)).
  rewrite (splitLines_line ("data: " +:+ encode chunk)); [|now apply contains_data].
  f_equal.
Qed.

Lemma readLines_data (chunk : string) (lines : list string)
    (fullMessage : string) (called : list string) :
  carried encode decode chunk ->
  readLines decode (("data: " +:+ encode chunk) :: "" :: lines) fullMessage called
  = readLines decode lines (fullMessage +:+ chunk) (called ++ [chunk]).
Proof.
  intros [Hdec [_ Hdone]].
  cbn [readLines]. unfold JS.startsWith. rewrite prefix_append, slice6_data.
  destruct (String.eqb_spec (encode chunk) "[DONE]") as [E|_]; [contradiction|].
  rewrite Hdec. reflexivity.
Qed.

(** Whole frames in one read are all taken up. *)
Lemma readLines_frames (chunks : list string) (rest : string)
    (fullMessage : string) (called : list string) :
  Forall (carried encode decode) chunks ->
  readLines decode
    (splitLines (joined (List.map (chunkFrame encode) chunks) +:+ rest))
    fullMessage called
  = readLines decode (splitLines rest)
      (fullMessage +:+ joined chunks) (called ++ chunks).
Proof.
  revert fullMessage called.
  induction chunks as [|c chunks IH]; intros fullMessage called Hall.
  - simpl. now rewrite append_empty_r, app_nil_r.
  - apply List.Forall_cons_iff in Hall as [Hc Hall].
    cbn [List.map joined fold_right]. fold (joined (List.map (chunkFrame encode) chunks)).
    rewrite PathFacts.append_assoc.
    rewrite chunkFrame_lines by apply Hc.
    rewrite readLines_data by exact Hc.
    rewrite (IH _ _ Hall). fold (joined chunks).
    now rewrite PathFacts.append_assoc, <- app_assoc.
Qed.

Lemma readLines_done (rest : string) (fullMessage : string)
    (called : list string) :
  readLines decode (splitLines (doneFrame +:+ rest)) fullMessage called
  = (fullMessage, called).
Proof.
  unfold doneFrame. rewrite !PathFacts.append_assoc.
  rewrite (splitLines_line "data: [DONE]") by reflexivity.
  reflexivity.
Qed.

Lemma readLines_nothing (fullMessage : string) (called : list string) :
  readLines decode (splitLines "") fullMessage called = (fullMessage, called).
Proof. reflexivity. Qed.

Lemma readAll_empty_reads (groups : list (list string))
    (fullMessage : string) (called : list string) :
  concat groups = [] ->
  readAll decode (List.map joined groups) fullMessage called
  = (fullMessage, called).
Proof.
  induction groups as [|g groups IH]; [reflexivity|].
  simpl. intros H. apply app_eq_nil in H as [-> H]. simpl. now apply IH.
Qed.

Lemma map_eq_app_split (g l : list string) (chunks : list string) :
  List.map (chunkFrame encode) chunks = (g ++ l)%list ->
  exists c1 c2, chunks = (c1 ++ c2)%list
                /\ g = List.map (chunkFrame encode) c1
                /\ l = List.map (chunkFrame encode) c2.
Proof.
  intros H. exists (firstn (length g) chunks), (skipn (length g) chunks).
  split; [now rewrite firstn_skipn|].
  rewrite <- !List.firstn_map, <- !List.skipn_map, H.
  rewrite List.firstn_app, List.firstn_all, Nat.sub_diag. simpl.
  rewrite List.skipn_app, List.skipn_all, Nat.sub_diag. simpl.
  now rewrite app_nil_r.
Qed.

Lemma readAll_groups (groups : list (list string)) :
  forall (chunks : list string) (fullMessage : string) (called : list string),
  Forall (carried encode decode) chunks ->
  concat groups = streamWrites encode chunks ->
  readAll decode (List.map joined groups) fullMessage called
  = (fullMessage +:+ joined chunks, (called ++ chunks)%list).
Proof.
  unfold streamWrites.
  induction groups as [|g groups IH]; intros chunks fullMessage called Hall Hg.
  - simpl in Hg. symmetry in Hg. now apply app_eq_nil in Hg as [_ Hg].
  - simpl in Hg. cbn [List.map readAll].
    apply List.app_eq_app in Hg as [l [[Hg Hl]|[Hm Hl]]].
    + destruct l as [|d l].
      * rewrite app_nil_r in Hg. simpl in Hl. subst g.
        pose proof (readLines_frames chunks "" fullMessage called Hall) as R.
        rewrite append_empty_r in R. rewrite R, readLines_nothing.
        rewrite (IH [] _ _ (@List.Forall_nil _ _)) by (now rewrite <- Hl).
        simpl. now rewrite append_empty_r, app_nil_r.
      * injection Hl as <- Hl. symmetry in Hl.
        apply app_eq_nil in Hl as [-> Hl]. subst g.
        rewrite joined_app. simpl joined at 2.
        rewrite readLines_frames by exact Hall.
        rewrite readLines_done. now apply readAll_empty_reads.
    + apply map_eq_app_split in Hm as [c1 [c2 [-> [-> ->]]]].
      apply Forall_app in Hall as [H1 H2].
      pose proof (readLines_frames c1 "" fullMessage called H1) as R.
      rewrite append_empty_r in R. rewrite R, readLines_nothing.
      rewrite (IH c2 _ _ H2 Hl).
      now rewrite joined_app, PathFacts.append_assoc, <- app_assoc.
Qed.

(** X29.  What the stream route writes, the reader of [streamChat]
    takes up again: when the chunks of the model are carried by the
    frames (each encoding decodes back, holds no line feed and is not
    the end mark) and every read delivers whole writes of the route,
    however they are grouped, [onChunk] is called with the chunks in
    order, the assistant's message holds them joined, it is appended
    after the user's message, and [loading] and the streaming message
    are reset. *)
Theorem stream_is_read_back (server : Server) (prompt : string)
    (context : Json) (now later : Z) (s : State)
    (chunks : list string) (groups : list (list string)) :
  Forall (carried encode decode) chunks ->
  concat groups = streamWrites encode chunks ->
  stream server (FetchStream prompt context) = inr (List.map joined groups) ->
  let answer := aiMessage (JString (joined chunks)) later None None in
  streamChat server decode prompt context now later s
  = (({| messages := (messages s ++ [userMessage prompt now None; answer])%list;
         loading := false; mode := mode s; streamingMessage := "" |},
      [FetchStream prompt context], inr answer), chunks).
Proof.
  intros Hall Hg Hs. unfold streamChat. rewrite Hs.
  rewrite (readAll_groups groups chunks "" [] Hall Hg).
  simpl. unfold setLoading, setStreamingMessage, setMessages; simpl.
  now rewrite <- app_assoc.
Qed.

(** X30.  The reader keeps nothing between two reads: a frame that a
    read cuts in two is lost.  When the first read ends inside the
    frame's data, with a part that does not decode and holds no line
    feed, and the next read starts with the rest of the frame, neither
    part adds to the message nor calls [onChunk]. *)
Theorem frame_cut_by_a_read_is_lost (head tail : string)
    (reads : list string) (fullMessage : string) (called : list string) :
  Gemini.contains "010"%char head = false ->
  Gemini.contains "010"%char tail = false ->
  head <> "[DONE]" ->
  decode head = None ->
  JS.startsWith tail "data: " = false ->
  readAll decode (("data: " +:+ head) :: (tail +:+ LF +:+ LF) :: reads)
    fullMessage called
  = readAll decode reads fullMessage called.
Proof.
  intros Hhead Htail Hdone Hdec Hstart.
  cbn [readAll].
  rewrite (splitLines_last ("data: " +:+ head)) by now apply contains_data.
  rewrite (splitLines_line tail) by exact Htail.
  change (splitLines (LF +:+ "")) with ["" ; ""].
  cbn [readLines]. unfold JS.startsWith at 1. rewrite prefix_append, slice6_data.
  destruct (String.eqb_spec head "[DONE]") as [E|_]; [contradiction|].
  rewrite Hdec, Hstart. reflexivity.
Qed.

End Reader.

Lemma stream_is_read_back_witness :
  let server := {| respond := fun _ => inl "unused";
                   stream := fun _ =>
                     inr [ chunkFrame braced "Hel" +:+ chunkFrame braced "lo";
                           ""; doneFrame ] |} in
  (streamChat server unbraced "hi" JNull 1 2
     {| messages := []; loading := false; mode := "chat";
        streamingMessage := "" |}).2 = ["Hel"; "lo"].
Proof.
  intros server.
  rewrite (stream_is_read_back braced unbraced server "hi" JNull 1 2 _
             ["Hel"; "lo"]
             [[chunkFrame braced "Hel"; chunkFrame braced "lo"]; []; [doneFrame]]).
  - reflexivity.
  - repeat constructor; discriminate.
  - reflexivity.
  - reflexivity.
Defined.

Lemma frame_cut_witness :
  readAll unbraced
    (("data: " +:+ "{Hel") :: ("lo}" +:+ LF +:+ LF) :: [doneFrame]) "" []
  = readAll unbraced [doneFrame] "" [].
Proof.
  apply (frame_cut_by_a_read_is_lost unbraced "{Hel" "lo}" [doneFrame] "" []);
    [reflexivity|reflexivity|discriminate|reflexivity|reflexivity].
Defined.

Example cut_frame_loses_its_chunk :
  readAll unbraced [chunkFrame braced "Hel" +:+ chunkFrame braced "lo"; doneFrame] "" []
  = ("Hello", ["Hel"; "lo"])
  /\ readAll unbraced
       [chunkFrame braced "Hel" +:+ "data: {l"; "o}" +:+ LF +:+ LF; doneFrame] "" []
     = ("Hel", ["Hel"]).
Proof. split; reflexivity. Qed.

End StreamFacts.
